(** * Verification of the snowscrape crawl execution engine

    Shallow embedding of the Python sources of the crawl engine:
    - [src/backend/validators.py]: [validate_scrape_url], [_is_ip_blocked],
      [InputValidator.validate_url], [validate_xpath_query],
      [validate_regex_pattern];
    - [src/tiered_scraper.py]: [detect_blocking], [smart_scrape];
    - [src/job_manager.py]: [process_job];
    - [src/backend/crawl_manager.py]: [process_queries];
    - [src/backend/crawler.py]: [execute_query];
    - [src/rate_limiter.py]: [DomainRateLimiter.wait_if_needed].

    A Python [str] is a [list ascii] (the development is restricted to ASCII
    text).  Library code the sources call ([urllib.parse], [ipaddress],
    [socket.getaddrinfo], [re.compile], lxml, jsonpath) is either transcribed
    from CPython (3.12) where the claims depend on its details, or taken as a
    parameter of a Section where only its result matters. *)

From Stdlib Require Import ZArith Ascii String List Bool Lia.
Import ListNotations.
Open Scope list_scope.

(** ** Python strings *)
Module PyStr.

Definition pystr := list ascii.

(** A Python string literal. *)
Definition s (x : string) : pystr := list_ascii_of_string x.

Definition code (c : ascii) : nat := nat_of_ascii c.

(** [str.isspace] on one ASCII character: \t \n \v \f \r, the separators
    \x1c-\x1f and the space. *)
Definition isspace (c : ascii) : bool :=
  let n := code c in ((9 <=? n) && (n <=? 13)) || ((28 <=? n) && (n <=? 32)).

Fixpoint lstrip (x : pystr) : pystr :=
  match x with
  | [] => []
  | c :: t => if isspace c then lstrip t else x
  end.

Definition rstrip (x : pystr) : pystr := rev (lstrip (rev x)).

(** [str.strip()] *)
Definition strip (x : pystr) : pystr := rstrip (lstrip x).

(** [str.lower()] on ASCII. *)
Definition lower_char (c : ascii) : ascii :=
  let n := code c in
  if (65 <=? n) && (n <=? 90) then ascii_of_nat (n + 32) else c.

Definition lower (x : pystr) : pystr := map lower_char x.

Definition isdigit (c : ascii) : bool := let n := code c in (48 <=? n) && (n <=? 57).
Definition isalpha (c : ascii) : bool :=
  let n := code c in ((65 <=? n) && (n <=? 90)) || ((97 <=? n) && (n <=? 122)).

Fixpoint startswith (x p : pystr) : bool :=
  match p, x with
  | [], _ => true
  | c :: p', d :: x' => Ascii.eqb c d && startswith x' p'
  | _ :: _, [] => false
  end.

(** [p in x] for strings. *)
Fixpoint contains (x p : pystr) : bool :=
  startswith x p || match x with [] => false | _ :: x' => contains x' p end.

Definition endswith (x p : pystr) : bool := startswith (rev x) (rev p).

(** [x.count(c)] for a one-character [c]. *)
Definition count (c : ascii) (x : pystr) : nat :=
  List.length (filter (fun d => Ascii.eqb c d) x).

Definition mem (c : ascii) (x : pystr) : bool := existsb (Ascii.eqb c) x.

Fixpoint str_eqb (x y : pystr) : bool :=
  match x, y with
  | [], [] => true
  | c :: x', d :: y' => Ascii.eqb c d && str_eqb x' y'
  | _, _ => false
  end.

Lemma str_eqb_eq : forall x y, str_eqb x y = true <-> x = y.
Proof.
  induction x as [|c x IH]; destruct y as [|d y]; simpl; split; intro H;
    try discriminate; auto.
  - apply andb_prop in H as [H1 H2]. apply Ascii.eqb_eq in H1.
    apply IH in H2. subst. reflexivity.
  - injection H as -> ->. rewrite Ascii.eqb_refl. simpl. apply IH. reflexivity.
Qed.

Definition str_in (x : pystr) (l : list pystr) : bool := existsb (str_eqb x) l.

(** [sep.join(l)] *)
Fixpoint join (sep : pystr) (l : list pystr) : pystr :=
  match l with
  | [] => []
  | [x] => x
  | x :: l' => x ++ sep ++ join sep l'
  end.

(** [s * n] *)
Fixpoint repeat_str (x : pystr) (n : nat) : pystr :=
  match n with O => [] | S n' => x ++ repeat_str x n' end.

End PyStr.
Import PyStr.

(** ** Blocking detector ([src/tiered_scraper.py], [detect_blocking]) *)
Module Blocking.

(** The two attributes of a [requests.Response] the detector reads. *)
Record response := { status_code : Z; text : pystr }.

(** [content if content else response.text] *)
Definition text_to_check (resp : response) (content : option pystr) : pystr :=
  match content with
  | Some ((_ :: _) as c) => c
  | _ => text resp
  end.

Definition blocking_patterns : list (pystr * pystr) :=
  [ (s "just a moment...", s "cloudflare_challenge");
    (s "checking your browser", s "cloudflare_challenge");
    (s "enable javascript and cookies", s "cloudflare_challenge");
    (s "cf-browser-verification", s "cloudflare_verification");
    (s "access denied", s "access_denied");
    (s "access forbidden", s "access_forbidden");
    (s "verify you are human", s "human_verification");
    (s "prove you are human", s "human_verification");
    (s "unusual traffic from your computer network", s "unusual_traffic");
    (s "automated access", s "automation_detected");
    (s "please complete the security check", s "security_check");
    (s "perimeterpx", s "perimeterx_challenge");
    (s "datadome", s "datadome_challenge") ].

(** Check 1: status codes. *)
Definition status_indicators (code : Z) : list pystr :=
  if (code =? 403)%Z then [s "403_forbidden"]
  else if (code =? 429)%Z then [s "429_rate_limited"]
  else if (code =? 503)%Z then [s "503_service_unavailable"]
  else [].

(** Check 2: the loop over [blocking_patterns] on the lower-cased text. *)
Definition content_indicators (t : pystr) : list pystr :=
  match t with
  | [] => []
  | _ => let tl := lower t in
         map snd (filter (fun pi => contains tl (fst pi)) blocking_patterns)
  end.

Definition detect_blocking (resp : response) (content : option pystr)
  : bool * list pystr :=
  let t := text_to_check resp content in
  let ind12 := status_indicators (status_code resp) ++ content_indicators t in
  let ind3 :=
    match t with
    | [] => ind12
    | _ => if Nat.ltb (List.length (strip t)) 200 then
             match ind12 with
             | _ :: _ => ind12 ++ [s "minimal_content"]
             | [] => if (400 <=? status_code resp)%Z
                     then ind12 ++ [s "minimal_content"] else ind12
             end
           else ind12
    end in
  (Nat.ltb 0 (length ind3), ind3).

End Blocking.

(** ** Tiered fetch escalation controller ([src/tiered_scraper.py], [smart_scrape]) *)
Module Tiered.

(** How the call of one tier function ends: it returns ([TSuccess]), raises
    [BlockingDetectionError] ([TBlocked]), raises [NotImplementedError]
    ([TUnavailable]) or raises any other exception ([TError]). *)
Inductive tier_outcome :=
| TSuccess
| TBlocked (indicators : list pystr)
| TUnavailable (msg : pystr)
| TError (msg : pystr).

(** The entries appended to [escalation_log], one constructor per f-string. *)
Inductive log_entry :=
| LAttempting (t : Z)                 (* "Attempting Tier {t} ({name})" *)
| LSuccess (t : Z)                    (* "Success with Tier {t}" *)
| LBlocked (t : Z) (ind : list pystr) (* "Tier {t} blocked: {indicators}" *)
| LEscalating (t : Z)                 (* "Escalating to Tier {t}" *)
| LNotImplemented (t : Z) (msg : pystr)
| LError (t : Z) (msg : pystr)        (* "Tier {t} error: {e}" *)
| LEscalatingAfterError (t : Z).

(** The exceptions [smart_scrape] raises. *)
Inductive exn :=
| ExnFailedAtTier (t : Z) (ind : list pystr) (* "Scraping failed at Tier {t}: ..." *)
| ExnNotImplemented (t : Z) (msg : pystr)    (* "This site requires Tier {t} ..." *)
| ExnReraised (msg : pystr)                  (* bare [raise] of the tier's error *)
| ExnAllExhausted (max_tier : Z)             (* "All tiers exhausted (1-{max})" *)
| ExnKeyError (t : Z).                       (* [TIER_INFO[t]] outside 1..4 *)

(** The outcome of the coroutine, with the escalation log built so far
    (the log is returned on success and dropped when an exception escapes;
    it is kept here to observe the sequence of attempts). *)
Inductive scrape_result :=
| Returned (tier_used : Z) (log : list log_entry)
| Raised (e : exn) (log : list log_entry).

(** Control points of the [while] loop: the loop head with [current_tier],
    the point after the tier function ended, and the exit. *)
Inductive ctl_state :=
| Attempting (t : Z) (log : list log_entry)
| Attempted (t : Z) (o : tier_outcome) (log : list log_entry)
| Finished (r : scrape_result).

(** [t in TIER_INFO] *)
Definition tier_known (t : Z) : bool := (1 <=? t)%Z && (t <=? 4)%Z.

Section Controller.
Variable attempt : Z -> tier_outcome.
Variable max_tier : Z.
Variable auto_escalate : bool.

Definition step (st : ctl_state) : ctl_state :=
  match st with
  | Attempting t log =>
      if (t <=? max_tier)%Z then
        if tier_known t then Attempted t (attempt t) (log ++ [LAttempting t])
        else Finished (Raised (ExnKeyError t) log)
      else Finished (Raised (ExnAllExhausted max_tier) log)
  | Attempted t TSuccess log => Finished (Returned t (log ++ [LSuccess t]))
  | Attempted t (TBlocked ind) log =>
      let log' := log ++ [LBlocked t ind] in
      if negb auto_escalate || (max_tier <=? t)%Z
      then Finished (Raised (ExnFailedAtTier t ind) log')
      else Attempting (t + 1) (log' ++ [LEscalating (t + 1)])
  | Attempted t (TUnavailable m) log =>
      Finished (Raised (ExnNotImplemented t m) (log ++ [LNotImplemented t m]))
  | Attempted t (TError m) log =>
      let log' := log ++ [LError t m] in
      if negb auto_escalate || (max_tier <=? t)%Z
      then Finished (Raised (ExnReraised m) log')
      else Attempting (t + 1) (log' ++ [LEscalatingAfterError (t + 1)])
  | Finished r => Finished r
  end.

Fixpoint run (n : nat) (st : ctl_state) : ctl_state :=
  match n with
  | O => st
  | S n' => match st with Finished _ => st | _ => run n' (step st) end
  end.

(** Each iteration takes two steps and raises the tier by one, so
    [2 * (max_tier - min_tier) + 4] steps reach [Finished]. *)
Definition smart_scrape (min_tier : Z) : scrape_result :=
  match run (Z.to_nat (2 * (max_tier - min_tier) + 4)) (Attempting min_tier []) with
  | Finished r => r
  | _ => Raised (ExnAllExhausted max_tier) []
  end.

End Controller.

Definition result_log (r : scrape_result) : list log_entry :=
  match r with Returned _ l => l | Raised _ l => l end.

End Tiered.

(** ** Crawl job runner ([src/job_manager.py], [process_job]) *)
Module JobRunner.

(** [results[key] = v] on a Python dict kept as an association list in
    insertion order. *)
Fixpoint dict_set {V : Type} (d : list (pystr * V)) (k : pystr) (v : V) : list (pystr * V) :=
  match d with
  | [] => [(k, v)]
  | (k', v') :: d' => if str_eqb k k' then (k, v) :: d' else (k', v') :: dict_set d' k v
  end.

Section Runner.
(** [Data]: what [process_queries] returns; [Resp]: the failure dict returned
    by [fetch_url_with_session]; [Query]: one query dict. *)
Context {Data Resp Query : Type}.

(** [get_job(job_id)]: no item (or a [ClientError], caught inside [get_job]),
    an item whose ['status'] field is given, or an exception escaping it. *)
Inductive poll_result :=
| JobMissing
| JobItem (status : option pystr)
| PollRaises (msg : pystr).

(** [fetch_url_with_session(...)]: a response whose ['status'] is
    ['success'] (with its ['content']), any other response dict, or an
    exception. *)
Inductive fetch_outcome :=
| FetchSuccess (content : pystr)
| FetchFailure (response : Resp)
| FetchRaises (msg : pystr).

(** The values stored in [results[url]]. *)
Inductive url_result :=
| UrlSuccess (data : Data)     (* {'status': 'success', 'data': url_results} *)
| UrlResponse (response : Resp) (* results[url] = response *)
| UrlError (msg : pystr).      (* {'status': 'error', 'message': str(e)} *)

(** The dict [process_job] returns: a status dict
    [{'status': ..., 'message': ...}] (the message text is not modelled),
    the [results] dict, or an exception escaping the function. *)
Inductive job_return :=
| JobStatusDict (status : pystr)
| JobResults (results : list (pystr * url_result))
| JobRaised.

(** The outside world as seen by one run: DynamoDB reads, the clock
    ([elapsed_at idx] is [(now - start_time).total_seconds()] at the top of
    iteration [idx]), the fetches and the final writes. *)
Record env := {
  poll_initial : poll_result;
  fetch_urls : option (list pystr);       (* None: fetch_urls_for_job raises *)
  elapsed_at : nat -> Z;
  poll_at : nat -> poll_result;
  fetch_at : nat -> fetch_outcome;
  save_results_ok : bool;                 (* save_results_to_s3 *)
  final_update_ok : bool                  (* the last job_table.update_item *)
}.

Record job := { job_id : pystr; queries : list Query; timeout : option Z }.

Variable process_queries : pystr -> list Query -> option Data.

(** [job_data.get('timeout', 900)] *)
Definition timeout_seconds (j : job) : Z :=
  match timeout j with Some t => t | None => 900%Z end.

Definition is_cancelled (p : poll_result) : bool :=
  match p with
  | JobItem (Some st) => str_eqb st (s "cancelled")
  | _ => false
  end.

(** How the [for] loop ends; the [results] dict at that point is recorded
    in each case. *)
Inductive loop_exit :=
| LoopDone (results : list (pystr * url_result))
| LoopTimeout (results : list (pystr * url_result))
| LoopCancelled (results : list (pystr * url_result)).

(** One iteration's body after the two checks (the [try] block and its
    [except Exception] handler). *)
Definition process_url (e : env) (j : job) (idx : nat) (url : pystr)
    (results : list (pystr * url_result)) : list (pystr * url_result) :=
  match fetch_at e idx with
  | FetchSuccess content =>
      match process_queries content (queries j) with
      | Some d => dict_set results url (UrlSuccess d)
      | None => dict_set results url (UrlError (s "process_queries raised"))
      end
  | FetchFailure r => dict_set results url (UrlResponse r)
  | FetchRaises m => dict_set results url (UrlError m)
  end.

Fixpoint url_loop (e : env) (j : job) (idx : nat) (urls : list pystr)
    (results : list (pystr * url_result)) : loop_exit :=
  match urls with
  | [] => LoopDone results
  | url :: rest =>
      if (timeout_seconds j <? elapsed_at e idx)%Z then LoopTimeout results
      else match poll_at e idx with
           | PollRaises m => url_loop e j (S idx) rest (dict_set results url (UrlError m))
           | p => if is_cancelled p then LoopCancelled results
                  else url_loop e j (S idx) rest (process_url e j idx url results)
           end
  end.

Definition process_job (e : env) (j : job) : job_return :=
  match poll_initial e with
  | PollRaises _ => JobRaised
  | p0 =>
    if is_cancelled p0 then JobStatusDict (s "cancelled") else
    match fetch_urls e with
    | None | Some [] => JobStatusDict (s "error")
    | Some urls =>
        match url_loop e j 0 urls [] with
        | LoopTimeout _ => JobStatusDict (s "timeout")
        | LoopCancelled _ => JobStatusDict (s "cancelled")
        | LoopDone results =>
            if negb (save_results_ok e) then JobStatusDict (s "error")
            else if negb (final_update_ok e) then JobStatusDict (s "error")
            else JobResults results
        end
    end
  end.

End Runner.

(** The per-URL results carried by a returned value. *)
Definition returned_results {D R : Type} (r : @job_return D R) : list (pystr * @url_result D R) :=
  match r with JobResults l => l | _ => [] end.

End JobRunner.

(** ** Query extraction engine ([src/backend/crawl_manager.py],
    [process_queries]; [src/backend/crawler.py], [execute_query]) *)
Module Extraction.

(** A matched value: a string, or another Python object (a JSON number,
    dict or list from jsonpath, a tuple from [re.findall]) given by its
    [str()]. *)
Inductive pyval := PStr (x : pystr) | PObj (str_of : pystr).

(** [str(v)] *)
Definition py_str (v : pyval) : pystr := match v with PStr x => x | PObj r => r end.

(** The value stored for one query: [None], a string (the joined matches),
    a list of matches, or any other single value (a bare match, or what
    the PDF handler returns). *)
Inductive query_result :=
| QNone
| QStr (x : pystr)
| QList (l : list pyval)
| QVal (v : pyval).

(** A query dict: the keys the two engines read. *)
Record query := {
  q_name : option pystr;
  q_type : option pystr;
  q_selector : option pystr;
  q_query : option pystr;
  q_join : bool }.

(** Python truthiness of an optional string. *)
Definition truthy (o : option pystr) : option pystr :=
  match o with Some (_ :: _) => o | _ => None end.

Definition type_is (q : query) (t : string) : bool :=
  match q_type q with Some ty => str_eqb ty (s t) | None => false end.

Definition is_pdf_type (q : query) : bool :=
  type_is q "pdf_text" || type_is q "pdf_table" || type_is q "pdf_metadata".

(** [str(b)] of a [bytes] object: its [repr], [b'...'] or [b"..."]. *)
Definition hex_digit (n : nat) : ascii :=
  if n <? 10 then ascii_of_nat (48 + n) else ascii_of_nat (87 + n).

Definition dquote : ascii := ascii_of_nat 34.
Definition squote : ascii := ascii_of_nat 39.

Definition bytes_repr (b : pystr) : pystr :=
  let q := if mem squote b && negb (mem dquote b) then dquote else squote in
  let esc (c : ascii) : pystr :=
    let n := nat_of_ascii c in
    if Ascii.eqb c q || Ascii.eqb c "\"%char then ["\"%char; c]
    else if n =? 9 then s "\t"
    else if n =? 10 then s "\n"
    else if n =? 13 then s "\r"
    else if (n <? 32) || (127 <=? n) then
      ["\"%char; "x"%char; hex_digit (n / 16); hex_digit (n mod 16)]
    else [c] in
  ["b"%char; q] ++ flat_map esc b ++ [q].

(** [is_pdf_content] ([src/backend/pdf_handler.py]). *)
Definition is_pdf_content (content : pystr) (content_type : option pystr) : bool :=
  match content_type with
  | Some ct => contains (lower ct) (s "application/pdf")
  | None => false
  end || startswith content (s "%PDF-").

Section Engine.
(** Library calls: [etree.HTML] (with a parse failure or a [None] tree as
    [None]), [tree.xpath], [re.findall] (with [re.error] as [None]), the
    signal-based timeout of [safe_regex_findall], [json.loads],
    [jsonpath_ng.parse(e).find], and the PDF handler. *)
Context {Tree Json : Type}.
Variable html_parse : pystr -> option Tree.
Variable xpath_eval : Tree -> pystr -> option (list pyval).
Variable findall : pystr -> pystr -> option (list pyval).
Variable regex_timeout : pystr -> pystr -> bool.
Variable json_loads : pystr -> option Json.
Variable jsonpath_find : pystr -> Json -> option (list pyval).
Variable extract_pdf_text : pystr -> option pystr.
Variable process_pdf_query : pystr -> query -> query_result.
(** [BeautifulSoup(page_content, 'html.parser')] returns without raising;
    it runs before [etree.HTML] in the same [try], so when it raises
    [html_tree] stays [None]. *)
Variable soup_parse_ok : pystr -> bool.

(** The [try] body of one query in [process_queries], up to the join
    step: either an early value ([extracted_data[name] = None; continue],
    the PDF branch, or the [except] handler) or the [results] list. *)
Inductive step_result := Early (r : query_result) | Results (l : list pyval).

Definition safe_regex_findall (pat text : pystr) : option (list pyval) :=
  if regex_timeout pat text then None else findall pat text.

Definition pq_results (page_content : pystr) (is_pdf : bool) (html_tree : option Tree)
    (q : query) (expr : pystr) : step_result :=
  if type_is q "xpath" then
    match html_tree with
    | None => Early QNone
    | Some tr => match xpath_eval tr expr with
                 | Some l => Results (map (fun v => PStr (py_str v)) l)
                 | None => Early QNone
                 end
    end
  else if type_is q "regex" then
    let text := if is_pdf then extract_pdf_text page_content
                else Some (bytes_repr page_content) in
    match text with
    | Some t => match safe_regex_findall expr t with
                | Some l => Results l
                | None => Early QNone
                end
    | None => Early QNone
    end
  else if type_is q "jsonpath" then
    match json_loads page_content with
    | Some js => match jsonpath_find expr js with
                 | Some l => Results l
                 | None => Early QNone
                 end
    | None => Early QNone
    end
  else if is_pdf_type q then
    if negb is_pdf then Early QNone else Early (process_pdf_query page_content q)
  else Early QNone.

(** [if join_flag and results: '|'.join(...) else: results] *)
Definition pq_shape (join_flag : bool) (l : list pyval) : query_result :=
  match join_flag, l with
  | true, _ :: _ => QStr (join (s "|") (map py_str l))
  | _, _ => QList l
  end.

(** One query of the loop: [None] when the query is skipped by [continue]
    before any entry is written. *)
Definition pq_query (page_content : pystr) (is_pdf : bool) (html_tree : option Tree)
    (q : query) : option query_result :=
  match truthy (q_query q) with
  | None => if is_pdf_type q then
              (* the PDF branch runs with [query_expression] [None] or [''] *)
              Some (match pq_results page_content is_pdf html_tree q [] with
                    | Early r => r | Results l => pq_shape (q_join q) l end)
            else None
  | Some expr =>
      Some (match pq_results page_content is_pdf html_tree q expr with
            | Early r => r
            | Results l => pq_shape (q_join q) l
            end)
  end.

Definition query_name (q : query) : pystr :=
  match q_name q with Some n => n | None => s "unnamed" end.

Definition process_queries (page_content : pystr) (queries : list query)
    (content_type : option pystr) : list (pystr * query_result) :=
  let is_pdf := is_pdf_content page_content content_type in
  let has_html := existsb (fun q => type_is q "xpath" || type_is q "regex") queries in
  let html_tree := if negb is_pdf && has_html
                   then if soup_parse_ok page_content then html_parse page_content else None
                   else None in
  fold_left (fun acc q =>
               match pq_query page_content is_pdf html_tree q with
               | Some r => JobRunner.dict_set acc (query_name q) r
               | None => acc
               end) queries [].

(** [execute_query] of [src/backend/crawler.py]; [content] is
    [response.text], whose UTF-8 encoding is the same ASCII text. *)
Definition eq_results (content : pystr) (q : query) (selector : pystr) : step_result :=
  if type_is q "xpath" then
    match html_parse content with
    | Some tr => match xpath_eval tr selector with
                 | Some l => Results (map (fun v => PStr (py_str v)) l)
                 | None => Early QNone
                 end
    | None => Early QNone
    end
  else if type_is q "regex" then
    match findall selector content with
    | Some l => Results l
    | None => Early QNone
    end
  else if type_is q "jsonpath" then
    match json_loads content with
    | Some js => match jsonpath_find selector js with
                 | Some l => Results l
                 | None => Early QNone
                 end
    | None => Early QNone
    end
  else Early QNone.

Definition eq_shape (join_flag : bool) (l : list pyval) : query_result :=
  match join_flag, l with
  | true, _ :: _ => QStr (join (s "|") (map py_str l))
  | _, [] => QNone
  | _, [v] => QVal v
  | _, _ => QList l
  end.

Definition execute_query (content : pystr) (q : query) : query_result :=
  let selector := match truthy (q_selector q) with
                  | Some x => Some x
                  | None => q_query q
                  end in
  match truthy selector with
  | None => QNone
  | Some sel => match eq_results content q sel with
                | Early r => r
                | Results l => eq_shape (q_join q) l
                end
  end.

End Engine.

(** [re.findall(p, text)] for a pattern [p] without metacharacters: the
    non-overlapping occurrences of [p], left to right. *)
Fixpoint literal_findall_aux (fuel : nat) (p text : pystr) : list pyval :=
  match fuel with
  | O => []
  | S f =>
      match text with
      | [] => []
      | _ :: rest =>
          if startswith text p
          then PStr p :: literal_findall_aux f p (skipn (List.length p) text)
          else literal_findall_aux f p rest
      end
  end.

Definition literal_findall (p text : pystr) : option (list pyval) :=
  Some (literal_findall_aux (S (List.length text)) p text).

End Extraction.

(** ** Input validators ([src/backend/validators.py], [InputValidator]) *)
Module Validators.

Inductive validation_error :=
| ErrEmpty        (* "... must be a non-empty string" *)
| ErrLength       (* "... exceeds maximum length of ..." *)
| ErrSyntax       (* "Invalid regex pattern: ..." *)
| ErrNested       (* nested quantifiers detected *)
| ErrOverlap      (* alternation with overlapping patterns detected *)
| ErrQuantAlt     (* quantified group with quantified alternation detected *)
| ErrComplex      (* too many quantifiers *)
| ErrFunction (name : pystr)  (* "XPath function '...' is not allowed" *)
| ErrBrackets     (* unbalanced brackets *)
| ErrParens       (* unbalanced parentheses *)
| ErrDepth        (* excessive nesting depth *)
| ErrScheme       (* "URL scheme must be one of ..." *)
| ErrHost         (* "URL must have a valid hostname" *)
| ErrFormat       (* "Invalid URL format: ..." *)
| ErrLocalhost    (* "URLs targeting localhost are not allowed" *)
| ErrResolve      (* the hostname could not be resolved, or to no address *)
| ErrBlocked.     (* "URL resolves to a blocked IP address ..." *)

Inductive result (A : Type) := Ok (v : A) | Err (e : validation_error).
Arguments Ok {A} v.
Arguments Err {A} e.

Definition MAX_URL_LENGTH := 2048.
Definition MAX_XPATH_LENGTH := 1000.
Definition MAX_REGEX_PATTERN_LENGTH := 500.
Definition MAX_REGEX_QUANTIFIERS := 5.

Definition chr (n : nat) : ascii := ascii_of_nat n.
Definition is_char (c : ascii) (n : nat) : bool := code c =? n.

(** Characters: ( 40, ) 41, * 42, + 43, ? 63, [ 91, \ 92, ] 93, { 123,
    | 124, } 125, comma 44, - 45, _ 95. *)
Definition is_quant_star_plus (c : ascii) : bool := is_char c 42 || is_char c 43.

(** Splitting a string before the first character satisfying [p]:
    [(before, Some (c, after))], or [(x, None)] when there is none. *)
Fixpoint break_at (p : ascii -> bool) (x : pystr) : pystr * option (ascii * pystr) :=
  match x with
  | [] => ([], None)
  | c :: t => if p c then ([], Some (c, t))
              else let '(b, r) := break_at p t in (c :: b, r)
  end.

(** All suffixes of [x] that start with character [n]. *)
Fixpoint suffixes_at (n : nat) (x : pystr) : list pystr :=
  match x with
  | [] => []
  | c :: t => if is_char c n then x :: suffixes_at n t else suffixes_at n t
  end.

Definition last_char (x : pystr) : option ascii :=
  match rev x with [] => None | c :: _ => Some c end.

(** Check 1, [re.search(r'\([^)]*[*+]\)[*+]', p)]: since [[^)]] cannot
    cross a [)], a match starting at a [(] ends at the first [)] after it. *)
Definition nested_at (after_open : pystr) : bool :=
  match break_at (fun c => is_char c 41) after_open with
  | (seg, Some (_, c :: _)) =>
      match last_char seg with
      | Some d => is_quant_star_plus d && is_quant_star_plus c
      | None => false
      end
  | _ => false
  end.

Definition has_nested_quantifier (p : pystr) : bool :=
  existsb (fun t => nested_at (tl t)) (suffixes_at 40 p).

(** Check 3, [re.search(r'\([^)]*[*+][^)]*\|[^)]*\)[*+]', p)]: a [(], a
    [)]-free segment holding a [*] or [+] before a [|], then [)] and a
    [*] or [+]. *)
Fixpoint quant_before_bar (seg : pystr) : bool :=
  match seg with
  | [] => false
  | c :: t => (is_quant_star_plus c && mem (chr 124) t) || quant_before_bar t
  end.

Definition quant_alt_at (after_open : pystr) : bool :=
  match break_at (fun c => is_char c 41) after_open with
  | (seg, Some (_, c :: _)) => quant_before_bar seg && is_quant_star_plus c
  | _ => false
  end.

Definition has_quantified_alternation (p : pystr) : bool :=
  existsb (fun t => quant_alt_at (tl t)) (suffixes_at 40 p).

(** Check 2, [re.findall] of the group pattern [\( ( [^()]* \| [^()]* ) \)]
    (spaced out here): a [(] whose next
    parenthesis is a [)] and whose content holds a [|]; the group is the
    content. A match holds no [(], so every [(] starts its own attempt. *)
Definition alt_group_at (after_open : pystr) : option pystr :=
  match break_at (fun c => is_char c 40 || is_char c 41) after_open with
  | (seg, Some (c, _)) => if is_char c 41 && mem (chr 124) seg then Some seg else None
  | _ => None
  end.

Definition alternation_groups (p : pystr) : list pystr :=
  flat_map (fun t => match alt_group_at (tl t) with Some g => [g] | None => [] end)
    (suffixes_at 40 p).

(** [x.split(sep)] for a one-character separator. *)
Fixpoint split_on (sep : ascii) (x : pystr) : list pystr :=
  match x with
  | [] => [[]]
  | c :: t => if Ascii.eqb c sep then [] :: split_on sep t
              else match split_on sep t with
                   | [] => [[c]]
                   | w :: ws => (c :: w) :: ws
                   end
  end.

(** [re.sub(r'[*+?{}\[\]]', '', a).strip()] *)
Definition clean_alt (a : pystr) : pystr :=
  strip (filter (fun c => negb (existsb (is_char c) [42; 43; 63; 123; 125; 91; 93])) a).

Definition overlap (a b : pystr) : bool :=
  match a, b with
  | _ :: _, _ :: _ =>
      let ca := clean_alt a in let cb := clean_alt b in
      match ca, cb with
      | _ :: _, _ :: _ => startswith ca cb || startswith cb ca
      | _, _ => false
      end
  | _, _ => false
  end.

(** Some pair of alternatives at distinct indices overlaps ([overlap] is
    symmetric, so the pairs [i < j] cover the pairs [i <> j]). *)
Fixpoint any_overlap (alts : list pystr) : bool :=
  match alts with
  | [] => false
  | a :: rest => existsb (overlap a) rest || any_overlap rest
  end.

Definition has_overlapping_alternation (p : pystr) : bool :=
  existsb (fun g => any_overlap (split_on (chr 124) g)) (alternation_groups p).

(** Check 4, [len(re.findall(r'(?<!\\)[*+?]|\{[\d,]+\}', p))], scanning
    left to right with the previous character for the look-behind. *)
Definition is_digit_or_comma (c : ascii) : bool := isdigit c || is_char c 44.

Fixpoint brace_quant (x : pystr) (seen : bool) : option pystr :=
  match x with
  | [] => None
  | c :: t => if is_char c 125 then (if seen then Some t else None)
              else if is_digit_or_comma c then brace_quant t true else None
  end.

Fixpoint count_quantifiers (fuel : nat) (prev : option ascii) (x : pystr) : nat :=
  match fuel with
  | O => 0
  | S f =>
      match x with
      | [] => 0
      | c :: t =>
          let not_escaped := match prev with Some d => negb (is_char d 92) | None => true end in
          if (is_quant_star_plus c || is_char c 63) && not_escaped
          then S (count_quantifiers f (Some c) t)
          else if is_char c 123 then
            match brace_quant t false with
            | Some rest => S (count_quantifiers f (Some (chr 125)) rest)
            | None => count_quantifiers f (Some c) t
            end
          else count_quantifiers f (Some c) t
      end
  end.

Definition quantifier_count (p : pystr) : nat :=
  count_quantifiers (S (List.length p)) None p.

Section Regex.
(** [re.compile(pattern)] succeeds. *)
Variable re_compiles : pystr -> bool.

Definition validate_regex_pattern (pattern : pystr) : result pystr :=
  match pattern with
  | [] => Err ErrEmpty
  | _ =>
    let pattern := strip pattern in
    if MAX_REGEX_PATTERN_LENGTH <? List.length pattern then Err ErrLength
    else if negb (re_compiles pattern) then Err ErrSyntax
    else if has_nested_quantifier pattern then Err ErrNested
    else if has_overlapping_alternation pattern then Err ErrOverlap
    else if has_quantified_alternation pattern then Err ErrQuantAlt
    else if MAX_REGEX_QUANTIFIERS <? quantifier_count pattern then Err ErrComplex
    else Ok pattern
  end.

End Regex.

(** [\w] on ASCII: letters, digits and [_]; [[\w-]] adds [-]. *)
Definition is_word (c : ascii) : bool := isalpha c || isdigit c || is_char c 95.
Definition is_word_or_dash (c : ascii) : bool := is_word c || is_char c 45.

Fixpoint span (p : ascii -> bool) (x : pystr) : pystr * pystr :=
  match x with
  | [] => ([], [])
  | c :: t => if p c then let '(a, b) := span p t in (c :: a, b) else ([], x)
  end.

(** [re.findall] of [( \w [\w-]* ) \s* \(] (spaced out here) on the
    query: at a [\w] character, the
    maximal [[\w-]*] run, the maximal [\s*] run (the [str.isspace]
    characters, as [lstrip]), then [(]. Backtracking inside [[\w-]*] cannot
    help, since [\s] and [(] are not in [[\w-]]. On a match the scan
    resumes after the [(], otherwise at the next character. *)
Fixpoint function_calls (fuel : nat) (x : pystr) : list pystr :=
  match fuel with
  | O => []
  | S f =>
      match x with
      | [] => []
      | c :: t =>
          if is_word c then
            let '(run, r1) := span is_word_or_dash t in
            match lstrip r1 with
            | d :: r2 => if is_char d 40 then (c :: run) :: function_calls f r2
                         else function_calls f t
            | [] => function_calls f t
            end
          else function_calls f t
      end
  end.

Definition found_functions (x : pystr) : list pystr :=
  function_calls (S (List.length x)) x.

Definition ALLOWED_XPATH_FUNCTIONS : list pystr :=
  map s ["text"; "contains"; "starts-with"; "ends-with"; "normalize-space";
         "position"; "last"; "count"; "string-length";
         "concat"; "substring"; "substring-before"; "substring-after";
         "not"; "and"; "or"; "true"; "false";
         "string"; "number"; "boolean"; "translate"; "sum";
         "local-name"; "name"; "namespace-uri";
         "comment"; "processing-instruction"; "node"]%string.

(** The first found name not in the whitelist. *)
Definition first_disallowed (names : list pystr) : option pystr :=
  find (fun n => negb (str_in n ALLOWED_XPATH_FUNCTIONS)) names.

(** The nesting loop: depth goes up on [[] and [(], down on []] and [)]. *)
Fixpoint max_depth_from (cur mx : Z) (x : pystr) : Z :=
  match x with
  | [] => mx
  | c :: t =>
      if is_char c 91 || is_char c 40 then max_depth_from (cur + 1) (Z.max mx (cur + 1)) t
      else if is_char c 93 || is_char c 41 then max_depth_from (cur - 1) mx t
      else max_depth_from cur mx t
  end.

Definition max_depth (x : pystr) : Z := max_depth_from 0 0 x.

Definition validate_xpath_query (xpath : pystr) : result pystr :=
  match xpath with
  | [] => Err ErrEmpty
  | _ =>
    let xpath := strip xpath in
    if MAX_XPATH_LENGTH <? List.length xpath then Err ErrLength
    else match first_disallowed (found_functions xpath) with
    | Some n => Err (ErrFunction n)
    | None =>
      if negb (count (chr 91) xpath =? count (chr 93) xpath) then Err ErrBrackets
      else if negb (count (chr 40) xpath =? count (chr 41) xpath) then Err ErrParens
      else if (20 <? max_depth xpath)%Z then Err ErrDepth
      else Ok xpath
    end
  end.

End Validators.

(** ** [urllib.parse] (CPython 3.11/3.12: [urlsplit], [urlparse],
    [_splitparams], [_splitnetloc], [urlunsplit], [urlunparse] and the
    [hostname] property) *)
Module UrlParse.
Import Validators.

Definition is_c (n : nat) (c : ascii) : bool := code c =? n.

(** [_WHATWG_C0_CONTROL_OR_SPACE]: the characters [\x00] to [' ']. *)
Definition c0_or_space (c : ascii) : bool := code c <=? 32.

Fixpoint lstrip_c0 (x : pystr) : pystr :=
  match x with
  | [] => []
  | c :: t => if c0_or_space c then lstrip_c0 t else x
  end.

(** [_UNSAFE_URL_BYTES_TO_REMOVE]: tab, CR and LF are deleted. *)
Definition unsafe_byte (c : ascii) : bool := is_c 9 c || is_c 13 c || is_c 10 c.

Definition remove_unsafe (x : pystr) : pystr := filter (fun c => negb (unsafe_byte c)) x.

Definition scheme_char (c : ascii) : bool :=
  isalpha c || isdigit c || is_c 43 c || is_c 45 c || is_c 46 c.

(** [uses_params] and [uses_netloc], whose first entry is the empty scheme. *)
Definition uses_params : list pystr :=
  [] :: map s ["ftp"; "hdl"; "prospero"; "http"; "imap"; "https"; "shttp"; "rtsp";
         "rtspu"; "sip"; "sips"; "mms"; "sftp"; "tel"]%string.

Definition uses_netloc : list pystr :=
  [] :: map s ["ftp"; "http"; "gopher"; "nntp"; "telnet"; "imap"; "wais"; "file";
         "mms"; "https"; "shttp"; "snews"; "prospero"; "rtsp"; "rtspu"; "rsync";
         "svn"; "svn+ssh"; "sftp"; "nfs"; "git"; "git+ssh"; "ws"; "wss"]%string.

(** [url.find(':')] and the scheme test: [i > 0], [url[0]] an ASCII
    letter, every character of [url[:i]] in [scheme_chars]. *)
Definition split_scheme (url : pystr) : pystr * pystr :=
  match break_at (is_c 58) url with
  | (pre, Some (_, post)) =>
      match pre with
      | c :: _ => if isalpha c && forallb scheme_char pre then (lower pre, post) else ([], url)
      | [] => ([], url)
      end
  | (_, None) => ([], url)
  end.

(** [x.split(sep, 1)] when [sep in x], else [x] unchanged with [''] *)
Definition split_once (n : nat) (x : pystr) : pystr * pystr :=
  match break_at (is_c n) x with
  | (a, Some (_, b)) => (a, b)
  | (a, None) => (a, [])
  end.

Definition netloc_delim (c : ascii) : bool := is_c 47 c || is_c 63 c || is_c 35 c.

(** [_splitnetloc(url, 2)]: up to the first of [/], [?], [#]. *)
Definition splitnetloc (rest : pystr) : pystr * pystr :=
  match break_at netloc_delim rest with
  | (a, Some (c, b)) => (a, c :: b)
  | (a, None) => (a, [])
  end.

Record split_result := {
  sr_scheme : pystr; sr_netloc : pystr; sr_path : pystr;
  sr_query : pystr; sr_fragment : pystr }.

Record parse_result := {
  pr_scheme : pystr; pr_netloc : pystr; pr_path : pystr; pr_params : pystr;
  pr_query : pystr; pr_fragment : pystr }.

Section Parse.
(** [_check_bracketed_netloc] (an [ipaddress] test on the bracketed host)
    and the NFKC test of [_checknetloc] on a non-ASCII netloc: [true] when
    they do not raise [ValueError]. *)
Variable bracketed_netloc_ok : pystr -> bool.
Variable nfkc_netloc_ok : pystr -> bool.

Definition netloc_checks (netloc : pystr) : bool :=
  let op := mem (chr 91) netloc in
  let cl := mem (chr 93) netloc in
  if (op && negb cl) || (cl && negb op) then false
  else (if op && cl then bracketed_netloc_ok netloc else true)
       && (match netloc with
           | [] => true
           | _ => if forallb (fun c => code c <? 128) netloc then true
                  else nfkc_netloc_ok netloc
           end).

(** [urlsplit(url)] with [scheme=''] and [allow_fragments=True]; [None]
    is a [ValueError]. *)
Definition urlsplit (url0 : pystr) : option split_result :=
  let url1 := remove_unsafe (lstrip_c0 url0) in
  let '(scheme, url2) := split_scheme url1 in
  let '(netloc, url3) :=
    match url2 with
    | c1 :: c2 :: rest => if is_c 47 c1 && is_c 47 c2 then splitnetloc rest else ([], url2)
    | _ => ([], url2)
    end in
  let '(url4, fragment) := split_once 35 url3 in
  let '(url5, query) := split_once 63 url4 in
  if netloc_checks netloc then
    Some {| sr_scheme := scheme; sr_netloc := netloc; sr_path := url5;
            sr_query := query; sr_fragment := fragment |}
  else None.

(** [_splitparams(url)], called when [';' in url]. *)
Definition splitparams (url : pystr) : pystr * pystr :=
  if mem (chr 47) url then
    match break_at (is_c 47) (rev url) with
    | (rb, Some (_, ra)) =>
        (* [url = rev ra ++ '/' ++ rev rb]; the search starts at that [/] *)
        match break_at (is_c 59) (rev rb) with
        | (b1, Some (_, b2)) => (rev ra ++ chr 47 :: b1, b2)
        | (_, None) => (url, [])
        end
    | (_, None) => (url, [])
    end
  else split_once 59 url.

Definition urlparse (url : pystr) : option parse_result :=
  match urlsplit url with
  | None => None
  | Some r =>
      let '(path, params) :=
        if str_in (sr_scheme r) uses_params && mem (chr 59) (sr_path r)
        then splitparams (sr_path r) else (sr_path r, []) in
      Some {| pr_scheme := sr_scheme r; pr_netloc := sr_netloc r; pr_path := path;
              pr_params := params; pr_query := sr_query r; pr_fragment := sr_fragment r |}
  end.

End Parse.

Definition nonempty (x : pystr) : bool := match x with [] => false | _ => true end.

(** [urlunsplit((scheme, netloc, url, query, fragment))] *)
Definition urlunsplit (scheme netloc url query fragment : pystr) : pystr :=
  let url :=
    if nonempty netloc
       || (nonempty scheme && str_in scheme uses_netloc && negb (startswith url (s "//")))
    then s "//" ++ netloc ++
         (match url with
          | c :: _ => if is_c 47 c then url else chr 47 :: url
          | [] => url
          end)
    else url in
  let url := if nonempty scheme then scheme ++ chr 58 :: url else url in
  let url := if nonempty query then url ++ chr 63 :: query else url in
  if nonempty fragment then url ++ chr 35 :: fragment else url.

Definition urlunparse (scheme netloc url params query fragment : pystr) : pystr :=
  let url := if nonempty params then url ++ chr 59 :: params else url in
  urlunsplit scheme netloc url query fragment.

(** [x.rpartition(sep)[2]]: what follows the last [sep], or all of [x]. *)
Definition after_last (n : nat) (x : pystr) : pystr :=
  match break_at (is_c n) (rev x) with
  | (rb, Some _) => rev rb
  | (_, None) => x
  end.

(** The [hostname] property: [_hostinfo()[0]], [None] when empty, then
    lower-cased up to a [%] zone separator. *)
Definition hostname (netloc : pystr) : option pystr :=
  let hostinfo := after_last 64 netloc in
  let host :=
    match break_at (is_c 91) hostinfo with
    | (_, Some (_, bracketed)) => fst (split_once 93 bracketed)
    | (_, None) => fst (split_once 58 hostinfo)
    end in
  match host with
  | [] => None
  | _ => let '(h, zone) := break_at (is_c 37) host in
         Some (lower h ++ match zone with Some (p, z) => p :: z | None => [] end)
  end.

(** The characters each component of a [urlsplit] result can hold. *)
Definition netloc_char_ok (c : ascii) : bool :=
  negb (is_c 47 c || is_c 63 c || is_c 35 c || unsafe_byte c).
Definition path_char_ok (c : ascii) : bool := negb (is_c 63 c || is_c 35 c || unsafe_byte c).
Definition query_char_ok (c : ascii) : bool := negb (is_c 35 c || unsafe_byte c).

(** The path and params after [_splitparams] put back together. *)
Definition rebuild (path params : pystr) : pystr :=
  path ++ (if nonempty params then chr 59 :: params else []).

(** The schemes [validate_url] can let through, and those it allows. *)
Definition normal_schemes : list pystr := [s "http"; s "https"; s "sftp"].

Definition allowed_schemes (allow_sftp : bool) : list pystr :=
  [s "http"; s "https"] ++ (if allow_sftp then [s "sftp"] else []).

End UrlParse.

(** ** URL validation: [InputValidator.validate_url] and the SSRF guard
    [validate_scrape_url] with [_is_ip_blocked] *)
Module UrlValidators.
Import Validators UrlParse.
Local Open Scope Z_scope.

(** An [ipaddress] address: its version and integer value. *)
Inductive ip_addr := IPv4 (v : Z) | IPv6 (v : Z).

(** [addr in network] for a network [(base, prefix)] of a [bits]-bit family. *)
Definition in_network (bits : Z) (v : Z) (net : Z * Z) : bool :=
  let '(base, prefix) := net in
  Z.shiftr v (bits - prefix) =? Z.shiftr base (bits - prefix).

Definition ipv4 (a b c d : Z) : Z := a * 2^24 + b * 2^16 + c * 2^8 + d.

Definition BLOCKED_IPV4_NETWORKS : list (Z * Z) :=
  [(ipv4 127 0 0 0, 8); (ipv4 10 0 0 0, 8); (ipv4 172 16 0 0, 12);
   (ipv4 192 168 0 0, 16); (ipv4 169 254 0 0, 16); (ipv4 0 0 0 0, 8)].

Definition BLOCKED_IPV6_NETWORKS : list (Z * Z) :=
  [(1, 128); (Z.shiftl 0xfc00 112, 7); (Z.shiftl 0xfe80 112, 10)].

(** [IPv6Address.ipv4_mapped] *)
Definition ipv4_mapped (v : Z) : option Z :=
  if Z.shiftr v 32 =? 0xFFFF then Some (Z.land v 0xFFFFFFFF) else None.

Definition blocked_v4 (v : Z) : bool := existsb (in_network 32 v) BLOCKED_IPV4_NETWORKS.
Definition blocked_v6 (v : Z) : bool := existsb (in_network 128 v) BLOCKED_IPV6_NETWORKS.

(** What [socket.getaddrinfo(host, None, AF_UNSPEC, SOCK_STREAM)] does:
    return entries (given by the IP strings of their [sockaddr]), raise
    [socket.gaierror], or raise an exception that is not a
    [socket.gaierror], such as the [UnicodeError] of the IDNA codec for a
    hostname with an empty label ([a..com]). *)
Inductive gai_result :=
| GaiOk (ips : list pystr)
| GaiError
| GaiRaise.

Section Net.
(** [ipaddress.ip_address(s)] ([None]: [ValueError]) and
    [socket.getaddrinfo]. *)
Variable ip_address : pystr -> option ip_addr.
Variable getaddrinfo : pystr -> gai_result.
Variable bracketed_netloc_ok nfkc_netloc_ok : pystr -> bool.

Definition _is_ip_blocked (ip_str : pystr) : bool :=
  match ip_address ip_str with
  | None => true
  | Some (IPv4 v) => blocked_v4 v
  | Some (IPv6 v) =>
      match ipv4_mapped v with
      | Some v4 => blocked_v4 v4
      | None => blocked_v6 v
      end
  end.

(** [validate_scrape_url(url)]: [None] when an exception other than
    [ValidationError] escapes it (the one of [getaddrinfo] that
    [except socket.gaierror] does not catch). *)
Definition validate_scrape_url (url : pystr) : option (result pystr) :=
  match url with
  | [] => Some (Err ErrEmpty)
  | _ =>
    let url := strip url in
    match urlparse bracketed_netloc_ok nfkc_netloc_ok url with
    | None => Some (Err ErrFormat)
    | Some parsed =>
      if negb (str_in (pr_scheme parsed) [s "http"; s "https"]) then Some (Err ErrScheme)
      else match hostname (pr_netloc parsed) with
      | None => Some (Err ErrHost)
      | Some host =>
        let hostname_lower := lower host in
        if str_eqb hostname_lower (s "localhost")
           || endswith hostname_lower (s ".localhost") then Some (Err ErrLocalhost)
        else match getaddrinfo host with
        | GaiRaise => None
        | GaiError => Some (Err ErrResolve)
        | GaiOk [] => Some (Err ErrResolve)
        | GaiOk addr_infos =>
            Some (if existsb _is_ip_blocked addr_infos then Err ErrBlocked else Ok url)
        end
      end
    end
  end.

Definition validate_url (allow_sftp : bool) (url : pystr) : result pystr :=
  match url with
  | [] => Err ErrEmpty
  | _ =>
    let url := strip url in
    if (MAX_URL_LENGTH <? List.length url)%nat then Err ErrLength
    else match urlparse bracketed_netloc_ok nfkc_netloc_ok url with
    | None => Err ErrFormat
    | Some parsed =>
      let allowed_schemes := [s "http"; s "https"] ++ (if allow_sftp then [s "sftp"] else []) in
      if negb (str_in (pr_scheme parsed) allowed_schemes) then Err ErrScheme
      else if negb (nonempty (pr_netloc parsed)) then Err ErrHost
      else Ok (urlunparse (pr_scheme parsed) (pr_netloc parsed)
                 (if nonempty (pr_path parsed) then pr_path parsed else s "/")
                 (pr_params parsed) (pr_query parsed) [])
    end
  end.

End Net.
End UrlValidators.

(** ** The other checks of [InputValidator] ([src/backend/validators.py]):
    URL lists, JSONPath expressions, queries, rate limits, job names and
    free strings *)
Module InputChecks.
Import Validators UrlParse UrlValidators.

(** A JSON-like Python value as the validators receive it.  [ABool] is
    kept apart from [AInt] although [bool] is a subclass of [int];
    [AOther b] is a value of any other type (a float, say) whose truth
    value is [b]. *)
#[warnings="-register-all"]
Inductive pyany :=
| AStr (x : pystr)
| AInt (n : Z)
| ABool (b : bool)
| ANone
| AList (l : list pyany)
| ADict (d : list (pystr * pyany))
| AOther (truth : bool).

(** [bool(v)] *)
Definition py_bool (v : pyany) : bool :=
  match v with
  | AStr x => nonempty x
  | AInt n => negb (n =? 0)%Z
  | ABool b => b
  | ANone => false
  | AList l => match l with [] => false | _ => true end
  | ADict d => match d with [] => false | _ => true end
  | AOther b => b
  end.

(** [a or b] *)
Definition py_or (a b : pyany) : pyany := if py_bool a then a else b.

Fixpoint dict_lookup (d : list (pystr * pyany)) (k : pystr) : option pyany :=
  match d with
  | [] => None
  | (k', v) :: d' => if str_eqb k k' then Some v else dict_lookup d' k
  end.

(** [k in d] *)
Definition dict_in (k : pystr) (d : list (pystr * pyany)) : bool :=
  match dict_lookup d k with Some _ => true | None => false end.

(** [d.get(k, default)]; [d[k]] after a [k in d] test. *)
Definition dict_get (d : list (pystr * pyany)) (k : pystr) (default : pyany) : pyany :=
  match dict_lookup d k with Some v => v | None => default end.

(** [v in l] for a list of strings: only a [str] compares equal to one. *)
Definition any_in_strs (v : pyany) (l : list pystr) : bool :=
  match v with AStr x => str_in x l | _ => false end.

(** What a check raises: a [ValidationError] with the constant part of its
    message, the error of an inner validator re-raised as
    ["Invalid <what> at index <i>: <e>"], a [ValidationError] raised by
    [validate_url], [validate_xpath_query] or [validate_regex_pattern], or
    another exception (an [AttributeError]). *)
Inductive check_error :=
| Invalid (msg : string)
| AtIndex (what : string) (i : nat) (e : check_error)
| From (e : validation_error)
| Other (exc : string).

Inductive outcome (A : Type) := Valid (v : A) | Raise (e : check_error).
Arguments Valid {A} v.
Arguments Raise {A} e.

Definition lift {A : Type} (r : result A) : outcome A :=
  match r with Ok v => Valid v | Err e => Raise (From e) end.

Definition MAX_JOB_NAME_LENGTH := 200.
Definition MAX_QUERY_NAME_LENGTH := 100.
Definition MAX_QUERY_SELECTOR_LENGTH := 1000.
Definition MAX_QUERIES_PER_JOB := 50.
Definition MAX_URLS_PER_JOB := 10000%Z.

(** [len(set(l))] *)
Definition set_len (l : list pystr) : nat :=
  List.length (nodup (list_eq_dec ascii_dec) l).

(** [[a-zA-Z0-9_-]] *)
Definition name_char (c : ascii) : bool :=
  isalpha c || isdigit c || is_char c 95 || is_char c 45.

(** [re.match(r'^[a-zA-Z0-9_-]+$', x)]: without [re.MULTILINE], [$] also
    matches before a newline that ends the string. *)
Definition name_pattern (x : pystr) : bool :=
  match x with
  | [] => false
  | _ => forallb name_char x
         || match rev x with
            | nl :: ((_ :: _) as r) => is_char nl 10 && forallb name_char r
            | _ => false
            end
  end.

(** [str.split()] with no argument: the maximal runs of non-whitespace
    characters; [cur] is the current run, reversed. *)
Fixpoint split_ws_acc (x : pystr) (cur : pystr) : list pystr :=
  match x with
  | [] => if nonempty cur then [rev cur] else []
  | c :: t =>
      if isspace c
      then (if nonempty cur then rev cur :: split_ws_acc t [] else split_ws_acc t [])
      else split_ws_acc t (c :: cur)
  end.

Definition split_ws (x : pystr) : list pystr := split_ws_acc x [].

Definition valid_types : list pystr :=
  map s ["xpath"; "regex"; "jsonpath"; "pdf_text"; "pdf_table"; "pdf_metadata"]%string.

Definition pdf_types : list pystr := map s ["pdf_text"; "pdf_table"; "pdf_metadata"]%string.

(** The dict built by [validate_query]. *)
Record validated_query := {
  vq_name : pystr;
  vq_type : pystr;
  vq_selector : pystr;
  vq_join : bool;
  vq_pdf_config : option (list (pystr * pyany)) }.

(** [validate_jsonpath_query(jsonpath)] *)
Definition validate_jsonpath_query (jsonpath : pyany) : outcome pystr :=
  match jsonpath with
  | AStr ((_ :: _) as x) =>
      let x := strip x in
      if (MAX_QUERY_SELECTOR_LENGTH <? List.length x)%nat
      then Raise (Invalid "JSONPath query exceeds maximum length")
      else if negb (startswith x (s "$") || startswith x (s "@"))
      then Raise (Invalid "JSONPath query must start with '$' or '@'")
      else if negb (count (chr 91) x =? count (chr 93) x)%nat
      then Raise (Invalid "JSONPath query has unbalanced brackets")
      else Valid x
  | _ => Raise (Invalid "JSONPath query must be a non-empty string")
  end.

(** [validate_rate_limit(rate_limit)]: [isinstance(True, int)] holds and
    [True] compares as [1]. *)
Definition validate_rate_limit (rate_limit : pyany) : outcome pyany :=
  let in_range (n : Z) :=
    if ((n <? 1) || (8 <? n))%Z then Raise (Invalid "Rate limit must be between 1 and 8")
    else Valid rate_limit in
  match rate_limit with
  | AInt n => in_range n
  | ABool b => in_range (if b then 1 else 0)%Z
  | _ => Raise (Invalid "Rate limit must be an integer")
  end.

(** [validate_job_name(name)] *)
Definition validate_job_name (name : pyany) : outcome pystr :=
  match name with
  | AStr ((_ :: _) as x) =>
      let x := strip x in
      match x with
      | [] => Raise (Invalid "Job name cannot be empty or whitespace only")
      | _ =>
        if (MAX_JOB_NAME_LENGTH <? List.length x)%nat
        then Raise (Invalid "Job name exceeds maximum length")
        else
          let x := join (s " ") (split_ws x) in
          let x := filter (fun c => 32 <=? code c) x in
          Valid x
      end
  | _ => Raise (Invalid "Job name must be a non-empty string")
  end.

(** [sanitize_string(value, max_length)] *)
Definition sanitize_string (value : pyany) (max_length : option Z) : outcome pystr :=
  match value with
  | AStr x =>
      let x := filter (fun c => (32 <=? code c) || is_char c 10 || is_char c 9) x in
      let x := strip x in
      match max_length with
      | Some m =>
          if negb (m =? 0)%Z && (m <? Z.of_nat (List.length x))%Z
          then Raise (Invalid "String exceeds maximum length") else Valid x
      | None => Valid x
      end
  | _ => Raise (Invalid "Value must be a string")
  end.

Section Checks.
Variable bracketed_netloc_ok nfkc_netloc_ok : pystr -> bool.
(** [re.compile] succeeds, for [validate_regex_pattern]. *)
Variable re_compiles : pystr -> bool.

(** [validate_url(url, allow_sftp)] on any value: anything but a non-empty
    [str] fails its first test. *)
Definition validate_url_any (allow_sftp : bool) (url : pyany) : outcome pystr :=
  match url with
  | AStr x => lift (validate_url bracketed_netloc_ok nfkc_netloc_ok allow_sftp x)
  | _ => Raise (From ErrEmpty)
  end.

(** The loop of [validate_url_list]: [except ValidationError] re-raises
    with the index. *)
Fixpoint validate_urls_from (i : nat) (urls : list pyany) : outcome (list pystr) :=
  match urls with
  | [] => Valid []
  | url :: rest =>
      match validate_url_any false url with
      | Raise (Other m) => Raise (Other m)
      | Raise e => Raise (AtIndex "URL" i e)
      | Valid v =>
          match validate_urls_from (S i) rest with
          | Valid l => Valid (v :: l)
          | Raise e => Raise e
          end
      end
  end.

(** [validate_url_list(urls, max_count)]; [max_count or MAX_URLS_PER_JOB]
    replaces [None] and [0]. *)
Definition validate_url_list (urls : pyany) (max_count : option Z) : outcome (list pystr) :=
  match urls with
  | AList l =>
      match l with
      | [] => Raise (Invalid "URL list cannot be empty")
      | _ =>
        let max_count :=
          match max_count with
          | Some m => if (m =? 0)%Z then MAX_URLS_PER_JOB else m
          | None => MAX_URLS_PER_JOB
          end in
        if (max_count <? Z.of_nat (List.length l))%Z
        then Raise (Invalid "URL list exceeds maximum")
        else match validate_urls_from 0 l with
             | Raise e => Raise e
             | Valid validated_urls =>
                 if negb (set_len validated_urls =? List.length validated_urls)%nat
                 then Raise (Invalid "Duplicate URLs detected in list")
                 else Valid validated_urls
             end
      end
  | _ => Raise (Invalid "URLs must be provided as a list")
  end.

Definition validate_xpath_any (selector : pyany) : outcome pystr :=
  match selector with
  | AStr x => lift (validate_xpath_query x)
  | _ => Raise (From ErrEmpty)
  end.

Definition validate_regex_any (selector : pyany) : outcome pystr :=
  match selector with
  | AStr x => lift (validate_regex_pattern re_compiles x)
  | _ => Raise (From ErrEmpty)
  end.

(** The selector check of [validate_query] for a type [qt] among the six
    valid ones (so the last branch is the PDF one): [selector.strip()]
    raises [AttributeError] on a truthy non-string. *)
Definition validate_selector (qt : pystr) (selector : pyany) : outcome pystr :=
  if str_eqb qt (s "xpath") then validate_xpath_any selector
  else if str_eqb qt (s "regex") then validate_regex_any selector
  else if str_eqb qt (s "jsonpath") then validate_jsonpath_query selector
  else if py_bool selector
       then match selector with
            | AStr x => Valid (strip x)
            | _ => Raise (Other "AttributeError")
            end
       else Valid [].

(** [validate_query(query)] *)
Definition validate_query (query : pyany) : outcome validated_query :=
  match query with
  | ADict d =>
    if negb (dict_in (s "name") d) then Raise (Invalid "Query must have a 'name' field")
    else if negb (dict_in (s "type") d) then Raise (Invalid "Query must have a 'type' field")
    else
    match dict_get d (s "name") ANone with
    | AStr name =>
      if negb (nonempty (strip name)) then Raise (Invalid "Query name must be a non-empty string")
      else if (MAX_QUERY_NAME_LENGTH <? List.length name)%nat
      then Raise (Invalid "Query name exceeds maximum length")
      else if negb (name_pattern name)
      then Raise (Invalid "Query name can only contain letters, numbers, underscores, and hyphens")
      else
      let query_type := dict_get d (s "type") ANone in
      if negb (any_in_strs query_type valid_types) then Raise (Invalid "Query type must be one of")
      else match query_type with
      | AStr qt =>
        let selector := py_or (py_or (dict_get d (s "selector") ANone)
                                     (dict_get d (s "query") ANone)) (AStr []) in
        if negb (str_in qt pdf_types) && negb (py_bool selector)
        then Raise (Invalid "Query must have a 'selector' or 'query' field")
        else match validate_selector qt selector with
        | Raise e => Raise e
        | Valid validated_selector =>
          match dict_get d (s "join") (ABool false) with
          | ABool join =>
              Valid {| vq_name := strip name; vq_type := qt;
                       vq_selector := validated_selector; vq_join := join;
                       vq_pdf_config :=
                         if str_in qt pdf_types && dict_in (s "pdf_config") d
                         then match dict_get d (s "pdf_config") ANone with
                              | ADict c => Some c
                              | _ => None
                              end
                         else None |}
          | _ => Raise (Invalid "Query 'join' flag must be a boolean")
          end
        end
      | _ => Raise (Invalid "Query type must be one of")
      end
    | _ => Raise (Invalid "Query name must be a non-empty string")
    end
  | _ => Raise (Invalid "Query must be a dictionary")
  end.

(** The loop of [validate_queries], with the set [query_names] of the
    names seen so far. *)
Fixpoint validate_queries_from (i : nat) (queries : list pyany) (query_names : list pystr)
  : outcome (list validated_query) :=
  match queries with
  | [] => Valid []
  | query :: rest =>
      match validate_query query with
      | Raise (Other m) => Raise (Other m)
      | Raise e => Raise (AtIndex "query" i e)
      | Valid vq =>
          if str_in (vq_name vq) query_names
          then Raise (AtIndex "query" i (Invalid "Duplicate query name"))
          else match validate_queries_from (S i) rest (vq_name vq :: query_names) with
               | Valid l => Valid (vq :: l)
               | Raise e => Raise e
               end
      end
  end.

(** [validate_queries(queries)] *)
Definition validate_queries (queries : pyany) : outcome (list validated_query) :=
  match queries with
  | AList l =>
      match l with
      | [] => Raise (Invalid "At least one query is required")
      | _ =>
        if (MAX_QUERIES_PER_JOB <? List.length l)%nat
        then Raise (Invalid "Maximum of queries allowed per job exceeded")
        else validate_queries_from 0 l []
      end
  | _ => Raise (Invalid "Queries must be provided as a list")
  end.

End Checks.

(** [validate_file_mapping(file_mapping)]: returns its argument. *)
Definition valid_delimiters : list pystr := [s ","; s ";"; s "|"; [chr 9]; [chr 92; chr 116]].
Definition valid_enclosures : list pystr := [[chr 34]; s "'"; s "none"].
Definition valid_escapes : list pystr := [[chr 92]; s "/"; [chr 34]; s "'"; s "none"].

Definition validate_file_mapping (file_mapping : pyany) : outcome pyany :=
  let url_column_range (n : Z) :=
    if ((n <? 0) || (100 <? n))%Z
    then Raise (Invalid "URL column index must be between 0 and 100")
    else Valid file_mapping in
  match file_mapping with
  | ADict d =>
    if negb (dict_in (s "delimiter") d) then Raise (Invalid "File mapping must contain 'delimiter'")
    else if negb (dict_in (s "enclosure") d) then Raise (Invalid "File mapping must contain 'enclosure'")
    else if negb (dict_in (s "escape") d) then Raise (Invalid "File mapping must contain 'escape'")
    else if negb (dict_in (s "url_column") d) then Raise (Invalid "File mapping must contain 'url_column'")
    else if negb (any_in_strs (dict_get d (s "delimiter") ANone) valid_delimiters)
    then Raise (Invalid "Invalid delimiter")
    else if negb (any_in_strs (dict_get d (s "enclosure") ANone) valid_enclosures)
    then Raise (Invalid "Invalid enclosure")
    else if negb (any_in_strs (dict_get d (s "escape") ANone) valid_escapes)
    then Raise (Invalid "Invalid escape")
    else match dict_get d (s "url_column") ANone with
         | AInt n => url_column_range n
         | ABool b => url_column_range (if b then 1 else 0)%Z
         | AStr x =>
             if negb (str_eqb x (s "default")) && negb (name_pattern x)
             then Raise (Invalid "URL column name can only contain letters, numbers, underscores, and hyphens")
             else Valid file_mapping
         | _ => Raise (Invalid "URL column must be an integer index or string name")
         end
  | _ => Raise (Invalid "File mapping must be a dictionary")
  end.

(** [validate_source_type(source_type)] *)
Definition validate_source_type (source_type : pyany) : outcome pyany :=
  if any_in_strs source_type [s "csv"; s "direct_url"] then Valid source_type
  else Raise (Invalid "Source type must be one of: csv, direct_url").

(** The dict built by [validate_job_data_strict]; a [None] is a key it
    does not set. *)
Record validated_job := {
  vj_name : pystr;
  vj_source_type : pyany;
  vj_url_template : option pystr;
  vj_timezone : option pyany;
  vj_source : option pystr;
  vj_file_mapping : option pyany;
  vj_queries : list validated_query;
  vj_rate_limit : pyany;
  vj_scheduling : option pyany;
  vj_proxy_config : option pyany;
  vj_render_config : option pyany;
  vj_user_id : option pyany;
  vj_job_id : option pyany }.

Section JobData.
Variable bracketed_netloc_ok nfkc_netloc_ok : pystr -> bool.
Variable re_compiles : pystr -> bool.
(** [URLVariableResolver.validate_template(t)[0]], [URLVariableResolver.resolve(t)]
    ([None] when it raises) and [URLVariableResolver.validate_timezone(tz)[0]]. *)
Variable template_ok : pystr -> bool.
Variable resolve : pystr -> option pystr.
Variable timezone_ok : pyany -> bool.

(** [validate_url_template(url_template)]: the stripped template, once the
    URL it resolves to has an http(s) scheme and a netloc. *)
Definition validate_url_template (url_template : pyany) : outcome pystr :=
  match url_template with
  | AStr ((_ :: _) as x) =>
      let x := strip x in
      if (MAX_URL_LENGTH <? List.length x)%nat
      then Raise (Invalid "URL template exceeds maximum length")
      else if negb (template_ok x) then Raise (Invalid "Invalid URL template")
      else match resolve x with
      | None => Raise (Other "URLVariableResolver.resolve")
      | Some resolved_url =>
          match urlparse bracketed_netloc_ok nfkc_netloc_ok resolved_url with
          | None => Raise (Invalid "Invalid resolved URL format")
          | Some parsed =>
              if negb (str_in (pr_scheme parsed) [s "http"; s "https"])
              then Raise (Invalid "URL scheme must be one of: http, https")
              else if negb (nonempty (pr_netloc parsed))
              then Raise (Invalid "URL must have a valid hostname")
              else Valid x
          end
      end
  | _ => Raise (Invalid "URL template must be a non-empty string")
  end.

(** [validate_timezone(tz)] *)
Definition validate_timezone (tz : pyany) : outcome pyany :=
  if negb (py_bool tz) then Valid (AStr (s "UTC"))
  else if timezone_ok tz then Valid tz else Raise (Invalid "Invalid timezone").

(** [job_data[k]] if [k in job_data], else [None]. *)
Definition copy_if_present (jd : list (pystr * pyany)) (k : pystr) : option pyany :=
  dict_lookup jd k.

(** [validate_job_data_strict(job_data)] *)
Definition validate_job_data_strict (job_data : list (pystr * pyany)) : outcome validated_job :=
  if negb (dict_in (s "name") job_data) then Raise (Invalid "Job must have a 'name' field")
  else match validate_job_name (dict_get job_data (s "name") ANone) with
  | Raise e => Raise e
  | Valid name =>
  let source_type := dict_get job_data (s "source_type") (AStr (s "csv")) in
  match validate_source_type source_type with
  | Raise e => Raise e
  | Valid vsource_type =>
  let direct := match source_type with AStr x => str_eqb x (s "direct_url") | _ => false end in
  let branch : outcome (option pystr * option pyany * option pystr * option pyany) :=
    if direct then
      if negb (dict_in (s "url_template") job_data)
      then Raise (Invalid "Job with source_type 'direct_url' must have a 'url_template' field")
      else match validate_url_template (dict_get job_data (s "url_template") ANone) with
      | Raise e => Raise e
      | Valid t =>
          match validate_timezone (dict_get job_data (s "timezone") (AStr (s "UTC"))) with
          | Raise e => Raise e
          | Valid tz => Valid (Some t, Some tz, None, None)
          end
      end
    else
      if negb (dict_in (s "source") job_data)
      then Raise (Invalid "Job with source_type 'csv' must have a 'source' field")
      else match validate_url_any bracketed_netloc_ok nfkc_netloc_ok true
                   (dict_get job_data (s "source") ANone) with
      | Raise e => Raise e
      | Valid src =>
          if negb (dict_in (s "file_mapping") job_data)
          then Raise (Invalid "Job with source_type 'csv' must have a 'file_mapping' field")
          else match validate_file_mapping (dict_get job_data (s "file_mapping") ANone) with
          | Raise e => Raise e
          | Valid fm => Valid (None, None, Some src, Some fm)
          end
      end in
  match branch with
  | Raise e => Raise e
  | Valid (template, tz, src, fm) =>
  if negb (dict_in (s "queries") job_data) then Raise (Invalid "Job must have a 'queries' field")
  else match validate_queries re_compiles (dict_get job_data (s "queries") ANone) with
  | Raise e => Raise e
  | Valid qs =>
  if negb (dict_in (s "rate_limit") job_data) then Raise (Invalid "Job must have a 'rate_limit' field")
  else match validate_rate_limit (dict_get job_data (s "rate_limit") ANone) with
  | Raise e => Raise e
  | Valid rate =>
  Valid {| vj_name := name; vj_source_type := vsource_type; vj_url_template := template;
           vj_timezone := tz; vj_source := src; vj_file_mapping := fm;
           vj_queries := qs; vj_rate_limit := rate;
           vj_scheduling := match dict_lookup job_data (s "scheduling") with
                            | Some ANone | None => None
                            | Some v => Some v
                            end;
           vj_proxy_config := copy_if_present job_data (s "proxy_config");
           vj_render_config := copy_if_present job_data (s "render_config");
           vj_user_id := copy_if_present job_data (s "user_id");
           vj_job_id := copy_if_present job_data (s "job_id") |}
  end end end end end.

End JobData.
End InputChecks.

(** ** [DomainRateLimiter] ([src/rate_limiter.py]).  Times are integers (a
    clock in fixed units); the float rounding of [min_delay - elapsed] is
    not modelled. *)
Module RateLimiter.
Import UrlParse.
Local Open Scope Z_scope.

Record limiter := {
  min_delay : Z;
  (** [_last_request_time], a [defaultdict(float)] keyed by domain *)
  _last_request_time : list (pystr * Z) }.

Fixpoint dict_get (d : list (pystr * Z)) (k : pystr) : option Z :=
  match d with
  | [] => None
  | (k', v) :: d' => if str_eqb k k' then Some v else dict_get d' k
  end.

(** [d[k]] on a [defaultdict(float)]: a missing key reads as [0.0]. *)
Definition default_get (d : list (pystr * Z)) (k : pystr) : Z :=
  match dict_get d k with Some v => v | None => 0 end.

Section Limiter.
Variable bracketed_netloc_ok nfkc_netloc_ok : pystr -> bool.
(** [time.sleep(w)] from clock value [c]: the clock value once it returns. *)
Variable sleep : Z -> Z -> Z.

(** [get_domain(url)]: [urlparse(url).netloc]; [None] when [urlparse]
    raises [ValueError]. *)
Definition get_domain (url : pystr) : option pystr :=
  match urlparse bracketed_netloc_ok nfkc_netloc_ok url with
  | Some r => Some (pr_netloc r)
  | None => None
  end.

(** [wait_if_needed(url)] started at clock value [clk]: the limiter after
    the call, the returned [wait_time] and the clock when it returns.  Both
    [time.time()] calls read the clock; [None] is an exception.  The read
    [self._last_request_time[domain]] also inserts [0.0] for a missing key,
    a value the final assignment overwrites. *)
Definition wait_if_needed (self : limiter) (url : pystr) (clk : Z)
  : option (limiter * Z * Z) :=
  if min_delay self <=? 0 then Some (self, 0, clk)
  else match get_domain url with
  | None => None
  | Some domain =>
      let now := clk in
      let elapsed := now - default_get (_last_request_time self) domain in
      let '(wait_time, clk) :=
        if elapsed <? min_delay self
        then (min_delay self - elapsed, sleep clk (min_delay self - elapsed))
        else (0, clk) in
      Some ({| min_delay := min_delay self;
               _last_request_time := JobRunner.dict_set (_last_request_time self) domain clk |},
            wait_time, clk)
  end.

End Limiter.
End RateLimiter.

(** ** The rest of [DomainRateLimiter] ([src/rate_limiter.py]):
    construction and [reset]. *)
Module RateLimiterOps.
Import UrlParse RateLimiter.
Local Open Scope Z_scope.

(** [DEFAULT_MIN_DELAY = 1.0], with the clock in milliseconds. *)
Definition DEFAULT_MIN_DELAY : Z := 1000.

(** [DomainRateLimiter(min_delay)]; [None] is the [ValueError]. *)
Definition init (min_delay : Z) : option limiter :=
  if min_delay <? 0 then None
  else Some {| min_delay := min_delay; _last_request_time := [] |}.

(** [d.pop(k, None)]: removes the entry of [k], if any. *)
Fixpoint dict_pop (d : list (pystr * Z)) (k : pystr) : list (pystr * Z) :=
  match d with
  | [] => []
  | (k', v) :: d' => if str_eqb k k' then d' else (k', v) :: dict_pop d' k
  end.

(** [reset(domain)]: [if domain:] is false for [None] and for [''], which
    clear the whole table. *)
Definition reset (self : limiter) (domain : option pystr) : limiter :=
  match domain with
  | Some ((_ :: _) as d) =>
      {| min_delay := min_delay self; _last_request_time := dict_pop (_last_request_time self) d |}
  | _ => {| min_delay := min_delay self; _last_request_time := [] |}
  end.

End RateLimiterOps.

(** ** The crawl loop of [src/backend/crawler.py]: [process_job] and
    [crawl_url] ([execute_query] is [Extraction.execute_query]). *)
Module Crawler.
Import Extraction Validators UrlParse UrlValidators RateLimiter RateLimiterOps.
Local Open Scope Z_scope.

(** [result["error_info"]]: the SSRF message built around the
    [ValidationError] of [validate_scrape_url], or [str(e)] of another
    exception ([KeyError('name')] for a query without a name, an exception
    of [requests.get], or one of [getaddrinfo] that [validate_scrape_url]
    lets through). *)
Inductive error_info :=
| SsrfRejected (e : validation_error)
| ExceptionText (what : string).

(** The result dict of [crawl_url]. *)
Record crawl_result := {
  cr_url : pystr;
  cr_http_code : option Z;
  cr_error_info : option error_info;
  cr_query_results : list (pystr * query_result);
  cr_removed : bool;
  cr_ran : bool }.

(** The keys of [job_data] that [process_job] reads; a [None] is a missing
    key.  [crawl_delay] is in the clock unit; [test] is the truth value of
    [job_data.get("test")]. *)
Record job := {
  crawl_delay : option Z;
  urls : option (list pystr);
  test : bool;
  queries : option (list query) }.

(** [job_data.get("crawl_delay", DEFAULT_MIN_DELAY)] *)
Definition job_min_delay (j : job) : Z :=
  match crawl_delay j with Some d => d | None => DEFAULT_MIN_DELAY end.

Section Crawl.
Context {Tree Json : Type}.
Variable html_parse : pystr -> option Tree.
Variable xpath_eval : Tree -> pystr -> option (list pyval).
Variable findall : pystr -> pystr -> option (list pyval).
Variable json_loads : pystr -> option Json.
Variable jsonpath_find : pystr -> Json -> option (list pyval).
Variable bracketed_netloc_ok nfkc_netloc_ok : pystr -> bool.
Variable ip_address : pystr -> option ip_addr.
Variable getaddrinfo : pystr -> gai_result.
(** [requests.get(url)]: the status code and text of the response, or
    [None] when it raises. *)
Variable http_get : pystr -> option (Z * pystr).
Variable sleep : Z -> Z -> Z.
(** The clock once [crawl_url(url, ...)] returns, from the clock when it
    starts. *)
Variable crawl_time : Z -> pystr -> Z.

Definition run_query (text : pystr) (q : query) : query_result :=
  execute_query html_parse xpath_eval findall json_loads jsonpath_find text q.

(** [for query in queries: result["query_results"][query["name"]] =
    execute_query(response.text, query)]: the right side is evaluated
    first, then [query["name"]], whose [KeyError] stops the loop and keeps
    the entries already written.  The flag is [true] when it raised. *)
Fixpoint run_queries (text : pystr) (queries : list query)
    (acc : list (pystr * query_result)) : list (pystr * query_result) * bool :=
  match queries with
  | [] => (acc, false)
  | q :: rest =>
      let r := run_query text q in
      match q_name q with
      | None => (acc, true)
      | Some name => run_queries text rest (JobRunner.dict_set acc name r)
      end
  end.

(** [crawl_url(url, queries)]: the result dict and the URLs passed to
    [requests.get] (none or [url] itself, not the stripped URL that
    [validate_scrape_url] returns). *)
Definition crawl_url (url : pystr) (queries : list query) : crawl_result * list pystr :=
  match validate_scrape_url ip_address getaddrinfo bracketed_netloc_ok nfkc_netloc_ok url with
  | None =>
      ({| cr_url := url; cr_http_code := None;
          cr_error_info := Some (ExceptionText "socket.getaddrinfo");
          cr_query_results := []; cr_removed := false; cr_ran := false |}, [])
  | Some (Err e) =>
      ({| cr_url := url; cr_http_code := None; cr_error_info := Some (SsrfRejected e);
          cr_query_results := []; cr_removed := false; cr_ran := false |}, [])
  | Some (Ok _) =>
      match http_get url with
      | None =>
          ({| cr_url := url; cr_http_code := None;
              cr_error_info := Some (ExceptionText "requests.get");
              cr_query_results := []; cr_removed := false; cr_ran := false |}, [url])
      | Some (status_code, text) =>
          let '(qr, raised) := run_queries text queries [] in
          ({| cr_url := url; cr_http_code := Some status_code;
              cr_error_info := if raised then Some (ExceptionText "'name'") else None;
              cr_query_results := qr; cr_removed := false; cr_ran := negb raised |}, [url])
      end
  end.

(** The loop of [process_job] from clock [clk]: the results and the
    requests made, each with the clock at which its [wait_if_needed]
    returned.  [None] is an exception: from [wait_if_needed] ([urlparse]
    raising) or the [KeyError] of [job_data["queries"]], which is read in
    the loop. *)
Fixpoint crawl_loop (rl : limiter) (us : list pystr) (qs : option (list query)) (clk : Z)
  : option (list crawl_result * list (pystr * Z)) :=
  match us with
  | [] => Some ([], [])
  | url :: rest =>
      match wait_if_needed bracketed_netloc_ok nfkc_netloc_ok sleep rl url clk with
      | None => None
      | Some (rl', _, clk') =>
          match qs with
          | None => None
          | Some queries =>
              let '(result, requested) := crawl_url url queries in
              match crawl_loop rl' rest qs (crawl_time clk' url) with
              | None => None
              | Some (results, trace) =>
                  Some (result :: results, map (fun u => (u, clk')) requested ++ trace)
              end
          end
      end
  end.

(** [process_job(job_data)] started at clock [clk]. *)
Definition process_job (job_data : job) (clk : Z)
  : option (list crawl_result * list (pystr * Z)) :=
  match init (job_min_delay job_data) with
  | None => None
  | Some rate_limiter =>
      match urls job_data with
      | None => None
      | Some us =>
          crawl_loop rate_limiter (if test job_data then firstn 3 us else us)
                     (queries job_data) clk
      end
  end.

End Crawl.
End Crawler.

(** * Proofs *)

(** ** Blocking detector *)
Module BlockingProofs.
Import Blocking.

Lemma status_indicators_not_minimal : forall c x,
  In x (status_indicators c) -> x <> s "minimal_content".
Proof.
  intros c x H. unfold status_indicators in H.
  destruct (c =? 403)%Z; [|destruct (c =? 429)%Z; [|destruct (c =? 503)%Z]];
    simpl in H; intuition (subst; discriminate).
Qed.

Lemma content_indicators_not_minimal : forall t x,
  In x (content_indicators t) -> x <> s "minimal_content".
Proof.
  intros t x H. unfold content_indicators in H. destruct t as [|c t]; [contradiction|].
  apply in_map_iff in H as [[p tag] [<- Hin]].
  apply filter_In in Hin as [Hin _]. simpl.
  simpl in Hin; intuition (match goal with H : (_, _) = (_, _) |- _ =>
    injection H as <- <- end; discriminate).
Qed.

Lemma status_indicators_strong : forall c,
  (c = 403 \/ c = 429 \/ c = 503)%Z -> status_indicators c <> [].
Proof.
  intros c [->|[->| ->]]; unfold status_indicators; simpl; discriminate.
Qed.

Lemma status_indicators_200 : status_indicators 200 = [].
Proof. reflexivity. Qed.

Lemma content_indicators_none : forall t,
  (forall p, In p (map fst blocking_patterns) -> contains (lower t) p = false) ->
  content_indicators t = [].
Proof.
  intros t H. unfold content_indicators.
  assert (Hf : forall bp : list (pystr * pystr),
    (forall p, In p (map fst bp) -> contains (lower t) p = false) ->
    filter (fun pi => contains (lower t) (fst pi)) bp = []).
  { induction bp as [|[p tag] bp IH]; intro Hb; [reflexivity|]. simpl.
    rewrite (Hb p) by (simpl; auto). apply IH.
    intros q Hq. apply Hb. simpl. auto. }
  destruct t; [reflexivity|]. rewrite Hf by exact H. reflexivity.
Qed.

End BlockingProofs.

Module BlockingClaims.
Import Blocking BlockingProofs.

(** C9. A body shorter than 200 characters (after [strip]) is counted as the
    indicator ["minimal_content"] exactly when it is non-empty and another
    indicator is present or the status code is at least 400; hence a status
    200 response whose lower-cased body contains none of the challenge
    phrases is not blocked (whatever its length), and every response with
    status 403, 429 or 503 is blocked. *)
Theorem detect_blocking_short_body_gated : forall (resp : response) (content : option pystr),
  let t := text_to_check resp content in
  let r := detect_blocking resp content in
  (In (s "minimal_content") (snd r) <->
     t <> [] /\ List.length (strip t) < 200 /\
     ((exists x, In x (snd r) /\ x <> s "minimal_content") \/ (400 <= status_code resp)%Z))
  /\ (status_code resp = 200%Z ->
      (forall p, In p (map fst blocking_patterns) -> contains (lower t) p = false) ->
      fst r = false)
  /\ ((status_code resp = 403 \/ status_code resp = 429 \/ status_code resp = 503)%Z ->
      fst r = true).
Proof.
  intros resp content t r.
  assert (Hnm : forall ind, ind = status_indicators (status_code resp) ++ content_indicators t ->
            ~ In (s "minimal_content") ind).
  { intros ind -> Hin. apply in_app_or in Hin as [Hin|Hin].
    - exact (status_indicators_not_minimal _ _ Hin eq_refl).
    - exact (content_indicators_not_minimal _ _ Hin eq_refl). }
  specialize (Hnm _ eq_refl).
  unfold r, detect_blocking. fold t.
  remember (status_indicators (status_code resp) ++ content_indicators t) as ind12 eqn:E12.
  split; [|split].
  - destruct t as [|c t'] eqn:Et; simpl.
    + split; [intro H; contradiction | intros [H _]; congruence].
    + destruct (Nat.ltb_spec (List.length (strip (c :: t'))) 200) as [Hlt|Hge].
      * destruct ind12 as [|x ind'] eqn:Ei.
        -- destruct (Z.leb_spec 400 (status_code resp)) as [Hs|Hs]; simpl.
           ++ split; [intros _; repeat split; auto; discriminate|auto].
           ++ split; [intros []|]. intros [_ [_ [[y [[] _]]|Hs']]]. lia.
        -- split.
           ++ intros _. repeat split; auto; [discriminate|]. left. exists x.
              split; [simpl; auto|]. intro Hx. subst x. apply Hnm. simpl. auto.
           ++ intros _. apply in_or_app. right. simpl. auto.
      * split; [intro H; contradiction|]. intros [_ [H _]]. lia.
  - intros Hs Hp. rewrite (content_indicators_none t Hp) in E12.
    rewrite Hs in E12. rewrite status_indicators_200 in E12. simpl in E12. subst ind12.
    rewrite Hs. destruct t; [reflexivity|]. simpl.
    destruct (Nat.ltb (List.length (strip (a :: t))) 200); reflexivity.
  - intros Hs.
    assert (Hne : ind12 <> []).
    { subst ind12. pose proof (status_indicators_strong _ Hs) as H.
      destruct (status_indicators (status_code resp)); [congruence|discriminate]. }
    destruct ind12 as [|x ind']; [congruence|].
    destruct t; [reflexivity|].
    destruct (Nat.ltb (List.length (strip (a :: t))) 200); reflexivity.
Qed.

Definition ok_page : response := {| status_code := 200; text := s "ok" |}.

Lemma detect_blocking_short_body_gated_witness :
  status_code ok_page = 200%Z /\ fst (detect_blocking ok_page None) = false.
Proof.
  split; [reflexivity|].
  apply (proj1 (proj2 (detect_blocking_short_body_gated ok_page None))).
  - reflexivity.
  - intros p Hp. simpl in Hp.
    repeat (destruct Hp as [<-|Hp]; [reflexivity|]). contradiction.
Defined.

End BlockingClaims.

(** ** Tiered escalation controller *)
Module TieredClaims.
Import Tiered.
Local Open Scope Z_scope.

(** Tier 1 answers 403, tier 2 has no proxy configured (raises
    [NotImplementedError]), tiers 3 and 4 would succeed. *)
Definition attempt_blocked_then_unavailable (t : Z) : tier_outcome :=
  if (t =? 1)%Z then TBlocked [s "403_forbidden"]
  else if (t =? 2)%Z then TUnavailable (s "Tier 2 (Proxy) requires proxy configuration.")
  else TSuccess.

(** C3, counterexample: with auto-escalation on and [max_tier = 4], an
    Unavailable outcome at tier 2 ends the run with the not-implemented error;
    tier 3 is never attempted. *)
Lemma smart_scrape_unavailable_no_escalation :
  let r := smart_scrape attempt_blocked_then_unavailable 4 true 1 in
  (exists m l, r = Raised (ExnNotImplemented 2 m) l) /\
  result_log r = [LAttempting 1; LBlocked 1 [s "403_forbidden"]; LEscalating 2;
                  LAttempting 2;
                  LNotImplemented 2 (s "Tier 2 (Proxy) requires proxy configuration.")] /\
  ~ In (LAttempting 3) (result_log r).
Proof.
  vm_compute. split; [eauto|]. split; [reflexivity|]. intuition discriminate.
Qed.

(** C3, amended. From a Blocked or Error outcome at a tier [t] in 1..4:
    if auto-escalation is on and [t < max_tier] (with [max_tier <= 4]) the
    next step is the loop head at [t + 1], whose next step is the attempt at
    tier [t + 1]; if auto-escalation is off or [t = max_tier] the run ends with
    the failure of tier [t] (the [BlockingDetectionError] indicators, or the
    tier's own exception re-raised).  An Unavailable outcome
    ([NotImplementedError]) at any tier ends the run at once with the
    not-implemented error, whatever [auto_escalate] and [max_tier] are. *)
Theorem smart_scrape_escalation_steps :
  forall (attempt : Z -> tier_outcome) (max_tier : Z) (auto_escalate : bool)
         (t : Z) (log : list log_entry),
  (forall o, (exists ind, o = TBlocked ind) \/ (exists m, o = TError m) ->
     (auto_escalate = true -> (1 <= t)%Z -> (t < max_tier)%Z -> (max_tier <= 4)%Z ->
        exists log1, step attempt max_tier auto_escalate (Attempted t o log)
                       = Attempting (t + 1) log1 /\
                     step attempt max_tier auto_escalate (Attempting (t + 1) log1)
                       = Attempted (t + 1) (attempt (t + 1)) (log1 ++ [LAttempting (t + 1)]))
     /\
     (auto_escalate = false \/ t = max_tier ->
        exists log1, step attempt max_tier auto_escalate (Attempted t o log)
                       = Finished (Raised (match o with
                                           | TBlocked ind => ExnFailedAtTier t ind
                                           | TError m => ExnReraised m
                                           | _ => ExnAllExhausted max_tier
                                           end) log1)))
  /\
  (forall m, step attempt max_tier auto_escalate (Attempted t (TUnavailable m) log)
             = Finished (Raised (ExnNotImplemented t m) (log ++ [LNotImplemented t m]))).
Proof.
  intros attempt max_tier auto t log. split; [|reflexivity].
  intros o Ho. split.
  - intros Ha H1 Hlt Hmax.
    assert (Hle : (max_tier <=? t)%Z = false) by (apply Z.leb_gt; lia).
    assert (Hk : tier_known (t + 1) = true)
      by (unfold tier_known; apply andb_true_intro; split; apply Z.leb_le; lia).
    assert (Hle' : (t + 1 <=? max_tier)%Z = true) by (apply Z.leb_le; lia).
    destruct Ho as [[ind ->]|[m ->]]; simpl; rewrite Ha, Hle; simpl;
      eexists; split; try reflexivity; simpl; rewrite Hle', Hk; reflexivity.
  - intros Hc.
    assert (Hstop : negb auto || (max_tier <=? t)%Z = true).
    { destruct Hc as [->| ->]; [reflexivity|]. rewrite Z.leb_refl, orb_true_r. reflexivity. }
    destruct Ho as [[ind ->]|[m ->]]; simpl; rewrite Hstop; eexists; reflexivity.
Qed.

(** Concrete instance of the theorem: tier 1 blocked, [max_tier = 2],
    auto-escalation on. *)
Lemma smart_scrape_escalation_steps_witness :
  exists log1,
    step attempt_blocked_then_unavailable 2 true
      (Attempted 1 (TBlocked [s "403_forbidden"]) []) = Attempting 2 log1 /\
    step attempt_blocked_then_unavailable 2 true (Attempting 2 log1)
      = Attempted 2 (attempt_blocked_then_unavailable 2) (log1 ++ [LAttempting 2]).
Proof.
  destruct (proj1 (smart_scrape_escalation_steps attempt_blocked_then_unavailable 2 true 1 [])
              (TBlocked [s "403_forbidden"]) (or_introl (ex_intro _ _ eq_refl)))
    as [Hesc _].
  exact (Hesc eq_refl (Z.le_refl 1) ltac:(lia) ltac:(lia)).
Defined.

End TieredClaims.

(** ** Crawl job runner *)
Module JobRunnerClaims.
Import JobRunner.

Section Halting.
Context {D R Q : Type}.
Variable pq : pystr -> list Q -> option D.

Lemma url_loop_halts : forall (e : @env R) (j : @job Q) k urls idx results,
  (forall i, i < k -> (elapsed_at e (idx + i) <= timeout_seconds j)%Z /\
                      is_cancelled (poll_at e (idx + i)) = false) ->
  k < List.length urls ->
  ((timeout_seconds j < elapsed_at e (idx + k))%Z ->
     exists acc, url_loop pq e j idx urls results = LoopTimeout acc) /\
  ((elapsed_at e (idx + k) <= timeout_seconds j)%Z -> is_cancelled (poll_at e (idx + k)) = true ->
     exists acc, url_loop pq e j idx urls results = LoopCancelled acc).
Proof.
  intros e j k. induction k as [|k IH]; intros urls idx results Hpre Hk;
    destruct urls as [|u rest]; simpl in Hk; try lia.
  - rewrite Nat.add_0_r. simpl. split.
    + intros Ht. apply Z.ltb_lt in Ht. rewrite Ht. eauto.
    + intros Ht Hc. apply Z.ltb_ge in Ht. rewrite Ht.
      destruct (poll_at e idx) eqn:Ep; try discriminate; simpl in Hc; rewrite Hc; eauto.
  - destruct (Hpre 0 ltac:(lia)) as [Ht Hc]. rewrite Nat.add_0_r in Ht, Hc.
    simpl. apply Z.ltb_ge in Ht. rewrite Ht.
    assert (Hpre' : forall i, i < k -> (elapsed_at e (S idx + i) <= timeout_seconds j)%Z /\
                                  is_cancelled (poll_at e (S idx + i)) = false).
    { intros i Hi. replace (S idx + i) with (idx + S i) by lia. apply Hpre. lia. }
    replace (idx + S k) with (S idx + k) by lia.
    destruct (poll_at e idx) eqn:Ep; simpl in Hc; try rewrite Hc;
      apply IH; auto; lia.
Qed.

End Halting.

(** Two URLs, the first fetched and extracted successfully; the clock reads
    901 s at the top of the second iteration; no [timeout] in the job, so
    the default budget of 900 s applies. *)
Definition two_url_env : @env pystr := {|
  poll_initial := JobItem (Some (s "ready"));
  fetch_urls := Some [s "https://a.example/"; s "https://b.example/"];
  elapsed_at := fun i => match i with O => 0%Z | _ => 901%Z end;
  poll_at := fun _ => JobItem (Some (s "processing"));
  fetch_at := fun _ => FetchSuccess (s "<ul><li>x</li></ul>");
  save_results_ok := true;
  final_update_ok := true |}.

Definition two_url_job : @job pystr := {| job_id := s "job-1"; queries := [s "q"]; timeout := None |}.

Definition extract_stub (_ : pystr) (_ : list pystr) : option pystr := Some (s "x").

(** C2, counterexample: the loop halts on the timeout holding the result of
    the first URL, and [process_job] returns the bare timeout status dict,
    which carries no per-URL result. *)
Lemma process_job_timeout_discards_results :
  url_loop extract_stub two_url_env two_url_job 0
    [s "https://a.example/"; s "https://b.example/"] []
    = LoopTimeout [(s "https://a.example/", UrlSuccess (s "x"))] /\
  process_job extract_stub two_url_env two_url_job = JobStatusDict (s "timeout") /\
  returned_results (process_job extract_stub two_url_env two_url_job) = [].
Proof. vm_compute. auto. Qed.

(** C2, amended.  Let the initial status check pass and [fetch_urls_for_job]
    return a non-empty list.  If the first [k] iterations neither time out nor
    observe the cancellation, then at iteration [k]: when the elapsed time
    exceeds the budget ([job['timeout']], default 900 s) [process_job] returns
    the status dict [{'status': 'timeout', ...}], and when it does not but the
    job's status reads ['cancelled'] it returns [{'status': 'cancelled', ...}];
    in both cases the results accumulated so far are not returned. *)
Theorem process_job_halt_returns_status_only :
  forall (D R Q : Type) (pq : pystr -> list Q -> option D) (e : @env R) (j : @job Q)
         (urls : list pystr) (k : nat),
  is_cancelled (poll_initial e) = false ->
  (forall m, poll_initial e <> PollRaises m) ->
  fetch_urls e = Some urls ->
  (forall i, i < k -> (elapsed_at e i <= timeout_seconds j)%Z /\
                      is_cancelled (poll_at e i) = false) ->
  k < List.length urls ->
  ((timeout_seconds j < elapsed_at e k)%Z ->
     process_job pq e j = JobStatusDict (s "timeout") /\
     returned_results (process_job pq e j) = []) /\
  ((elapsed_at e k <= timeout_seconds j)%Z -> is_cancelled (poll_at e k) = true ->
     process_job pq e j = JobStatusDict (s "cancelled") /\
     returned_results (process_job pq e j) = []).
Proof.
  intros D R Q pq e j urls k Hc0 Hr0 Hu Hpre Hk.
  destruct (url_loop_halts pq e j k urls 0 [] Hpre Hk) as [Ht Hc].
  assert (Hne : urls <> []) by (intros ->; simpl in Hk; lia).
  assert (Hpj : forall x, url_loop pq e j 0 urls [] = x ->
            process_job pq e j = match x with
                                 | LoopTimeout _ => JobStatusDict (s "timeout")
                                 | LoopCancelled _ => JobStatusDict (s "cancelled")
                                 | LoopDone results =>
                                     if negb (save_results_ok e) then JobStatusDict (s "error")
                                     else if negb (final_update_ok e) then JobStatusDict (s "error")
                                     else JobResults results
                                 end).
  { intros x Hx. unfold process_job.
    destruct (poll_initial e) eqn:Ep; [| |exfalso; eapply Hr0; reflexivity];
      rewrite Hc0, Hu; destruct urls; try congruence; rewrite Hx; reflexivity. }
  split.
  - intros Hgt. destruct (Ht Hgt) as [acc Hacc]. rewrite (Hpj _ Hacc). auto.
  - intros Hle Hcan. destruct (Hc Hle Hcan) as [acc Hacc]. rewrite (Hpj _ Hacc). auto.
Qed.

Lemma process_job_halt_returns_status_only_witness :
  process_job extract_stub two_url_env two_url_job = JobStatusDict (s "timeout") /\
  returned_results (process_job extract_stub two_url_env two_url_job) = [].
Proof.
  refine (proj1 (process_job_halt_returns_status_only pystr pystr pystr extract_stub
            two_url_env two_url_job [s "https://a.example/"; s "https://b.example/"] 1
            eq_refl _ eq_refl _ _) _).
  - intros m. discriminate.
  - intros i Hi. assert (i = 0) by lia. subst i.
    split; [apply Z.leb_le; reflexivity | reflexivity].
  - simpl. lia.
  - apply Z.ltb_lt. reflexivity.
Defined.

End JobRunnerClaims.

(** ** Query extraction: join semantics and the two engines *)
Module ExtractionClaims.
Import Extraction.

(** A query named [m] of type [ty] whose expression sits under ['query']. *)
Definition mkq (m ty : string) (e : string) (j : bool) : query :=
  {| q_name := Some (s m); q_type := Some (s ty); q_selector := None;
     q_query := Some (s e); q_join := j |}.

Definition page : pystr := s "<li>a</li>".

(** Library stubs for queries that never reach lxml, jsonpath or the PDF
    path. *)
Definition no_tree (_ : pystr) : option unit := None.
Definition no_xpath (_ : unit) (_ : pystr) : option (list pyval) := None.
Definition no_json (_ : pystr) : option unit := None.
Definition no_jsonpath (_ : pystr) (_ : unit) : option (list pyval) := None.
Definition no_pdf_text (_ : pystr) : option pystr := None.
Definition no_pdf_query (_ : pystr) (_ : query) : query_result := QNone.

(** C4 (counterexample): a regex query that matches nothing, with
    [join=false], is recorded by [process_queries] as the empty list [[]],
    not as [None]; [execute_query] returns [None] for the same query. *)
Lemma process_queries_no_match_empty_list :
  process_queries no_tree no_xpath literal_findall (fun _ _ => false)
      no_json no_jsonpath no_pdf_text no_pdf_query (fun _ => true)
      page [mkq "q" "regex" "zz" false] None = [(s "q", QList [])]
    /\ execute_query no_tree no_xpath literal_findall no_json no_jsonpath
         page (mkq "q" "regex" "zz" false) = QNone.
Proof. split; reflexivity. Qed.

(** C5 (counterexample): a regex query with exactly one match and
    [join=false] is recorded by [process_queries] as the one-element list
    (the pattern runs over [str(page_content)], the [b'...'] form of the
    bytes), while [execute_query] returns the bare match. *)
Lemma engines_disagree_single_match :
  process_queries no_tree no_xpath literal_findall (fun _ _ => false)
      no_json no_jsonpath no_pdf_text no_pdf_query (fun _ => true)
      page [mkq "q" "regex" "a" false] None = [(s "q", QList [PStr (s "a")])]
    /\ execute_query no_tree no_xpath literal_findall no_json no_jsonpath
         page (mkq "q" "regex" "a" false) = QVal (PStr (s "a")).
Proof. split; reflexivity. Qed.

(** When [BeautifulSoup(page_content, 'html.parser')] raises, [html_tree]
    stays [None] and [process_queries] records [None] for an XPath query,
    while [execute_query] parses the same content with lxml alone and
    returns its match. *)
Lemma engines_disagree_soup_failure :
  process_queries (Tree:=unit) (fun _ => Some tt)
      (fun _ _ => Some [PStr (s "a")]) literal_findall (fun _ _ => false)
      no_json no_jsonpath no_pdf_text no_pdf_query (fun _ => false)
      page [mkq "q" "xpath" "//li/text()" false] None = [(s "q", QNone)]
    /\ execute_query (Tree:=unit) (fun _ => Some tt)
         (fun _ _ => Some [PStr (s "a")]) literal_findall no_json no_jsonpath
         page (mkq "q" "xpath" "//li/text()" false) = QVal (PStr (s "a")).
Proof. split; reflexivity. Qed.


Lemma type_is_true : forall q t, type_is q t = true -> q_type q = Some (s t).
Proof.
  unfold type_is; intros q t H. destruct (q_type q) as [ty|]; [|discriminate].
  apply str_eqb_eq in H. subst. reflexivity.
Qed.

Lemma type_is_other : forall q t t', type_is q t = true -> s t <> s t' ->
  type_is q t' = false.
Proof.
  intros q t t' H Hne. apply type_is_true in H. unfold type_is. rewrite H.
  destruct (str_eqb (s t) (s t')) eqn:E; [|reflexivity].
  apply str_eqb_eq in E. contradiction.
Qed.

(** The two shaping steps agree exactly on non-empty match lists that are
    joined or have at least two elements. *)
Lemma shapes_agree_iff : forall j l,
  pq_shape j l = eq_shape j l <-> l <> [] /\ (j = true \/ 2 <= List.length l).
Proof.
  intros j [|v [|w l]]; destruct j; simpl; split; intro H;
    try discriminate; try (split; [discriminate|]); auto with arith;
    try (destruct H as [H _]; contradiction);
    try (destruct H as [_ [H|H]]; [discriminate|inversion H; inversion H1]).
Qed.

Ltac both_none := exists QNone; split; [reflexivity|]; left; split; reflexivity.
Ltac same_list := eexists; split; [reflexivity|]; right; eexists; split; reflexivity.

Section Engines.
Context {Tree Json : Type}.
Variable html_parse : pystr -> option Tree.
Variable xpath_eval : Tree -> pystr -> option (list pyval).
Variable findall : pystr -> pystr -> option (list pyval).
Variable regex_timeout : pystr -> pystr -> bool.
Variable json_loads : pystr -> option Json.
Variable jsonpath_find : pystr -> Json -> option (list pyval).
Variable extract_pdf_text : pystr -> option pystr.
Variable process_pdf_query : pystr -> query -> query_result.
Variable soup_parse_ok : pystr -> bool.

(** C4 (amended): once a query's matching ran without error and produced
    the match list [l], [process_queries] records [l] joined with ['|'] when
    [join] is set and [l] is non-empty, and otherwise the list [l] itself,
    the empty list when nothing matched; [execute_query] returns the joined
    string when [join] is set and [l] is non-empty, [None] when [l] is
    empty, the bare match when [l] has one element, and the list otherwise. *)
Theorem query_join_semantics :
  (forall content is_pdf html_tree q expr l,
     truthy (q_query q) = Some expr ->
     pq_results xpath_eval findall regex_timeout json_loads jsonpath_find
       extract_pdf_text process_pdf_query content is_pdf html_tree q expr = Results l ->
     pq_query xpath_eval findall regex_timeout json_loads jsonpath_find
       extract_pdf_text process_pdf_query content is_pdf html_tree q =
     Some (if q_join q && negb (List.length l =? 0)
           then QStr (join (s "|") (map py_str l))
           else QList l))
  /\
  (forall content q sel l,
     truthy (match truthy (q_selector q) with Some x => Some x | None => q_query q end)
       = Some sel ->
     eq_results html_parse xpath_eval findall json_loads jsonpath_find content q sel
       = Results l ->
     execute_query html_parse xpath_eval findall json_loads jsonpath_find content q =
     if q_join q && negb (List.length l =? 0)
     then QStr (join (s "|") (map py_str l))
     else match l with [] => QNone | [v] => QVal v | _ => QList l end).
Proof.
  split.
  - intros content is_pdf html_tree q expr l Hq Hr. unfold pq_query.
    rewrite Hq, Hr. unfold pq_shape.
    destruct (q_join q), l; reflexivity.
  - intros content q sel l Hs Hr. unfold execute_query.
    rewrite Hs, Hr. unfold eq_shape.
    destruct (q_join q), l as [|v [|w l]]; reflexivity.
Qed.

(** C5 (amended): for an XPath or JSONPath query whose expression is under
    ['query'] (no ['selector']) on content that is not a PDF, and, for an
    XPath query, on which [BeautifulSoup(page_content, 'html.parser')] does
    not raise, either both engines give [None], or both shape one common
    match list [l], and their results are equal exactly when [l] is
    non-empty and either [join] is set or [l] has at least two elements. *)
Theorem engines_agree_iff :
  forall content ct q expr,
    (type_is q "xpath" = true \/ type_is q "jsonpath" = true) ->
    truthy (q_selector q) = None ->
    truthy (q_query q) = Some expr ->
    is_pdf_content content ct = false ->
    (type_is q "xpath" = true -> soup_parse_ok content = true) ->
    exists r,
      process_queries html_parse xpath_eval findall regex_timeout json_loads
        jsonpath_find extract_pdf_text process_pdf_query soup_parse_ok content [q] ct
        = [(query_name q, r)]
      /\ ((r = QNone /\
           execute_query html_parse xpath_eval findall json_loads jsonpath_find
             content q = QNone)
          \/ exists l,
               r = pq_shape (q_join q) l
               /\ execute_query html_parse xpath_eval findall json_loads
                    jsonpath_find content q = eq_shape (q_join q) l
               /\ (r = execute_query html_parse xpath_eval findall json_loads
                         jsonpath_find content q
                   <-> l <> [] /\ (q_join q = true \/ 2 <= List.length l))).
Proof.
  intros content ct q expr Hty Hsel Hq Hpdf Hsoup.
  unfold process_queries, execute_query. rewrite Hpdf, Hsel. simpl.
  unfold pq_query. rewrite Hq.
  assert (Hsame : exists r,
    match pq_results xpath_eval findall regex_timeout json_loads jsonpath_find
            extract_pdf_text process_pdf_query content false
            (if type_is q "xpath" || type_is q "regex" || false
             then if soup_parse_ok content then html_parse content else None
             else None) q expr with
    | Early r => r | Results l => pq_shape (q_join q) l end = r /\
    ((r = QNone /\
      match eq_results html_parse xpath_eval findall json_loads jsonpath_find content q expr with
      | Early r => r | Results l => eq_shape (q_join q) l end = QNone) \/
     exists l, r = pq_shape (q_join q) l /\
      match eq_results html_parse xpath_eval findall json_loads jsonpath_find content q expr with
      | Early r => r | Results l => eq_shape (q_join q) l end = eq_shape (q_join q) l)).
  { unfold pq_results, eq_results.
    destruct (type_is q "xpath") eqn:Ex; simpl.
    - rewrite (Hsoup eq_refl).
      destruct (html_parse content) as [tr|]; [|both_none].
      destruct (xpath_eval tr expr) as [l|]; [same_list|both_none].
    - destruct Hty as [Hty|Hty]; [congruence|].
      rewrite (type_is_other q "jsonpath" "regex" Hty) by discriminate.
      rewrite Hty. simpl.
      destruct (json_loads content) as [js|]; [|both_none].
      destruct (jsonpath_find expr js) as [l|]; [same_list|both_none]. }
  destruct Hsame as [r [Hr [[H1 H2] | [l [H1 H2]]]]].
  - exists r. rewrite Hr. split; [reflexivity|]. left. split; assumption.
  - exists r. rewrite Hr. split; [reflexivity|]. right. exists l.
    rewrite H2, H1. split; [reflexivity|]. split; [reflexivity|].
    apply shapes_agree_iff.
Qed.

End Engines.

(** Both amended extraction theorems at a concrete page, with the literal
    matcher and no HTML or JSON parser. *)
Definition no_parse {A : Type} (_ : pystr) : option A := None.

Definition one_match_xpath (_ : unit) (_ : pystr) : option (list pyval) :=
  Some [PStr (s "a")].

Lemma query_join_semantics_witness :
  truthy (q_query (mkq "q" "regex" "a" true)) = Some (s "a")
  /\ pq_results (Tree:=unit) (Json:=unit) (fun _ _ => None) literal_findall
       (fun _ _ => false) no_parse (fun _ _ => None) no_parse (fun _ _ => QNone)
       page false None (mkq "q" "regex" "a" true) (s "a") = Results [PStr (s "a")]
  /\ pq_query (Tree:=unit) (Json:=unit) (fun _ _ => None) literal_findall
       (fun _ _ => false) no_parse (fun _ _ => None) no_parse (fun _ _ => QNone)
       page false None (mkq "q" "regex" "a" true) = Some (QStr (s "a"))
  /\ execute_query (Tree:=unit) (Json:=unit) no_parse (fun _ _ => None)
       literal_findall no_parse (fun _ _ => None) page (mkq "q" "regex" "a" false)
     = QVal (PStr (s "a")).
Proof.
  split; [reflexivity|]. split; [reflexivity|]. split.
  - refine (eq_trans (proj1 (query_join_semantics (Tree:=unit) (Json:=unit)
      no_parse (fun _ _ => None) literal_findall (fun _ _ => false) no_parse
      (fun _ _ => None) no_parse (fun _ _ => QNone))
      page false None (mkq "q" "regex" "a" true) (s "a") [PStr (s "a")]
      eq_refl eq_refl) _). reflexivity.
  - refine (eq_trans (proj2 (query_join_semantics (Tree:=unit) (Json:=unit)
      no_parse (fun _ _ => None) literal_findall (fun _ _ => false) no_parse
      (fun _ _ => None) no_parse (fun _ _ => QNone))
      page (mkq "q" "regex" "a" false) (s "a") [PStr (s "a")]
      eq_refl eq_refl) _). reflexivity.
Defined.

Lemma engines_agree_iff_witness :
  (type_is (mkq "q" "xpath" "//li/text()" false) "xpath" = true
   \/ type_is (mkq "q" "xpath" "//li/text()" false) "jsonpath" = true)
  /\ truthy (q_selector (mkq "q" "xpath" "//li/text()" false)) = None
  /\ truthy (q_query (mkq "q" "xpath" "//li/text()" false)) = Some (s "//li/text()")
  /\ is_pdf_content page None = false
  /\ exists r,
       process_queries (Tree:=unit) (Json:=unit) (fun _ => Some tt) one_match_xpath
         literal_findall (fun _ _ => false) no_parse (fun _ _ => None) no_parse
         (fun _ _ => QNone) (fun _ => true) page [mkq "q" "xpath" "//li/text()" false] None
       = [(s "q", r)]
       /\ r <> execute_query (Tree:=unit) (Json:=unit) (fun _ => Some tt)
                one_match_xpath literal_findall no_parse (fun _ _ => None) page
                (mkq "q" "xpath" "//li/text()" false).
Proof.
  split; [left; reflexivity|]. split; [reflexivity|]. split; [reflexivity|].
  split; [reflexivity|].
  destruct (engines_agree_iff (Tree:=unit) (Json:=unit) (fun _ => Some tt)
              one_match_xpath literal_findall (fun _ _ => false) no_parse
              (fun _ _ => None) no_parse (fun _ _ => QNone) (fun _ => true) page None
              (mkq "q" "xpath" "//li/text()" false) (s "//li/text()")
              (or_introl eq_refl) eq_refl eq_refl eq_refl (fun _ => eq_refl))
    as [r [Hpq [[Hr He] | [l [Hr [He Hiff]]]]]].
  - exists r. split; [exact Hpq|]. rewrite Hr, He.
    (* unreachable: the parser and the query both succeed *)
    simpl in He. discriminate He.
  - exists r. split; [exact Hpq|]. intro Heq. apply Hiff in Heq.
    simpl in He. destruct Heq as [Hne [Hj | Hlen]]; [discriminate Hj|].
    destruct l as [|v [|w l']]; simpl in He; try discriminate He; simpl in Hlen; lia.
Defined.

End ExtractionClaims.

(** ** Regex and XPath validators *)
Module ValidatorProofs.
Import Validators.

Lemma strip_nil : strip [] = [].
Proof. reflexivity. Qed.

Lemma span_app_stop : forall p z e w, p e = false ->
  exists a b, z = a ++ b /\ span p (z ++ e :: w) = (a, b ++ e :: w).
Proof.
  intros p z e w He. induction z as [|c z IH]; simpl.
  - exists [], []. rewrite He. auto.
  - destruct (p c) eqn:Hc.
    + destruct IH as [a [b [-> Hs]]]. rewrite Hs. exists (c :: a), b. auto.
    + exists [], (c :: z). auto.
Qed.

Lemma span_all : forall p a b,
  forallb p a = true -> (match b with [] => True | d :: _ => p d = false end) ->
  span p (a ++ b) = (a, b).
Proof.
  intros p a b Ha Hb. induction a as [|c a IH]; simpl in *.
  - destruct b as [|d b]; simpl; [reflexivity|]. rewrite Hb. reflexivity.
  - apply andb_prop in Ha as [Hc Ha]. rewrite Hc, (IH Ha). reflexivity.
Qed.

Lemma lstrip_app : forall z w,
  (exists a b, z = a ++ b /\ b <> [] /\ lstrip (z ++ w) = b ++ w)
  \/ lstrip (z ++ w) = lstrip w.
Proof.
  intros z w. induction z as [|c z IH]; simpl.
  - right. reflexivity.
  - destruct (isspace c) eqn:Hc.
    + destruct IH as [[a [b [-> [Hb Hl]]]] | Hl].
      * left. exists (c :: a), b. auto.
      * right. exact Hl.
    + left. exists [], (c :: z). split; [reflexivity|]. split; [discriminate|]. reflexivity.
Qed.

Lemma lstrip_all : forall a w, forallb isspace a = true -> lstrip (a ++ w) = lstrip w.
Proof.
  induction a as [|c a IH]; simpl; intros w H; [reflexivity|].
  apply andb_prop in H as [Hc H]. rewrite Hc. auto.
Qed.

Lemma lstrip_nonspace : forall c w, isspace c = false -> lstrip (c :: w) = c :: w.
Proof. intros c w H. simpl. rewrite H. reflexivity. Qed.

Lemma space_not_word : forall c, isspace c = true -> is_word_or_dash c = false.
Proof. intros [[] [] [] [] [] [] [] []]; vm_compute; congruence. Qed.

Lemma word_not_space : forall c, is_word c = true -> isspace c = false.
Proof. intros [[] [] [] [] [] [] [] []]; vm_compute; congruence. Qed.

Lemma word_is_word_or_dash : forall c, is_word c = true -> is_word_or_dash c = true.
Proof. intros c H. unfold is_word_or_dash. rewrite H. reflexivity. Qed.

Lemma word_not_paren : forall c, is_word c = true -> is_char c 40 = false.
Proof. intros [[] [] [] [] [] [] [] []]; vm_compute; congruence. Qed.

(** The part of an expression before a call site: empty, or ending in a
    character outside [[\w-]]. *)
Definition boundary (y : pystr) : Prop :=
  y = [] \/ exists y' e, y = y' ++ [e] /\ is_word_or_dash e = false.

Lemma boundary_tail : forall a y, boundary (a :: y) -> boundary y.
Proof.
  intros a y [H | [y' [e [H He]]]]; [discriminate|].
  destruct y' as [|b y'].
  - left. injection H as _ ->. reflexivity.
  - right. exists y', e. injection H as _ ->. auto.
Qed.

Lemma boundary_suffix : forall a b, boundary (a ++ b) -> boundary b.
Proof.
  induction a as [|c a IH]; simpl; intros b H; [exact H|].
  apply IH. exact (boundary_tail _ _ H).
Qed.

Section CallSite.
Variables (c : ascii) (run ws rest : pystr).
Hypothesis Hc : is_word c = true.
Hypothesis Hrun : forallb is_word_or_dash run = true.
Hypothesis Hws : forallb isspace ws = true.

Let tail := (c :: run) ++ ws ++ chr 40 :: rest.

Lemma call_site_found : forall f,
  function_calls (S f) tail = (c :: run) :: function_calls f rest.
Proof.
  intro f. unfold tail. simpl. rewrite Hc.
  rewrite (span_all is_word_or_dash run (ws ++ chr 40 :: rest) Hrun).
  - rewrite lstrip_all by exact Hws. reflexivity.
  - destruct ws as [|d ws']; [reflexivity|]. simpl in Hws.
    apply andb_prop in Hws as [Hd _]. apply space_not_word. exact Hd.
Qed.

Lemma call_site_reached : forall n y f,
  List.length y <= n -> boundary y -> List.length (y ++ tail) < f ->
  In (c :: run) (function_calls f (y ++ tail)).
Proof.
  induction n as [|n IH]; intros y f Hlen Hb Hf.
  - destruct y; [|simpl in Hlen; lia]. simpl.
    destruct f as [|f]; [simpl in Hf; lia|].
    rewrite call_site_found. left. reflexivity.
  - destruct y as [|d y'].
    + simpl. destruct f as [|f]; [simpl in Hf; lia|].
      rewrite call_site_found. left. reflexivity.
    + destruct f as [|f]; [simpl in Hf; lia|].
      pose proof (boundary_tail _ _ Hb) as Hb'.
      simpl in Hlen, Hf.
      assert (Hrec : In (c :: run) (function_calls f (y' ++ tail))).
      { apply IH; auto; lia. }
      simpl. destruct (is_word d) eqn:Hd; [|exact Hrec].
      destruct Hb as [Hb | [yy [e [Hyy He]]]]; [discriminate|].
      destruct yy as [|d0 yy'].
      { injection Hyy as -> _. rewrite word_is_word_or_dash in He by exact Hd.
        discriminate. }
      injection Hyy as _ Hy'. subst y'.
      rewrite <- app_assoc. simpl.
      destruct (span_app_stop is_word_or_dash yy' e tail He) as [a [b [Hab Hs]]].
      rewrite Hs.
      destruct (lstrip_app (b ++ [e]) tail) as [[a' [b' [Hz [Hne Hl]]]] | Hl];
        rewrite <- app_assoc in Hl; simpl in Hl; rewrite Hl.
      * destruct b' as [|g b'']; [contradiction|]. simpl.
        destruct (is_char g 40).
        -- right. apply IH.
           ++ assert (List.length (b ++ [e]) = List.length (a' ++ g :: b''))
                by (rewrite Hz; reflexivity).
              rewrite Hab in Hlen. rewrite !length_app in *. simpl in *. lia.
           ++ apply (boundary_tail g). apply (boundary_suffix a'). rewrite <- Hz.
              right. exists b, e. auto.
           ++ assert (List.length (b ++ [e]) = List.length (a' ++ g :: b''))
                by (rewrite Hz; reflexivity).
              rewrite Hab in Hf. rewrite !length_app in *. simpl in *. lia.
        -- rewrite <- app_assoc in Hrec. exact Hrec.
      * unfold tail at 1. simpl.
        rewrite (word_not_space c Hc), (word_not_paren c Hc).
        rewrite <- app_assoc in Hrec. exact Hrec.
Qed.

End CallSite.

Lemma find_some_in : forall (f : pystr -> bool) l x, In x l -> f x = true ->
  exists m, find f l = Some m.
Proof.
  intros f l x Hin Hx. induction l as [|y l IH]; [contradiction|].
  simpl. destruct (f y) eqn:Hy; [eauto|].
  destruct Hin as [-> | Hin]; [congruence|auto].
Qed.

Lemma strip_call_site : forall x pre c run ws rest,
  x = pre ++ (c :: run) ++ ws ++ chr 40 :: rest -> boundary pre -> is_word c = true ->
  exists pre' rest', boundary pre' /\
    strip x = pre' ++ (c :: run) ++ ws ++ chr 40 :: rest'.
Proof.
  intros x pre c run ws rest -> Hb Hc. unfold strip.
  assert (Hl : exists pre', boundary pre' /\
            lstrip (pre ++ (c :: run) ++ ws ++ chr 40 :: rest)
            = pre' ++ (c :: run) ++ ws ++ chr 40 :: rest).
  { destruct (lstrip_app pre ((c :: run) ++ ws ++ chr 40 :: rest))
      as [[a [b [Hab [_ Hl]]]] | Hl].
    - exists b. split; [|exact Hl]. subst pre. exact (boundary_suffix a b Hb).
    - exists []. split; [left; reflexivity|]. rewrite Hl. simpl.
      rewrite (word_not_space c Hc). reflexivity. }
  destruct Hl as [pre' [Hb' Hl]]. rewrite Hl.
  replace (pre' ++ (c :: run) ++ ws ++ chr 40 :: rest)
    with ((pre' ++ (c :: run) ++ ws) ++ chr 40 :: rest)
    by (rewrite <- !app_assoc; reflexivity).
  unfold rstrip. rewrite rev_app_distr.
  change (rev (chr 40 :: rest)) with (rev rest ++ [chr 40]).
  rewrite <- app_assoc. cbn [app].
  destruct (lstrip_app (rev rest) (chr 40 :: rev (pre' ++ c :: run ++ ws)))
    as [[a [b [Hab [_ Hr]]]] | Hr]; rewrite Hr.
  - exists pre', (rev b). split; [exact Hb'|].
    rewrite rev_app_distr. simpl. rewrite rev_involutive, <- !app_assoc. simpl.
    rewrite <- !app_assoc. reflexivity.
  - exists pre', []. split; [exact Hb'|].
    simpl. rewrite rev_involutive, <- !app_assoc. simpl.
    rewrite <- !app_assoc. reflexivity.
Qed.

End ValidatorProofs.

Module ValidatorClaims.
Import Validators ValidatorProofs.

(** C6: a pattern whose stripped form has exactly 500 characters, compiles
    and passes the four backtracking checks is accepted (the stripped
    pattern is returned); a pattern whose stripped form has 501 or more
    characters is rejected with the length error. *)
Theorem validate_regex_length_boundary : forall re_compiles : pystr -> bool,
  (forall p,
     List.length (strip p) = 500 ->
     re_compiles (strip p) = true ->
     has_nested_quantifier (strip p) = false ->
     has_overlapping_alternation (strip p) = false ->
     has_quantified_alternation (strip p) = false ->
     quantifier_count (strip p) <= 5 ->
     validate_regex_pattern re_compiles p = Ok (strip p))
  /\
  (forall p, 501 <= List.length (strip p) ->
     validate_regex_pattern re_compiles p = Err ErrLength).
Proof.
  intros re_compiles. split.
  - intros p Hlen Hc H1 H2 H3 H4.
    destruct p as [|a p]; [rewrite strip_nil in Hlen; discriminate|].
    unfold validate_regex_pattern. cbv zeta.
    rewrite Hlen, Hc, H1, H2, H3. simpl.
    unfold MAX_REGEX_QUANTIFIERS.
    destruct (Nat.ltb_spec 5 (quantifier_count (strip (a :: p)))); [lia|].
    reflexivity.
  - intros p Hlen.
    destruct p as [|a p]; [rewrite strip_nil in Hlen; simpl in Hlen; lia|].
    unfold validate_regex_pattern. cbv zeta. unfold MAX_REGEX_PATTERN_LENGTH.
    destruct (Nat.ltb_spec 500 (List.length (strip (a :: p)))); [reflexivity|lia].
Qed.

Definition a500 : pystr := repeat "a"%char 500.
Definition a501 : pystr := repeat "a"%char 501.

Lemma validate_regex_length_boundary_witness :
  List.length (strip a500) = 500 /\ has_nested_quantifier (strip a500) = false
  /\ has_overlapping_alternation (strip a500) = false
  /\ has_quantified_alternation (strip a500) = false
  /\ quantifier_count (strip a500) <= 5
  /\ validate_regex_pattern (fun _ => true) a500 = Ok (strip a500)
  /\ 501 <= List.length (strip a501)
  /\ validate_regex_pattern (fun _ => true) a501 = Err ErrLength.
Proof.
  assert (H5 : quantifier_count (strip a500) = 0) by (vm_compute; reflexivity).
  assert (L : List.length (strip a501) = 501) by (vm_compute; reflexivity).
  split; [vm_compute; reflexivity|]. split; [vm_compute; reflexivity|].
  split; [vm_compute; reflexivity|]. split; [vm_compute; reflexivity|].
  split; [rewrite H5; lia|]. split.
  - apply (proj1 (validate_regex_length_boundary (fun _ => true)));
      first [reflexivity | vm_compute; reflexivity | rewrite H5; lia].
  - split; [rewrite L; lia|].
    apply (proj2 (validate_regex_length_boundary (fun _ => true))). rewrite L. lia.
Defined.

(** The XPath 1.0 name characters (NCName) in ASCII: letters, digits,
    [.], [-] and [_]. A name followed by [(] after a [[] is a FunctionName
    (XPath 1.0, section 3.7). *)
Definition is_ncname_char (c : ascii) : bool :=
  isalpha c || isdigit c || is_char c 46 || is_char c 45 || is_char c 95.

(** C7 (failing input): in [//a[x.concat('b')]] the function called is
    [x.concat], a name outside the whitelist, yet the validator accepts
    the expression, against its docstring: its scan for [[\w-]] runs
    before [(] finds only [concat]. *)
Lemma xpath_dotted_call_accepted :
  s "//a[x.concat('b')]" = s "//a[" ++ s "x.concat" ++ "("%char :: s "'b')]"
  /\ forallb is_ncname_char (s "x.concat") = true
  /\ str_in (s "x.concat") ALLOWED_XPATH_FUNCTIONS = false
  /\ validate_xpath_query (s "//a[x.concat('b')]") = Ok (s "//a[x.concat('b')]").
Proof. repeat split; vm_compute; reflexivity. Qed.

(** C7 (what the check does catch): the validator rejects every
    expression holding a call site made of a [\w] character and a run of
    [[\w-]] characters, not preceded by a [[\w-]] character, followed by optional whitespace and
    [(], whose name is not whitelisted; so [document('x.xml')] is
    rejected, while [//div[contains(@class,'a')]] is accepted. *)
Theorem validate_xpath_rejects_unlisted_call :
  (forall x pre c run ws rest,
     x = pre ++ (c :: run) ++ ws ++ "("%char :: rest ->
     boundary pre ->
     is_word c = true ->
     forallb is_word_or_dash run = true ->
     forallb isspace ws = true ->
     str_in (c :: run) ALLOWED_XPATH_FUNCTIONS = false ->
     exists e, validate_xpath_query x = Err e)
  /\ validate_xpath_query (s "document('x.xml')") = Err (ErrFunction (s "document"))
  /\ validate_xpath_query (s "//div[contains(@class,'a')]")
     = Ok (s "//div[contains(@class,'a')]").
Proof.
  split; [|split; vm_compute; reflexivity].
  intros x pre c run ws rest Hx Hb Hc Hrun Hws Hname.
  change "("%char with (chr 40) in Hx.
  destruct (strip_call_site x pre c run ws rest Hx Hb Hc) as [pre' [rest' [Hb' Hs]]].
  assert (Hin : In (c :: run) (found_functions (strip x))).
  { unfold found_functions. rewrite Hs.
    apply (call_site_reached c run ws rest' Hc Hrun Hws (List.length pre')); auto. }
  destruct (find_some_in (fun n => negb (str_in n ALLOWED_XPATH_FUNCTIONS))
              (found_functions (strip x)) (c :: run) Hin) as [m Hm];
    [rewrite Hname; reflexivity|].
  destruct x as [|a x']; [destruct pre; discriminate|].
  unfold validate_xpath_query. cbv zeta.
  destruct (MAX_XPATH_LENGTH <? List.length (strip (a :: x'))); [eauto|].
  unfold first_disallowed. rewrite Hm. eauto.
Qed.

Lemma validate_xpath_rejects_unlisted_call_witness :
  boundary [] /\ is_word "d"%char = true
  /\ forallb is_word_or_dash (s "ocument") = true
  /\ str_in (s "document") ALLOWED_XPATH_FUNCTIONS = false
  /\ exists e, validate_xpath_query (s "document('x.xml')") = Err e.
Proof.
  split; [left; reflexivity|]. split; [reflexivity|]. split; [reflexivity|].
  split; [vm_compute; reflexivity|].
  apply (proj1 validate_xpath_rejects_unlisted_call
           (s "document('x.xml')") [] "d"%char (s "ocument") [] (s "'x.xml')"));
    first [reflexivity | left; reflexivity | vm_compute; reflexivity].
Defined.

End ValidatorClaims.

(** ** SSRF guard *)
Module SsrfClaims.
Import Validators UrlParse UrlValidators.
Local Open Scope Z_scope.

(** A resolver and an address parser for two hosts: [example.com] at the
    public 93.184.216.34 and [metadata.internal] at the link-local
    169.254.169.254. *)
Definition known_ip (x : pystr) : option ip_addr :=
  if str_eqb x (s "93.184.216.34") then Some (IPv4 (ipv4 93 184 216 34))
  else if str_eqb x (s "169.254.169.254") then Some (IPv4 (ipv4 169 254 169 254))
  else None.

Definition resolve (host : pystr) : gai_result :=
  if str_eqb host (s "example.com") then GaiOk [s "93.184.216.34"]
  else if str_eqb host (s "metadata.internal") then GaiOk [s "169.254.169.254"]
  else if str_eqb host (s "a.localhost") then GaiOk [s "93.184.216.34"]
  else if str_eqb host (s "a..com") then GaiRaise
  else GaiError.

Definition no_check (_ : pystr) : bool := true.


Section Guard.
Variable ip_address : pystr -> option ip_addr.
Variable getaddrinfo : pystr -> gai_result.
Variable bracketed_netloc_ok nfkc_netloc_ok : pystr -> bool.





End Guard.



End SsrfClaims.

(** ** [urllib.parse] round trip *)
Module UrlProofs.
Import Validators UrlParse UrlValidators.

Lemma break_at_some : forall p x a c b, break_at p x = (a, Some (c, b)) ->
  x = a ++ c :: b /\ forallb (fun d => negb (p d)) a = true /\ p c = true.
Proof.
  intros p x. induction x as [|d x IH]; simpl; intros a c b H; [discriminate|].
  destruct (p d) eqn:Hd.
  - injection H as <- -> ->. auto.
  - destruct (break_at p x) as [a' r] eqn:E. injection H as <- ->.
    destruct (IH a' c b eq_refl) as [-> [Ha Hc]]. simpl. rewrite Hd, Ha. auto.
Qed.

Lemma break_at_none : forall p x a, break_at p x = (a, None) ->
  x = a /\ forallb (fun d => negb (p d)) a = true.
Proof.
  intros p x. induction x as [|d x IH]; simpl; intros a H.
  - injection H as <-. auto.
  - destruct (p d) eqn:Hd; [discriminate|].
    destruct (break_at p x) as [a' r] eqn:E. injection H as <- ->.
    destruct (IH a' eq_refl) as [-> Ha]. simpl. rewrite Hd, Ha. auto.
Qed.

Lemma break_at_app_some : forall p a c b,
  forallb (fun d => negb (p d)) a = true -> p c = true ->
  break_at p (a ++ c :: b) = (a, Some (c, b)).
Proof.
  intros p a c b Ha Hc. induction a as [|d a IH]; simpl in *.
  - rewrite Hc. reflexivity.
  - apply andb_prop in Ha as [Hd Ha]. apply Bool.negb_true_iff in Hd.
    rewrite Hd, (IH Ha). reflexivity.
Qed.

Lemma break_at_all : forall p a,
  forallb (fun d => negb (p d)) a = true -> break_at p a = (a, None).
Proof.
  intros p a Ha. induction a as [|d a IH]; simpl in *; [reflexivity|].
  apply andb_prop in Ha as [Hd Ha]. apply Bool.negb_true_iff in Hd.
  rewrite Hd, (IH Ha). reflexivity.
Qed.

Lemma forallb_app_iff : forall (f : ascii -> bool) a b,
  forallb f (a ++ b) = true <-> forallb f a = true /\ forallb f b = true.
Proof. intros. rewrite forallb_app. apply andb_true_iff. Qed.

Lemma forallb_weaken : forall (f g : ascii -> bool) x,
  (forall c, f c = true -> g c = true) -> forallb f x = true -> forallb g x = true.
Proof.
  intros f g x H. induction x as [|c x IH]; simpl; [auto|].
  intro Hx. apply andb_prop in Hx as [Hc Hx]. rewrite (H c Hc). auto.
Qed.

Lemma mem_false_forallb : forall c x, mem c x = false <->
  forallb (fun d => negb (Ascii.eqb c d)) x = true.
Proof.
  intros c x. unfold mem. induction x as [|d x IH]; simpl; [tauto|].
  destruct (Ascii.eqb c d); simpl; [split; discriminate|exact IH].
Qed.

Lemma is_c_eqb : forall n d, n < 256 -> is_c n d = Ascii.eqb (chr n) d.
Proof.
  intros n d Hn. unfold is_c, code, chr.
  destruct (Ascii.eqb (ascii_of_nat n) d) eqn:E.
  - apply Ascii.eqb_eq in E. subst d. rewrite nat_ascii_embedding by exact Hn.
    apply Nat.eqb_refl.
  - apply Nat.eqb_neq. intro H. rewrite <- H, ascii_nat_embedding in E.
    rewrite Ascii.eqb_refl in E. discriminate.
Qed.

Lemma forallb_rev : forall (f : ascii -> bool) x, forallb f (rev x) = forallb f x.
Proof.
  intros f x. induction x as [|c x IH]; simpl; [reflexivity|].
  rewrite forallb_app, IH. simpl. rewrite andb_true_r, andb_comm. reflexivity.
Qed.

Lemma is_c_chr : forall n d, n < 256 -> is_c n d = true -> d = chr n.
Proof.
  intros n d Hn H. rewrite is_c_eqb in H by exact Hn.
  apply Ascii.eqb_eq in H. auto.
Qed.

Lemma is_c_chr_self : forall n, n < 256 -> is_c n (chr n) = true.
Proof. intros n Hn. rewrite is_c_eqb by exact Hn. apply Ascii.eqb_refl. Qed.

Lemma mem_is_c : forall n x, n < 256 ->
  mem (chr n) x = negb (forallb (fun d => negb (is_c n d)) x).
Proof.
  intros n x Hn. induction x as [|c x IH]; simpl; [reflexivity|].
  rewrite IH, is_c_eqb by exact Hn. destruct (Ascii.eqb (chr n) c); reflexivity.
Qed.

Lemma last_slash : forall x, mem (chr 47) x = true ->
  exists A B, x = A ++ chr 47 :: B /\ forallb (fun d => negb (is_c 47 d)) B = true.
Proof.
  intros x Hm. destruct (break_at (is_c 47) (rev x)) as [rb [[c ra]|]] eqn:E.
  - apply break_at_some in E as [Hx [Hrb Hc]].
    apply is_c_chr in Hc; [|lia]. subst c.
    exists (rev ra), (rev rb). split.
    + rewrite <- (rev_involutive x), Hx, rev_app_distr. simpl.
      rewrite <- app_assoc. reflexivity.
    + rewrite forallb_rev. exact Hrb.
  - apply break_at_none in E as [Hx Hrb].
    rewrite mem_is_c in Hm by lia. rewrite <- Hx, forallb_rev in Hrb.
    rewrite Hrb in Hm. discriminate.
Qed.

Lemma splitparams_spec : forall A B,
  forallb (fun d => negb (is_c 47 d)) B = true ->
  splitparams (A ++ chr 47 :: B) =
  match break_at (is_c 59) B with
  | (B1, Some (_, B2)) => (A ++ chr 47 :: B1, B2)
  | (_, None) => (A ++ chr 47 :: B, [])
  end.
Proof.
  intros A B HB. unfold splitparams.
  replace (mem (chr 47) (A ++ chr 47 :: B)) with true.
  2:{ symmetry. unfold mem. apply existsb_exists. exists (chr 47).
      split; [apply in_or_app; right; left; reflexivity | apply Ascii.eqb_refl]. }
  rewrite rev_app_distr. simpl. rewrite <- app_assoc. simpl.
  rewrite break_at_app_some;
    [| rewrite forallb_rev; exact HB | apply is_c_chr_self; lia].
  rewrite !rev_involutive. reflexivity.
Qed.

Lemma splitparams_idem : forall x t, x = chr 47 :: t ->
  forall a b, splitparams x = (a, b) ->
  splitparams (rebuild a b) = (a, b)
  /\ (exists t', a = chr 47 :: t')
  /\ (forall f, forallb f x = true -> forallb f a = true /\ forallb f b = true).
Proof.
  intros x t Hx a b Hs.
  assert (Hm : mem (chr 47) x = true) by (rewrite Hx; reflexivity).
  destruct (last_slash x Hm) as [A [B [HxAB HB]]].
  assert (Ha : forall B1, exists t', A ++ chr 47 :: B1 = chr 47 :: t').
  { intro B1. destruct A as [|d A']; [exists B1; reflexivity|].
    assert (Hd : d = chr 47) by (rewrite HxAB in Hx; exact (f_equal (hd d) Hx)).
    rewrite Hd. eexists. reflexivity. }
  rewrite HxAB in Hs |- *. clear Hx HxAB Hm.
  rewrite splitparams_spec in Hs by exact HB.
  destruct (break_at (is_c 59) B) as [B1 [[c B2]|]] eqn:E.
  - apply break_at_some in E as [HBe [HB1 Hc]].
    apply is_c_chr in Hc; [|lia]. subst c B.
    injection Hs as <- <-.
    apply forallb_app_iff in HB as [HB1s HB2s]. simpl in HB2s.
    split; [|split; [apply Ha|]].
    + unfold rebuild. destruct B2 as [|d B2'] eqn:HB2; simpl.
      * rewrite app_nil_r. rewrite splitparams_spec by exact HB1s.
        rewrite break_at_all by exact HB1. reflexivity.
      * rewrite <- app_assoc. simpl.
        rewrite splitparams_spec
          by (apply forallb_app_iff; split; [exact HB1s|exact HB2s]).
        rewrite break_at_app_some by (exact HB1 || (apply is_c_chr_self; lia)).
        reflexivity.
    + intros f Hf. apply forallb_app_iff in Hf as [HA Hf]. simpl in Hf.
      apply andb_prop in Hf as [H47 Hf]. apply forallb_app_iff in Hf as [HB1f Hf].
      simpl in Hf. apply andb_prop in Hf as [_ HB2f].
      split; [|exact HB2f]. apply forallb_app_iff. split; [exact HA|].
      simpl. rewrite H47, HB1f. reflexivity.
  - apply break_at_none in E as [<- HB1].
    injection Hs as <- <-.
    split; [|split; [apply Ha|]].
    + unfold rebuild. simpl. rewrite app_nil_r, splitparams_spec by exact HB.
      rewrite break_at_all by exact HB1. reflexivity.
    + intros f Hf. split; [exact Hf|reflexivity].
Qed.

Lemma split_once_spec : forall n x a b, split_once n x = (a, b) ->
  forallb (fun d => negb (is_c n d)) a = true /\
  ((x = a /\ b = []) \/ (exists c, x = a ++ c :: b /\ is_c n c = true)).
Proof.
  intros n x a b H. unfold split_once in H.
  destruct (break_at (is_c n) x) as [a' [[c b']|]] eqn:E; injection H as <- <-.
  - apply break_at_some in E as [Hx [Ha Hc]]. split; [exact Ha|]. right. eauto.
  - apply break_at_none in E as [Hx Ha]. split; [exact Ha|]. left. auto.
Qed.

Lemma splitnetloc_spec : forall rest netloc url, splitnetloc rest = (netloc, url) ->
  forallb (fun d => negb (netloc_delim d)) netloc = true /\ rest = netloc ++ url /\
  (url = [] \/ exists c t, url = c :: t /\ netloc_delim c = true).
Proof.
  intros rest netloc url H. unfold splitnetloc in H.
  destruct (break_at netloc_delim rest) as [a [[c b]|]] eqn:E;
    injection H as <- <-.
  - apply break_at_some in E as [Hx [Ha Hc]]. split; [exact Ha|]. split; [exact Hx|].
    right. eauto.
  - apply break_at_none in E as [Hx Ha]. split; [exact Ha|].
    split; [rewrite app_nil_r; auto|]. left. reflexivity.
Qed.

Lemma forallb_filter_self : forall (f : ascii -> bool) x, forallb f (filter f x) = true.
Proof.
  intros f x. induction x as [|c x IH]; simpl; [reflexivity|].
  destruct (f c) eqn:Hc; simpl; [rewrite Hc|]; auto.
Qed.

Lemma split_scheme_suffix : forall url scheme rest, split_scheme url = (scheme, rest) ->
  exists pre, url = pre ++ rest.
Proof.
  intros url scheme rest H. unfold split_scheme in H.
  destruct (break_at (is_c 58) url) as [pre [[c post]|]] eqn:E; cbv beta iota in H.
  - apply break_at_some in E as [Hx _].
    destruct pre as [|d pre']; cbv beta iota in H;
      [injection H as _ <-; exists []; reflexivity|].
    destruct (isalpha d && forallb scheme_char (d :: pre')); injection H as _ <-.
    + exists ((d :: pre') ++ [c]). rewrite Hx, <- app_assoc. reflexivity.
    + exists []. reflexivity.
  - injection H as _ <-. exists []. reflexivity.
Qed.

Lemma forallb_suffix : forall (f : ascii -> bool) pre x,
  forallb f (pre ++ x) = true -> forallb f x = true.
Proof. intros f pre x H. apply forallb_app_iff in H. tauto. Qed.

Section Shape.
Variable bracketed_netloc_ok nfkc_netloc_ok : pystr -> bool.

Lemma urlsplit_shape : forall x r,
  urlsplit bracketed_netloc_ok nfkc_netloc_ok x = Some r ->
  netloc_checks bracketed_netloc_ok nfkc_netloc_ok (sr_netloc r) = true /\
  forallb netloc_char_ok (sr_netloc r) = true /\
  (sr_netloc r <> [] -> sr_path r = [] \/ exists t, sr_path r = chr 47 :: t) /\
  forallb path_char_ok (sr_path r) = true /\
  forallb query_char_ok (sr_query r) = true.
Proof.
  intros x r H. unfold urlsplit in H.
  set (url1 := remove_unsafe (lstrip_c0 x)) in H.
  assert (H1 : forallb (fun c => negb (unsafe_byte c)) url1 = true)
    by apply forallb_filter_self.
  destruct (split_scheme url1) as [scheme url2] eqn:Es.
  destruct (split_scheme_suffix _ _ _ Es) as [pre Hpre].
  assert (H2 : forallb (fun c => negb (unsafe_byte c)) url2 = true)
    by (rewrite Hpre in H1; exact (forallb_suffix _ _ _ H1)).
  (* the netloc step, as in the source *)
  assert (Hn : exists netloc url3,
    (match url2 with
     | c1 :: c2 :: rest => if is_c 47 c1 && is_c 47 c2 then splitnetloc rest else ([], url2)
     | _ => ([], url2)
     end) = (netloc, url3) /\
    forallb (fun d => negb (netloc_delim d) && negb (unsafe_byte d)) netloc = true /\
    forallb (fun c => negb (unsafe_byte c)) url3 = true /\
    (netloc <> [] -> url3 = [] \/ exists c t, url3 = c :: t /\ netloc_delim c = true)).
  { destruct url2 as [|c1 [|c2 rest]];
      try (eexists; eexists; split; [reflexivity|]; split; [reflexivity|];
           split; [assumption|]; intro Hc; exfalso; apply Hc; reflexivity).
    destruct (is_c 47 c1 && is_c 47 c2).
    - destruct (splitnetloc rest) as [netloc url3] eqn:Esn.
      destruct (splitnetloc_spec _ _ _ Esn) as [Hnd [Hrest Hurl]].
      exists netloc, url3. split; [reflexivity|].
      simpl in H2. apply andb_prop in H2 as [_ H2]. apply andb_prop in H2 as [_ H2].
      rewrite Hrest in H2. apply forallb_app_iff in H2 as [Hnu Hu3].
      split; [|split; [exact Hu3|intros _; exact Hurl]].
      rewrite forallb_forall in *. intros d Hd.
      rewrite Hnd, Hnu by exact Hd. reflexivity.
    - exists [], (c1 :: c2 :: rest). split; [reflexivity|].
      split; [reflexivity|]. split; [exact H2|]. intro Hc; exfalso; apply Hc; reflexivity. }
  destruct Hn as [netloc [url3 [Hn [Hnl [Hu3 Hhead]]]]]. rewrite Hn in H.
  destruct (split_once 35 url3) as [url4 fragment] eqn:E4.
  destruct (split_once 63 url4) as [url5 query] eqn:E5.
  destruct (netloc_checks bracketed_netloc_ok nfkc_netloc_ok netloc) eqn:Ec;
    [|discriminate].
  injection H as <-. simpl.
  destruct (split_once_spec _ _ _ _ E4) as [H4a H4b].
  destruct (split_once_spec _ _ _ _ E5) as [H5a H5b].
  assert (Hu4 : forallb (fun c => negb (unsafe_byte c)) url4 = true).
  { destruct H4b as [[<- _] | [c [Hx _]]]; [exact Hu3|].
    rewrite Hx in Hu3. apply forallb_app_iff in Hu3. tauto. }
  assert (Hsub5 : forallb (fun c => negb (is_c 35 c)) url5 = true /\
                  forallb (fun c => negb (unsafe_byte c)) url5 = true /\
                  forallb (fun c => negb (is_c 35 c)) query = true /\
                  forallb (fun c => negb (unsafe_byte c)) query = true).
  { destruct H5b as [[<- ->] | [c [Hx _]]]; [auto|].
    rewrite Hx in H4a, Hu4.
    apply forallb_app_iff in H4a as [A1 A2]. apply forallb_app_iff in Hu4 as [B1 B2].
    simpl in A2, B2. apply andb_prop in A2 as [_ A2]. apply andb_prop in B2 as [_ B2].
    auto. }
  destruct Hsub5 as [P1 [P2 [Q1 Q2]]].
  split; [exact Ec|]. split.
  { rewrite forallb_forall in *. intros d Hd. specialize (Hnl d Hd).
    unfold netloc_char_ok, netloc_delim in *.
    destruct (is_c 47 d), (is_c 63 d), (is_c 35 d), (unsafe_byte d); simpl in *;
      congruence. }
  split; [|split].
  - intro Hne. destruct url5 as [|h t]; [left; reflexivity|]. right.
    destruct (Hhead Hne) as [Hu | [c [t3 [Hu Hdc]]]].
    + subst url3. destruct H4b as [[<- _] | [c [Hx _]]];
        [destruct H5b as [[Hx _] | [c [Hx _]]]; discriminate|].
      destruct url4; discriminate.
    + assert (Hh4 : exists t4, url4 = h :: t4).
      { destruct H5b as [[Hx _] | [c' [Hx _]]]; rewrite Hx; simpl; eexists; reflexivity. }
      destruct Hh4 as [t4 Ht4].
      assert (Hch : c = h).
      { subst url3. destruct H4b as [[Hx _] | [c' [Hx _]]].
        - rewrite Ht4 in Hx. injection Hx as Hx _. exact Hx.
        - rewrite Ht4 in Hx. injection Hx as Hx _. exact Hx. }
      subst c. exists t. f_equal.
      simpl in P1, H5a. apply andb_prop in P1 as [P1 _]. apply andb_prop in H5a as [H5a _].
      rewrite Ht4 in H4a. simpl in H4a. apply andb_prop in H4a as [H4h _].
      unfold netloc_delim in Hdc.
      apply Bool.negb_true_iff in H5a. apply Bool.negb_true_iff in H4h.
      rewrite H5a, H4h in Hdc. simpl in Hdc. rewrite orb_false_r in Hdc.
      apply is_c_chr; [lia|]. destruct (is_c 47 h); [reflexivity|discriminate].
  - rewrite forallb_forall in *. intros d Hd.
    unfold path_char_ok.
    specialize (P1 d Hd). specialize (P2 d Hd). specialize (H5a d Hd).
    destruct (is_c 63 d), (is_c 35 d), (unsafe_byte d); simpl in *; congruence.
  - rewrite forallb_forall in *. intros d Hd. unfold query_char_ok.
    specialize (Q1 d Hd). specialize (Q2 d Hd).
    destruct (is_c 35 d), (unsafe_byte d); simpl in *; congruence.
Qed.

End Shape.

Lemma str_in_In : forall x l, str_in x l = true -> In x l.
Proof.
  intros x l H. unfold str_in in H. apply existsb_exists in H as [y [Hy He]].
  apply str_eqb_eq in He. subst. exact Hy.
Qed.

Lemma filter_id : forall (f : ascii -> bool) x, forallb f x = true -> filter f x = x.
Proof.
  intros f x H. induction x as [|c x IH]; simpl in *; [reflexivity|].
  apply andb_prop in H as [Hc H]. rewrite Hc, (IH H). reflexivity.
Qed.

Lemma urlunparse_normal : forall sch net P params q,
  In sch normal_schemes -> nonempty net = true -> (exists t, P = chr 47 :: t) ->
  urlunparse sch net P params q [] =
  sch ++ chr 58 :: chr 47 :: chr 47 ::
    net ++ rebuild P params ++ (if nonempty q then chr 63 :: q else []).
Proof.
  intros sch net P params q Hs Hn [t ->].
  unfold urlunparse, urlunsplit, rebuild. rewrite Hn.
  destruct (nonempty params), (nonempty q);
    destruct Hs as [<-|[<-|[<-|[]]]]; cbn;
    try (match goal with |- context [?b =? 47] => replace (b =? 47) with true by reflexivity end);
    rewrite <- ?app_assoc; cbn [app]; rewrite <- ?app_assoc, ?app_nil_r; reflexivity.
Qed.

Lemma lstrip_c0_normal : forall sch rest, In sch normal_schemes ->
  lstrip_c0 (sch ++ rest) = sch ++ rest.
Proof. intros sch rest Hs. destruct Hs as [<-|[<-|[<-|[]]]]; reflexivity. Qed.

Lemma split_scheme_normal : forall sch rest, In sch normal_schemes ->
  split_scheme (sch ++ chr 58 :: rest) = (sch, rest).
Proof. intros sch rest Hs. destruct Hs as [<-|[<-|[<-|[]]]]; reflexivity. Qed.

Lemma normal_uses_params : forall sch, In sch normal_schemes -> str_in sch uses_params = true.
Proof. intros sch Hs. destruct Hs as [<-|[<-|[<-|[]]]]; reflexivity. Qed.

Lemma nonempty_nil : forall x : pystr, nonempty x = false -> x = [].
Proof. intros [|c x] H; [reflexivity|discriminate]. Qed.

Lemma mem_rebuild : forall a b, nonempty b = true -> mem (chr 59) (rebuild a b) = true.
Proof.
  intros a b Hb. unfold rebuild. rewrite Hb. unfold mem. apply existsb_exists.
  exists (chr 59). split; [apply in_or_app; right; left; reflexivity|apply Ascii.eqb_refl].
Qed.

Lemma rebuild_nil : forall a, rebuild a [] = a.
Proof. intro a. unfold rebuild. apply app_nil_r. Qed.

Lemma path_char_ok_rebuild : forall P params,
  forallb path_char_ok P = true -> forallb path_char_ok params = true ->
  forallb path_char_ok (rebuild P params) = true.
Proof.
  intros P params HP Hp. unfold rebuild. apply forallb_app_iff. split; [exact HP|].
  destruct (nonempty params); [|reflexivity]. simpl. exact Hp.
Qed.

Lemma query_part_ok : forall q, forallb query_char_ok q = true ->
  forallb query_char_ok (if nonempty q then chr 63 :: q else []) = true.
Proof. intros q Hq. destruct (nonempty q); [simpl; exact Hq|reflexivity]. Qed.

Lemma urlsplit_normal : forall bok nok sch net P params q,
  In sch normal_schemes ->
  netloc_checks bok nok net = true ->
  forallb netloc_char_ok net = true ->
  (exists t, P = chr 47 :: t) ->
  forallb path_char_ok P = true -> forallb path_char_ok params = true ->
  forallb query_char_ok q = true ->
  urlsplit bok nok (sch ++ chr 58 :: chr 47 :: chr 47 ::
    net ++ rebuild P params ++ (if nonempty q then chr 63 :: q else [])) =
  Some {| sr_scheme := sch; sr_netloc := net; sr_path := rebuild P params;
          sr_query := q; sr_fragment := [] |}.
Proof.
  intros bok nok sch net P params q Hs Hc Hn [t HP] HPc Hpc Hq.
  set (R := rebuild P params). set (Q := if nonempty q then chr 63 :: q else []).
  assert (HR : forallb path_char_ok R = true) by (apply path_char_ok_rebuild; assumption).
  assert (HQ : forallb query_char_ok Q = true) by (apply query_part_ok; exact Hq).
  assert (Hu : exists u, R ++ Q = chr 47 :: u).
  { unfold R, rebuild. rewrite HP. eexists. reflexivity. }
  destruct Hu as [u Hu].
  assert (Hsafe : forallb (fun c => negb (unsafe_byte c))
    (sch ++ chr 58 :: chr 47 :: chr 47 :: net ++ R ++ Q) = true).
  { apply forallb_app_iff. split; [destruct Hs as [<-|[<-|[<-|[]]]]; reflexivity|].
    change (forallb (fun c => negb (unsafe_byte c)) (net ++ R ++ Q) = true).
    apply forallb_app_iff. split.
    - revert Hn. apply forallb_weaken. intros c. unfold netloc_char_ok.
      destruct (unsafe_byte c); rewrite ?orb_true_r; simpl; auto.
    - apply forallb_app_iff. split.
      + revert HR. apply forallb_weaken. intros c. unfold path_char_ok.
        destruct (unsafe_byte c); rewrite ?orb_true_r; simpl; auto.
      + revert HQ. apply forallb_weaken. intros c. unfold query_char_ok.
        destruct (unsafe_byte c); rewrite ?orb_true_r; simpl; auto. }
  unfold urlsplit, remove_unsafe.
  rewrite lstrip_c0_normal by exact Hs. rewrite filter_id by exact Hsafe.
  rewrite split_scheme_normal by exact Hs.
  cbv beta iota. rewrite (is_c_chr_self 47) by lia. cbn [andb].
  unfold splitnetloc. rewrite Hu.
  rewrite break_at_app_some.
  2:{ revert Hn. apply forallb_weaken. intros c. unfold netloc_char_ok, netloc_delim.
      destruct (is_c 47 c || is_c 63 c || is_c 35 c); simpl; auto. }
  2:{ unfold netloc_delim. rewrite (is_c_chr_self 47) by lia. reflexivity. }
  cbv beta iota. rewrite <- Hu.
  unfold split_once. rewrite (break_at_all (is_c 35)).
  2:{ apply forallb_app_iff. split.
      - revert HR. apply forallb_weaken. intros c. unfold path_char_ok.
        destruct (is_c 35 c); rewrite ?orb_true_r; simpl; auto.
      - revert HQ. apply forallb_weaken. intros c. unfold query_char_ok.
        destruct (is_c 35 c); simpl; auto. }
  cbv beta iota.
  assert (HR63 : forallb (fun d => negb (is_c 63 d)) R = true).
  { revert HR. apply forallb_weaken. intros c. unfold path_char_ok.
    destruct (is_c 63 c); simpl; auto. }
  unfold Q. destruct (nonempty q) eqn:Eq.
  - rewrite break_at_app_some by (exact HR63 || (apply is_c_chr_self; lia)).
    cbv beta iota. rewrite Hc. reflexivity.
  - rewrite app_nil_r, (break_at_all _ _ HR63). apply nonempty_nil in Eq. subst q.
    cbv beta iota. rewrite Hc. reflexivity.
Qed.

Lemma urlparse_normal : forall bok nok sch net P params q,
  In sch normal_schemes -> nonempty net = true ->
  netloc_checks bok nok net = true ->
  forallb netloc_char_ok net = true ->
  (exists t, P = chr 47 :: t) ->
  forallb path_char_ok P = true -> forallb path_char_ok params = true ->
  forallb query_char_ok q = true ->
  (if mem (chr 59) (rebuild P params) then splitparams (rebuild P params) = (P, params)
   else params = []) ->
  urlparse bok nok (urlunparse sch net P params q []) =
  Some {| pr_scheme := sch; pr_netloc := net; pr_path := P; pr_params := params;
          pr_query := q; pr_fragment := [] |}.
Proof.
  intros bok nok sch net P params q Hs Hne Hc Hn HP HPc Hpc Hq Hsp.
  rewrite urlunparse_normal by assumption.
  unfold urlparse. rewrite urlsplit_normal by assumption.
  cbn [sr_scheme sr_netloc sr_path sr_query sr_fragment].
  rewrite normal_uses_params by exact Hs. cbn [andb].
  destruct (mem (chr 59) (rebuild P params)).
  - rewrite Hsp. reflexivity.
  - subst params. rewrite rebuild_nil. reflexivity.
Qed.

Lemma allowed_normal : forall allow sch,
  str_in sch (allowed_schemes allow) = true -> In sch normal_schemes.
Proof.
  intros allow sch H. apply str_in_In in H. unfold allowed_schemes, normal_schemes in *.
  destruct allow; simpl in *; tauto.
Qed.

Lemma validate_url_normal : forall bok nok allow sch net P params q,
  str_in sch (allowed_schemes allow) = true -> nonempty net = true ->
  netloc_checks bok nok net = true ->
  forallb netloc_char_ok net = true ->
  (exists t, P = chr 47 :: t) ->
  forallb path_char_ok P = true -> forallb path_char_ok params = true ->
  forallb query_char_ok q = true ->
  (if mem (chr 59) (rebuild P params) then splitparams (rebuild P params) = (P, params)
   else params = []) ->
  strip (urlunparse sch net P params q []) = urlunparse sch net P params q [] ->
  (List.length (urlunparse sch net P params q []) <= MAX_URL_LENGTH)%nat ->
  validate_url bok nok allow (urlunparse sch net P params q []) =
  Ok (urlunparse sch net P params q []).
Proof.
  intros bok nok allow sch net P params q Ha Hne Hc Hn HP HPc Hpc Hq Hsp Hst Hlen.
  assert (Hs : In sch normal_schemes) by exact (allowed_normal _ _ Ha).
  assert (Hpar := urlparse_normal bok nok sch net P params q Hs Hne Hc Hn HP HPc Hpc Hq Hsp).
  remember (urlunparse sch net P params q []) as n eqn:En.
  destruct n as [|c t].
  { rewrite urlunparse_normal in En by assumption.
    destruct Hs as [<-|[<-|[<-|[]]]]; discriminate. }
  unfold validate_url. cbv zeta. rewrite Hst.
  replace (MAX_URL_LENGTH <? List.length (c :: t))%nat with false
    by (symmetry; apply Nat.ltb_ge; exact Hlen).
  rewrite Hpar. cbn [pr_scheme pr_netloc pr_path pr_params pr_query pr_fragment].
  fold (allowed_schemes allow). rewrite Ha, Hne. destruct HP as [t' ->]. cbn [negb nonempty].
  rewrite En. reflexivity.
Qed.

End UrlProofs.

(** ** URL normalisation by [InputValidator.validate_url] *)
Module UrlClaims.
Import Validators UrlParse UrlValidators UrlProofs SsrfClaims.

(** Claim C10 (counterexample).  Normalisation is not idempotent.  A
    2048-character [http] URL with an empty path is accepted and comes back
    with a [/] appended, 2049 characters long, which [validate_url] then
    rejects for its length.  And [http://a/b #f] normalises to [http://a/b ]
    with a trailing space (the fragment is dropped), which the second call
    strips to [http://a/b]. *)
Lemma validate_url_not_idempotent :
  validate_url no_check no_check false (s "http://" ++ repeat (chr 97) 2041)
    = Ok ((s "http://" ++ repeat (chr 97) 2041) ++ [chr 47]) /\
  validate_url no_check no_check false ((s "http://" ++ repeat (chr 97) 2041) ++ [chr 47])
    = Err ErrLength /\
  validate_url no_check no_check false (s "http://a/b #f") = Ok (s "http://a/b ") /\
  validate_url no_check no_check false (s "http://a/b ") = Ok (s "http://a/b").
Proof. vm_compute. split; [reflexivity|split; [reflexivity|split; reflexivity]]. Qed.

(** Claim C10 (amended).  For every input [u] that [validate_url] accepts
    with the normalised URL [n], and every [allow_sftp] flag: if [n] has no
    surrounding whitespace and is at most [MAX_URL_LENGTH] (2048) characters
    long, then [validate_url] accepts [n] and returns [n] unchanged.  The
    checks on the bracketed host and the NFKC form of the netloc are
    arbitrary. *)
Theorem validate_url_idempotent : forall bok nok allow u n,
  validate_url bok nok allow u = Ok n ->
  strip n = n -> (List.length n <= MAX_URL_LENGTH)%nat ->
  validate_url bok nok allow n = Ok n.
Proof.
  intros bok nok allow u n H Hst Hlen.
  unfold validate_url in H. destruct u as [|c0 u0]; [discriminate|]. cbv zeta in H.
  destruct (MAX_URL_LENGTH <? List.length (strip (c0 :: u0)))%nat; [discriminate|].
  destruct (urlparse bok nok (strip (c0 :: u0))) as [parsed|] eqn:Ep; [|discriminate].
  fold (allowed_schemes allow) in H.
  destruct (str_in (pr_scheme parsed) (allowed_schemes allow)) eqn:Ea; [|discriminate].
  destruct (nonempty (pr_netloc parsed)) eqn:Ene; [|discriminate].
  cbn [negb] in H. injection H as <-.
  unfold urlparse in Ep.
  destruct (urlsplit bok nok (strip (c0 :: u0))) as [r|] eqn:Es; [|discriminate].
  destruct (urlsplit_shape _ _ _ _ Es) as [Hc [Hn [Hhead [HPc Hq]]]].
  destruct (str_in (sr_scheme r) uses_params && mem (chr 59) (sr_path r)) eqn:Eup.
  - destruct (splitparams (sr_path r)) as [a b] eqn:Esp. injection Ep as <-.
    apply andb_prop in Eup as [_ Em].
    cbn [pr_scheme pr_netloc pr_path pr_params pr_query pr_fragment] in *.
    assert (Hpath : exists t, sr_path r = chr 47 :: t).
    { destruct (sr_path r) as [|d t] eqn:Ed; [discriminate|].
      destruct (Hhead ltac:(destruct (sr_netloc r); discriminate)) as [Hx|[t' Hx]];
        [discriminate|]. exists t'. exact Hx. }
    destruct Hpath as [t Ht].
    destruct (splitparams_idem (sr_path r) t Ht a b Esp) as [Hidem [[t' Ha] Hf]].
    destruct (Hf _ HPc) as [Hac Hbc].
    rewrite Ha in *. cbn [nonempty] in *. rewrite <- Ha in *.
    apply validate_url_normal; auto; [exists t'; exact Ha|].
    destruct (mem (chr 59) (rebuild a b)) eqn:Emr; [exact Hidem|].
    destruct b as [|d b]; [reflexivity|].
    rewrite mem_rebuild in Emr by reflexivity. discriminate.
  - injection Ep as <-.
    cbn [pr_scheme pr_netloc pr_path pr_params pr_query pr_fragment] in *.
    rewrite (normal_uses_params _ (allowed_normal _ _ Ea)) in Eup. cbn [andb] in Eup.
    rename Eup into Em.
    destruct (sr_path r) as [|d t] eqn:Ed; cbn [nonempty] in *.
    + apply validate_url_normal; auto; [exists []; reflexivity|]. reflexivity.
    + destruct (Hhead ltac:(destruct (sr_netloc r); discriminate)) as [Hx|[t' Hx]];
        [discriminate|].
      apply validate_url_normal; auto; [exists t'; exact Hx|].
      rewrite rebuild_nil, Em. reflexivity.
Qed.

Lemma validate_url_idempotent_witness :
  validate_url no_check no_check false (s "http://example.com/a;p?b#c")
    = Ok (s "http://example.com/a;p?b") /\
  validate_url no_check no_check false (s "http://example.com/a;p?b")
    = Ok (s "http://example.com/a;p?b").
Proof.
  split; [vm_compute; reflexivity|].
  apply (validate_url_idempotent no_check no_check false (s "http://example.com/a;p?b#c")).
  - vm_compute. reflexivity.
  - vm_compute. reflexivity.
  - apply Nat.leb_le. vm_compute. reflexivity.
Defined.

End UrlClaims.

(** ** Rate limiter *)
Module RateLimiterClaims.
Import UrlParse RateLimiter.
Local Open Scope Z_scope.

Lemma str_eqb_refl : forall k, str_eqb k k = true.
Proof. intro k. apply str_eqb_eq. reflexivity. Qed.

Lemma dict_get_set_same : forall d k v, dict_get (JobRunner.dict_set d k v) k = Some v.
Proof.
  intros d k v. induction d as [|[k' v'] d IH]; simpl.
  - rewrite str_eqb_refl. reflexivity.
  - destruct (str_eqb k k') eqn:E; simpl; rewrite ?str_eqb_refl, ?E; auto.
Qed.

Lemma dict_get_set_other : forall d k v k', k' <> k ->
  dict_get (JobRunner.dict_set d k v) k' = dict_get d k'.
Proof.
  intros d k v k' Hne. induction d as [|[k0 v0] d IH]; simpl.
  - destruct (str_eqb k' k) eqn:E; [apply str_eqb_eq in E; contradiction|reflexivity].
  - destruct (str_eqb k k0) eqn:E; simpl.
    + apply str_eqb_eq in E. subst k0.
      destruct (str_eqb k' k) eqn:E'; [apply str_eqb_eq in E'; contradiction|reflexivity].
    + rewrite IH. reflexivity.
Qed.

Section Sleep.
Variable bracketed_netloc_ok nfkc_netloc_ok : pystr -> bool.
Variable sleep : Z -> Z -> Z.
(** [time.sleep(w)] returns no earlier than [w] after it is called. *)
Hypothesis sleep_at_least : forall c w, 0 < w -> c + w <= sleep c w.

(** Claim C8.  Let [d = min_delay > 0] and let [domain] be [url]'s
    domain.
    - If [domain] has a recorded timestamp [last] with [clk - last < d] at
      the call, [wait_if_needed] returns the wait [d - (clk - last)],
      sleeps exactly that long, and records the clock value [clk'] after
      the sleep, with [last + d <= clk'].  The entries of the other
      domains are unchanged.
    - The wait and the clock on return depend only on [d] and on the entry
      of [domain]: any table that agrees on that entry, whatever it holds
      for other domains, gives the same ones.
    - If the entry of [domain] ([0.0] when absent) is at least [d] before
      [clk], the call returns the wait [0.0] without sleeping, whatever
      the other domains' timestamps are. *)
Theorem wait_if_needed_spacing : forall self url clk domain,
  0 < min_delay self ->
  get_domain bracketed_netloc_ok nfkc_netloc_ok url = Some domain ->
  (forall last,
    dict_get (_last_request_time self) domain = Some last ->
    clk - last < min_delay self ->
    exists self' clk',
    wait_if_needed bracketed_netloc_ok nfkc_netloc_ok sleep self url clk
      = Some (self', min_delay self - (clk - last), clk') /\
    clk' = sleep clk (min_delay self - (clk - last)) /\
    last + min_delay self <= clk' /\
    dict_get (_last_request_time self') domain = Some clk' /\
    min_delay self' = min_delay self /\
    (forall other, other <> domain ->
       dict_get (_last_request_time self') other = dict_get (_last_request_time self) other))
  /\
  (forall table, default_get table domain = default_get (_last_request_time self) domain ->
    option_map (fun r => (snd (fst r), snd r))
      (wait_if_needed bracketed_netloc_ok nfkc_netloc_ok sleep
         {| min_delay := min_delay self; _last_request_time := table |} url clk)
    = option_map (fun r => (snd (fst r), snd r))
      (wait_if_needed bracketed_netloc_ok nfkc_netloc_ok sleep self url clk))
  /\
  (min_delay self <= clk - default_get (_last_request_time self) domain ->
    exists self',
    wait_if_needed bracketed_netloc_ok nfkc_netloc_ok sleep self url clk = Some (self', 0, clk)).
Proof.
  intros self url clk domain Hd Hdom.
  assert (Hle : (min_delay self <=? 0) = false) by (apply Z.leb_gt; exact Hd).
  split; [|split].
  - intros last Hlast Hel.
    assert (Hg : default_get (_last_request_time self) domain = last)
      by (unfold default_get; rewrite Hlast; reflexivity).
    unfold wait_if_needed. rewrite Hle, Hdom, Hg.
    replace (clk - last <? min_delay self) with true by (symmetry; apply Z.ltb_lt; exact Hel).
    eexists. exists (sleep clk (min_delay self - (clk - last))).
    split; [reflexivity|]. split; [reflexivity|]. split.
    + pose proof (sleep_at_least clk (min_delay self - (clk - last))) as Hs. lia.
    + cbn [_last_request_time min_delay]. split; [apply dict_get_set_same|].
      split; [reflexivity|]. intros other Ho. apply dict_get_set_other. exact Ho.
  - intros table Ht. unfold wait_if_needed. cbn [min_delay _last_request_time].
    rewrite Hle, Hdom, Ht.
    destruct (_ <? _); reflexivity.
  - intros Hge. unfold wait_if_needed. rewrite Hle, Hdom.
    replace (clk - default_get (_last_request_time self) domain <? min_delay self) with false
      by (symmetry; apply Z.ltb_ge; exact Hge).
    eexists. reflexivity.
Qed.

End Sleep.

Definition rl_accept (_ : pystr) : bool := true.

Definition rl_limiter : limiter :=
  {| min_delay := 1000; _last_request_time := [(s "a.com", 500); (s "b.com", 1190)] |}.

Lemma wait_if_needed_spacing_witness :
  wait_if_needed rl_accept rl_accept Z.add rl_limiter (s "http://a.com/x") 1200
    = Some ({| min_delay := 1000;
               _last_request_time := [(s "a.com", 1500); (s "b.com", 1190)] |}, 300, 1500) /\
  exists self',
    wait_if_needed rl_accept rl_accept Z.add rl_limiter (s "http://c.com/x") 1200
      = Some (self', 0, 1200).
Proof.
  destruct (wait_if_needed_spacing rl_accept rl_accept Z.add ltac:(intros; lia)
              rl_limiter (s "http://a.com/x") 1200 (s "a.com")
              ltac:(vm_compute; reflexivity) ltac:(vm_compute; reflexivity))
    as [H1 _].
  destruct (H1 500 ltac:(vm_compute; reflexivity) ltac:(vm_compute; reflexivity))
    as [self' [clk' [H _]]].
  split.
  - vm_compute in H. vm_compute. rewrite H. reflexivity.
  - exact (proj2 (proj2 (wait_if_needed_spacing rl_accept rl_accept Z.add ltac:(intros; lia)
              rl_limiter (s "http://c.com/x") 1200 (s "c.com")
              ltac:(vm_compute; reflexivity) ltac:(vm_compute; reflexivity)))
              ltac:(vm_compute; discriminate)).
Defined.

End RateLimiterClaims.


(** * Further properties of the input validators ([src/backend/validators.py]) *)
Module InputCheckProofs.
Import PyStr Validators UrlParse InputChecks.

Lemma lstrip_idem : forall x, lstrip (lstrip x) = lstrip x.
Proof.
  induction x as [|c x IH]; [reflexivity|]. simpl.
  destruct (isspace c) eqn:E; [exact IH|]. simpl. rewrite E. reflexivity.
Qed.

Lemma lstrip_suffix : forall x, exists p, x = p ++ lstrip x.
Proof.
  induction x as [|c x [p Hp]]; [exists []; reflexivity|]. simpl.
  destruct (isspace c); [exists (c :: p); simpl; congruence|exists []; reflexivity].
Qed.

Lemma rstrip_prefix : forall x, exists t, x = rstrip x ++ t.
Proof.
  intro x. destruct (lstrip_suffix (rev x)) as [p Hp]. exists (rev p).
  unfold rstrip. rewrite <- rev_app_distr, <- Hp, rev_involutive. reflexivity.
Qed.

Lemma rstrip_idem : forall x, rstrip (rstrip x) = rstrip x.
Proof. intro x. unfold rstrip. rewrite rev_involutive, lstrip_idem. reflexivity. Qed.

Lemma lstrip_head : forall x, lstrip x = x <-> (x = [] \/ exists c t, x = c :: t /\ isspace c = false).
Proof.
  intros [|c t]; simpl; split.
  - left; reflexivity.
  - reflexivity.
  - destruct (isspace c) eqn:E; intro H.
    + destruct (lstrip_suffix t) as [p Hp]. rewrite H in Hp.
      apply (f_equal (@List.length ascii)) in Hp. rewrite length_app in Hp. simpl in Hp. lia.
    + right; exists c, t; auto.
  - intros [H|[c' [t' [H E]]]]; [discriminate|]. injection H as -> ->. rewrite E. reflexivity.
Qed.

Lemma lstrip_rstrip : forall x, lstrip x = x -> lstrip (rstrip x) = rstrip x.
Proof.
  intros x H. apply lstrip_head. destruct (rstrip_prefix x) as [t Ht].
  destruct (rstrip x) as [|c r] eqn:Er; [left; reflexivity|right].
  apply lstrip_head in H. destruct H as [H|[c' [t' [H E]]]]; [rewrite H in Ht; discriminate|].
  rewrite H in Ht. injection Ht as Hc _. subst c'. exists c, r. auto.
Qed.

Lemma strip_idem : forall x, strip (strip x) = strip x.
Proof.
  intro x. unfold strip. rewrite lstrip_rstrip by apply lstrip_idem. apply rstrip_idem.
Qed.

Lemma strip_infix : forall x, exists p t, x = p ++ strip x ++ t.
Proof.
  intro x. destruct (lstrip_suffix x) as [p Hp]. destruct (rstrip_prefix (lstrip x)) as [t Ht].
  exists p, t. unfold strip. rewrite <- Ht. exact Hp.
Qed.

Lemma strip_length : forall x, (List.length (strip x) <= List.length x)%nat.
Proof.
  intro x. destruct (strip_infix x) as [p [t H]]. rewrite H at 2.
  rewrite !length_app. lia.
Qed.

Lemma forallb_strip : forall f x, forallb f x = true -> forallb f (strip x) = true.
Proof.
  intros f x H. destruct (strip_infix x) as [p [t E]]. rewrite E in H.
  rewrite !forallb_app in H. apply andb_prop in H as [_ H]. apply andb_prop in H as [H _].
  exact H.
Qed.

(** X1: when [validate_jsonpath_query] accepts a string, it returns the
    stripped string, which starts with [$] or [@], has as many opening as closing square brackets,
    is at most 1000 characters long and is accepted again unchanged. *)
Theorem validate_jsonpath_query_ok : forall x y,
  validate_jsonpath_query (AStr x) = Valid y ->
  y = strip x /\
  (startswith y (s "$") || startswith y (s "@")) = true /\
  count (chr 91) y = count (chr 93) y /\
  (List.length y <= MAX_QUERY_SELECTOR_LENGTH)%nat /\
  validate_jsonpath_query (AStr y) = Valid y.
Proof.
  intros x y H. unfold validate_jsonpath_query in H. destruct x as [|c x]; [discriminate|].
  destruct (MAX_QUERY_SELECTOR_LENGTH <? List.length (strip (c :: x)))%nat eqn:El; [discriminate|].
  destruct (startswith (strip (c :: x)) (s "$") || startswith (strip (c :: x)) (s "@")) eqn:Es;
    [|discriminate].
  destruct (count (chr 91) (strip (c :: x)) =? count (chr 93) (strip (c :: x)))%nat eqn:Ec;
    [|discriminate].
  injection H as <-. apply Nat.ltb_ge in El. apply Nat.eqb_eq in Ec.
  repeat split; auto.
  assert (Hy : strip (strip (c :: x)) = strip (c :: x)) by apply strip_idem.
  remember (strip (c :: x)) as y eqn:Ey. clear Ey.
  destruct y as [|d y]; [discriminate|].
  unfold validate_jsonpath_query. cbv zeta. rewrite Hy, Es.
  replace (MAX_QUERY_SELECTOR_LENGTH <? List.length (d :: y))%nat with false
    by (symmetry; apply Nat.ltb_ge; exact El).
  rewrite <- Ec, Nat.eqb_refl. reflexivity.
Qed.


(** X2: the string returned by [sanitize_string] holds only characters of
    code 32 or more, newlines and tabs; it is already stripped; it is no
    longer than a non-zero [max_length]; and sanitizing it again returns it
    unchanged. *)
Theorem sanitize_string_ok : forall x m y,
  sanitize_string (AStr x) m = Valid y ->
  forallb (fun c => (32 <=? code c) || is_char c 10 || is_char c 9) y = true /\
  strip y = y /\
  (forall n, m = Some n -> n <> 0%Z -> (Z.of_nat (List.length y) <= n)%Z) /\
  sanitize_string (AStr y) m = Valid y.
Proof.
  intros x m y H. unfold sanitize_string in H.
  set (f := fun c => (32 <=? code c) || is_char c 10 || is_char c 9) in *.
  assert (Hf : forallb f y = true /\ strip y = y).
  { assert (Hy : forall z, strip (filter f x) = z -> forallb f z = true /\ strip z = z).
    { intros z <-. split; [apply forallb_strip; apply forallb_forall; intros c Hc;
        apply filter_In in Hc; tauto | apply strip_idem]. }
    destruct m as [n|].
    - destruct (negb (n =? 0)%Z && (n <? Z.of_nat (List.length (strip (filter f x)))))%Z;
        [discriminate|]. injection H as H. apply Hy; exact H.
    - injection H as H. apply Hy; exact H. }
  destruct Hf as [Hf Hs].
  assert (Hfy : filter f y = y).
  { clear -Hf. induction y as [|c y IH]; [reflexivity|]. simpl in *.
    apply andb_prop in Hf as [Hc Hy]. rewrite Hc, IH by exact Hy. reflexivity. }
  destruct m as [n|].
  - destruct (negb (n =? 0)%Z && (n <? Z.of_nat (List.length (strip (filter f x)))))%Z eqn:E;
      [discriminate|]. injection H as H. subst y.
    repeat split; auto.
    + intros n' [= <-] Hn. apply andb_false_iff in E. destruct E as [E|E].
      * apply negb_false_iff, Z.eqb_eq in E. contradiction.
      * apply Z.ltb_ge in E. exact E.
    + unfold sanitize_string. fold f. rewrite Hfy, Hs, E. reflexivity.
  - injection H as H. subst y. repeat split; auto.
    + intros n' Hn. discriminate.
    + unfold sanitize_string. fold f. rewrite Hfy, Hs. reflexivity.
Qed.


Import UrlProofs.

Lemma join_cons_length : forall sep a l,
  (List.length (join sep (a :: l)) <= List.length a + List.length sep + List.length (join sep l))%nat.
Proof.
  intros sep a [|b l]; simpl; [lia|]. rewrite !length_app. simpl. lia.
Qed.

Lemma split_ws_acc_length : forall x cur,
  (List.length (join (s " ") (split_ws_acc x cur)) <= List.length x + List.length cur)%nat.
Proof.
  induction x as [|c x IH]; intro cur; simpl.
  - destruct cur as [|d cur]; simpl; [lia|]. rewrite length_app, length_rev. simpl. lia.
  - destruct (isspace c).
    + destruct cur as [|d cur]; simpl nonempty; cbv iota.
      * specialize (IH []). simpl in *. lia.
      * eapply Nat.le_trans; [apply join_cons_length|].
        specialize (IH []). rewrite length_rev. simpl in *. lia.
    + specialize (IH (c :: cur)). simpl in *. lia.
Qed.

Lemma filter_length_le : forall (f : ascii -> bool) x,
  (List.length (filter f x) <= List.length x)%nat.
Proof. intros f x. induction x as [|c x IH]; simpl; [lia|]. destruct (f c); simpl; lia. Qed.

Lemma forallb_filter_true : forall (f : ascii -> bool) x, forallb f (filter f x) = true.
Proof.
  intros f x. induction x as [|c x IH]; [reflexivity|]. simpl.
  destruct (f c) eqn:E; simpl; [rewrite E|]; auto.
Qed.

Lemma validate_job_name_bounds : forall x y,
  validate_job_name (AStr x) = Valid y ->
  forallb (fun c => 32 <=? code c) y = true /\ (List.length y <= MAX_JOB_NAME_LENGTH)%nat.
Proof.
  intros x y H. unfold validate_job_name in H. destruct x as [|c x]; [discriminate|].
  cbv zeta in H. destruct (strip (c :: x)) as [|d z] eqn:Ez; [discriminate|].
  destruct (MAX_JOB_NAME_LENGTH <? List.length (d :: z))%nat eqn:El; [discriminate|].
  injection H as <-. apply Nat.ltb_ge in El. split; [apply forallb_filter_true|].
  eapply Nat.le_trans; [apply filter_length_le|].
  eapply Nat.le_trans; [apply split_ws_acc_length|]. simpl List.length at 2. lia.
Qed.

(** X4: the name returned by [validate_job_name] has no character below
    code 32 and is at most 200 characters long. *)
Theorem validate_job_name_ok : forall x y,
  validate_job_name (AStr x) = Valid y ->
  forallb (fun c => 32 <=? code c) y = true /\ (List.length y <= MAX_JOB_NAME_LENGTH)%nat.
Proof. exact validate_job_name_bounds. Qed.

Lemma nodup_length_NoDup : forall l : list pystr,
  List.length (nodup (list_eq_dec ascii_dec) l) = List.length l -> NoDup l.
Proof.
  induction l as [|a l IH]; intro H; [constructor|]. simpl in H.
  destruct (in_dec (list_eq_dec ascii_dec) a l) as [Hin|Hin].
    assert (Hle : (List.length (nodup (list_eq_dec ascii_dec) l) <= List.length l)%nat).
    { clear. induction l as [|b l IH]; simpl; [lia|].
      destruct (in_dec (list_eq_dec ascii_dec) b l); simpl; lia. }
    lia.
  - simpl in H. constructor; [exact Hin|apply IH; lia].
Qed.

Lemma validate_urls_from_ok : forall bok nok i raw l,
  validate_urls_from bok nok i raw = Valid l ->
  Forall2 (fun r u => validate_url_any bok nok false r = Valid u) raw l.
Proof.
  intros bok nok i raw. revert i. induction raw as [|r raw IH]; intros i l H; simpl in H.
  - injection H as <-. constructor.
  - destruct (validate_url_any bok nok false r) as [u|e] eqn:E.
    + destruct (validate_urls_from bok nok (S i) raw) as [l'|e] eqn:E'; [|discriminate].
      injection H as <-. constructor; [exact E|exact (IH _ _ E')].
    + destruct e; discriminate.
Qed.

(** X6: when [validate_url_list] accepts a value, it was a list whose
    elements each pass [validate_url] (no sftp) to the returned URLs, in
    order; the returned URLs are pairwise distinct, at least one, and no
    more than [max_count] ([MAX_URLS_PER_JOB] when it is [None] or 0). *)
Theorem validate_url_list_ok : forall bok nok v mc l,
  validate_url_list bok nok v mc = Valid l ->
  (exists raw, v = AList raw /\
     Forall2 (fun r u => validate_url_any bok nok false r = Valid u) raw l) /\
  NoDup l /\ (1 <= List.length l)%nat /\
  (Z.of_nat (List.length l) <=
     match mc with
     | Some m => if (m =? 0)%Z then MAX_URLS_PER_JOB else m
     | None => MAX_URLS_PER_JOB
     end)%Z.
Proof.
  intros bok nok v mc l H. unfold validate_url_list in H.
  destruct v as [| | | |raw| |]; try discriminate.
  destruct raw as [|r0 raw']; [discriminate|].
  set (raw := r0 :: raw') in *.
  set (mx := match mc with
             | Some m => if (m =? 0)%Z then MAX_URLS_PER_JOB else m
             | None => MAX_URLS_PER_JOB
             end) in *.
  destruct (mx <? Z.of_nat (List.length raw))%Z eqn:Em; [discriminate|].
  destruct (validate_urls_from bok nok 0 raw) as [l'|e] eqn:E; [|discriminate].
  destruct (negb (set_len l' =? List.length l')%nat) eqn:Ed; [discriminate|].
  injection H as <-. apply validate_urls_from_ok in E.
  apply negb_false_iff, Nat.eqb_eq in Ed. apply Z.ltb_ge in Em.
  pose proof (Forall2_length E) as Hl.
  split; [exists raw; split; [reflexivity|exact E]|].
  split; [apply nodup_length_NoDup; exact Ed|].
  rewrite <- Hl. split; [simpl; lia|exact Em].
Qed.

Lemma name_char_not_space : forall c, name_char c = true -> isspace c = false.
Proof.
  intros c H. unfold name_char, isalpha, isdigit, is_char, isspace, code in *.
  set (n := nat_of_ascii c) in *.
  repeat rewrite orb_true_iff in H. repeat rewrite andb_true_iff in H.
  rewrite !Nat.leb_le, !Nat.eqb_eq in H.
  apply not_true_iff_false. intro E.
  repeat rewrite orb_true_iff in E. repeat rewrite andb_true_iff in E.
  rewrite !Nat.leb_le in E. lia.
Qed.

Lemma no_space_strip : forall w,
  forallb (fun c => negb (isspace c)) w = true -> strip w = w.
Proof.
  intros w H. unfold strip, rstrip.
  assert (Hl : forall x, forallb (fun c => negb (isspace c)) x = true -> lstrip x = x).
  { intros [|c x] Hx; [reflexivity|]. simpl in *. apply andb_prop in Hx as [Hc _].
    apply negb_true_iff in Hc. rewrite Hc. reflexivity. }
  rewrite (Hl w H), Hl, rev_involutive; [reflexivity|]. rewrite forallb_rev. exact H.
Qed.

Lemma forallb_name_no_space : forall w,
  forallb name_char w = true -> forallb (fun c => negb (isspace c)) w = true.
Proof.
  intros w H. apply forallb_forall. intros c Hc. rewrite forallb_forall in H.
  rewrite name_char_not_space by auto. reflexivity.
Qed.

Lemma name_pattern_strip : forall n, name_pattern n = true ->
  strip n <> [] /\ forallb name_char (strip n) = true.
Proof.
  intros n H. unfold name_pattern in H. destruct n as [|c0 n0]; [discriminate|].
  set (n := c0 :: n0) in *.
  apply orb_true_iff in H. destruct H as [H|H].
  - rewrite no_space_strip by (apply forallb_name_no_space; exact H).
    split; [discriminate|exact H].
  - destruct (rev n) as [|nl [|c r]] eqn:Er; try discriminate.
    apply andb_prop in H as [Hnl Hr].
    assert (En : n = rev (c :: r) ++ [nl]) by
      (change (rev (c :: r) ++ [nl]) with (rev (nl :: c :: r)); rewrite <- Er, rev_involutive; reflexivity).
    assert (Hw : forallb name_char (rev (c :: r)) = true) by (rewrite forallb_rev; exact Hr).
    assert (Hs : strip n = rev (c :: r)).
    { rewrite En. unfold strip, rstrip.
      destruct (rev (c :: r)) as [|d w] eqn:Ew.
      { apply (f_equal (@List.length ascii)) in Ew. rewrite length_rev in Ew. discriminate. }
      simpl in Hw. apply andb_prop in Hw as [Hd Hw].
      assert (Hsp : isspace nl = true).
      { unfold is_char, code in Hnl. apply Nat.eqb_eq in Hnl. unfold isspace, code. rewrite Hnl. reflexivity. }
      assert (Hl : lstrip (d :: w) = d :: w) by (simpl; rewrite (name_char_not_space _ Hd); reflexivity).
      change ((d :: w) ++ [nl]) with (d :: (w ++ [nl])).
      cbn [lstrip]. rewrite (name_char_not_space _ Hd).
      change (d :: (w ++ [nl])) with ((d :: w) ++ [nl]). rewrite rev_unit.
      cbn [lstrip]. rewrite Hsp.
      pose proof (no_space_strip (d :: w)) as Hns. unfold strip, rstrip in Hns.
      rewrite Hl in Hns. apply Hns.
      apply forallb_name_no_space. simpl. rewrite Hd, Hw. reflexivity. }
    rewrite Hs. split; [|exact Hw].
    intro E. apply (f_equal (@List.length ascii)) in E. rewrite length_rev in E. discriminate.
Qed.

Lemma lift_valid : forall {A} (r : result A) v, lift r = Valid v -> r = Ok v.
Proof. intros A [x|e] v H; simpl in H; [congruence|discriminate]. Qed.

Lemma pdf_config_some : forall qt d (c : option (list (pystr * pyany))),
  (if str_in qt pdf_types && dict_in (s "pdf_config") d then c else None) <> None ->
  In qt pdf_types.
Proof.
  intros qt d c. destruct (str_in qt pdf_types) eqn:E.
  - intros _. apply str_in_In. exact E.
  - intro Hn. exfalso. apply Hn. reflexivity.
Qed.

(** X7: a query accepted by [validate_query] has a non-empty name of
    letters, digits, [_] and [-], at most 100 characters; a type among the
    six valid ones; an xpath, regex or jsonpath selector that the matching
    validator returns; and a [pdf_config] only for the three PDF types. *)
Theorem validate_query_ok : forall rc v q,
  validate_query rc v = Valid q ->
  vq_name q <> [] /\ forallb name_char (vq_name q) = true /\
  (List.length (vq_name q) <= MAX_QUERY_NAME_LENGTH)%nat /\
  In (vq_type q) valid_types /\
  (vq_type q = s "xpath" -> exists x, validate_xpath_query x = Ok (vq_selector q)) /\
  (vq_type q = s "regex" -> exists x, validate_regex_pattern rc x = Ok (vq_selector q)) /\
  (vq_type q = s "jsonpath" ->
     exists x, validate_jsonpath_query (AStr x) = Valid (vq_selector q)) /\
  (vq_pdf_config q <> None -> In (vq_type q) pdf_types).
Proof.
  intros rc v q H. unfold validate_query in H.
  destruct v as [| | | | |d|]; try discriminate.
  destruct (dict_in (s "name") d); [|discriminate]. cbn [negb] in H.
  destruct (dict_in (s "type") d); [|discriminate]. cbn [negb] in H.
  destruct (dict_get d (s "name") ANone) as [name| | | | | |]; try discriminate.
  destruct (nonempty (strip name)) eqn:Ene; [|discriminate]. cbn [negb] in H.
  destruct (MAX_QUERY_NAME_LENGTH <? List.length name)%nat eqn:El; [discriminate|].
  destruct (name_pattern name) eqn:Ep; [|discriminate]. cbn [negb] in H.
  destruct (dict_get d (s "type") ANone) as [qt| | | | | |]; try discriminate.
  destruct (any_in_strs (AStr qt) valid_types) eqn:Et; [|discriminate].
  cbn [negb] in H.
  set (sel := py_or _ _) in H.
  destruct (negb (str_in qt pdf_types) && negb (py_bool sel)); [discriminate|].
  destruct (validate_selector rc qt sel) as [vs|e] eqn:Es; [|discriminate].
  destruct (dict_get d (s "join") (ABool false)) as [| |join| | | |]; try discriminate.
  injection H as <-. cbn [vq_name vq_type vq_selector vq_pdf_config].
  destruct (name_pattern_strip _ Ep) as [Hne Hc].
  apply Nat.ltb_ge in El.
  repeat split; auto.
  - pose proof (strip_length name). unfold MAX_QUERY_NAME_LENGTH in *. lia.
  - apply str_in_In. exact Et.
  - intros ->. unfold validate_selector in Es. simpl in Es.
    unfold validate_xpath_any in Es. destruct sel; try discriminate.
    exists x. apply lift_valid. exact Es.
  - intros ->. unfold validate_selector in Es. simpl in Es.
    unfold validate_regex_any in Es. destruct sel; try discriminate.
    exists x. apply lift_valid. exact Es.
  - intros ->. unfold validate_selector in Es. simpl in Es.
    destruct sel; try discriminate. exists x. exact Es.
  - apply pdf_config_some.
Qed.

Lemma validate_queries_from_ok : forall rc i raw names l,
  validate_queries_from rc i raw names = Valid l ->
  Forall2 (fun r q => validate_query rc r = Valid q) raw l /\
  NoDup (map vq_name l) /\ (forall q, In q l -> ~ In (vq_name q) names).
Proof.
  intros rc i raw. revert i. induction raw as [|r raw IH]; intros i names l H; simpl in H.
  - injection H as <-. split; [constructor|split; [constructor|intros q []]].
  - destruct (validate_query rc r) as [q|e] eqn:E.
    + destruct (str_in (vq_name q) names) eqn:Ein; [discriminate|].
      destruct (validate_queries_from rc (S i) raw (vq_name q :: names)) as [l'|e] eqn:E';
        [|discriminate].
      injection H as <-. destruct (IH _ _ _ E') as [HF [HN Hout]].
      assert (Hnot : ~ In (vq_name q) names).
      { intro Hi. assert (str_in (vq_name q) names = true); [|congruence].
        unfold str_in. apply existsb_exists. exists (vq_name q).
        split; [exact Hi|apply str_eqb_eq; reflexivity]. }
      split; [constructor; [exact E|exact HF]|split].
      * simpl. constructor; [|exact HN]. intro Hi. apply in_map_iff in Hi as [q' [Hq' Hi]].
        apply (Hout q' Hi). rewrite Hq'. left. reflexivity.
      * intros q' [<-|Hi]; [exact Hnot|]. intro Hn. apply (Hout q' Hi). right. exact Hn.
    + destruct e; discriminate.
Qed.

(** X8: when [validate_queries] accepts a value, it was a list whose
    elements each pass [validate_query] to the returned queries, in order;
    the names of the returned queries are pairwise distinct; and there are
    between 1 and 50 of them. *)
Theorem validate_queries_ok : forall rc v l,
  validate_queries rc v = Valid l ->
  (exists raw, v = AList raw /\ Forall2 (fun r q => validate_query rc r = Valid q) raw l) /\
  NoDup (map vq_name l) /\ (1 <= List.length l <= MAX_QUERIES_PER_JOB)%nat.
Proof.
  intros rc v l H. unfold validate_queries in H.
  destruct v as [| | | |raw| |]; try discriminate.
  destruct raw as [|r0 raw']; [discriminate|].
  destruct (MAX_QUERIES_PER_JOB <? List.length (r0 :: raw'))%nat eqn:Em; [discriminate|].
  apply Nat.ltb_ge in Em.
  destruct (validate_queries_from_ok _ _ _ _ _ H) as [HF [HN _]].
  pose proof (Forall2_length HF) as Hl.
  split; [exists (r0 :: raw'); split; [reflexivity|exact HF]|].
  split; [exact HN|]. rewrite <- Hl. simpl in *. lia.
Qed.

Import UrlValidators.

Lemma path_query_ok : forall c, path_char_ok c = true -> query_char_ok c = true.
Proof.
  intros c. unfold path_char_ok, query_char_ok.
  destruct (is_c 63 c), (is_c 35 c), (unsafe_byte c); simpl; auto.
Qed.

Lemma netloc_query_ok : forall c, netloc_char_ok c = true -> query_char_ok c = true.
Proof.
  intros c. unfold netloc_char_ok, query_char_ok.
  destruct (is_c 47 c), (is_c 63 c), (is_c 35 c), (unsafe_byte c); simpl; auto.
Qed.

(** What [validate_url] returns, from the parts [urlparse] produced. *)
Lemma validate_url_parts : forall bok nok allow u n,
  validate_url bok nok allow u = Ok n ->
  exists sch net P params q,
    n = urlunparse sch net P params q [] /\
    str_in sch (allowed_schemes allow) = true /\ nonempty net = true /\
    forallb netloc_char_ok net = true /\ (exists t, P = chr 47 :: t) /\
    forallb path_char_ok P = true /\ forallb path_char_ok params = true /\
    forallb query_char_ok q = true.
Proof.
  intros bok nok allow u n H.
  unfold validate_url in H. destruct u as [|c0 u0]; [discriminate|]. cbv zeta in H.
  destruct (MAX_URL_LENGTH <? List.length (strip (c0 :: u0)))%nat; [discriminate|].
  destruct (urlparse bok nok (strip (c0 :: u0))) as [parsed|] eqn:Ep; [|discriminate].
  fold (allowed_schemes allow) in H.
  destruct (str_in (pr_scheme parsed) (allowed_schemes allow)) eqn:Ea; [|discriminate].
  destruct (nonempty (pr_netloc parsed)) eqn:Ene; [|discriminate].
  cbn [negb] in H. injection H as <-.
  unfold urlparse in Ep.
  destruct (urlsplit bok nok (strip (c0 :: u0))) as [r|] eqn:Es; [|discriminate].
  destruct (urlsplit_shape _ _ _ _ Es) as [Hc [Hn [Hhead [HPc Hq]]]].
  destruct (str_in (sr_scheme r) uses_params && mem (chr 59) (sr_path r)) eqn:Eup.
  - destruct (splitparams (sr_path r)) as [a b] eqn:Esp. injection Ep as <-.
    cbn [pr_scheme pr_netloc pr_path pr_params pr_query pr_fragment] in *.
    assert (Hpath : exists t, sr_path r = chr 47 :: t).
    { destruct (sr_path r) as [|d t] eqn:Ed; [apply andb_prop in Eup as [_ Em]; discriminate|].
      destruct (Hhead ltac:(destruct (sr_netloc r); discriminate)) as [Hx|[t' Hx]];
        [discriminate|]. exists t'. exact Hx. }
    destruct Hpath as [t Ht].
    destruct (splitparams_idem (sr_path r) t Ht a b Esp) as [_ [[t' Ha] Hf]].
    destruct (Hf _ HPc) as [Hac Hbc].
    rewrite Ha in *. cbn [nonempty] in *. rewrite <- Ha in *.
    exists (sr_scheme r), (sr_netloc r), a, b, (sr_query r).
    repeat split; auto. exists t'. exact Ha.
  - injection Ep as <-.
    cbn [pr_scheme pr_netloc pr_path pr_params pr_query pr_fragment] in *.
    destruct (sr_path r) as [|d t] eqn:Ed; cbn [nonempty] in *.
    + exists (sr_scheme r), (sr_netloc r), (s "/"), [], (sr_query r).
      repeat split; auto. exists []. reflexivity.
    + destruct (Hhead ltac:(destruct (sr_netloc r); discriminate)) as [Hx|[t' Hx]];
        [discriminate|].
      exists (sr_scheme r), (sr_netloc r), (d :: t), [], (sr_query r).
      repeat split; auto. exists t'. exact Hx.
Qed.

(** X9: a URL returned by [validate_url] has the form
    [scheme://netloc/rest] with an allowed scheme and a non-empty netloc
    holding no ['/'], ['?'], ['#'], tab, CR or LF; the whole URL holds no
    ['#'], tab, CR or LF. *)
Theorem validate_url_shape : forall bok nok allow u n,
  validate_url bok nok allow u = Ok n ->
  exists sch net t,
    n = sch ++ chr 58 :: chr 47 :: chr 47 :: net ++ chr 47 :: t /\
    In sch (allowed_schemes allow) /\ net <> [] /\
    forallb netloc_char_ok net = true /\
    forallb query_char_ok n = true.
Proof.
  intros bok nok allow u n H.
  destruct (validate_url_parts _ _ _ _ _ H)
    as [sch [net [P [params [q [-> [Ha [Hne [Hn [[t Ht] [HP [Hp Hq]]]]]]]]]]]].
  assert (Hsn := allowed_normal _ _ Ha).
  rewrite urlunparse_normal by (auto; exists t; exact Ht).
  exists sch, net, (t ++ (if nonempty params then chr 59 :: params else []) ++
                    (if nonempty q then chr 63 :: q else [])).
  split; [|split; [apply str_in_In; exact Ha|split; [destruct net; discriminate|split; [exact Hn|]]]].
  - unfold rebuild. rewrite Ht. cbn [app]. rewrite <- !app_assoc. reflexivity.
  - apply forallb_app_iff. split.
    + destruct Hsn as [<-|[<-|[<-|[]]]]; reflexivity.
    + cbn [forallb]. rewrite !andb_true_iff. split; [reflexivity|split; [reflexivity|split; [reflexivity|]]].
      apply forallb_app_iff. split; [exact (forallb_weaken _ _ _ netloc_query_ok Hn)|].
      apply forallb_app_iff. split.
      * apply (forallb_weaken _ _ _ path_query_ok). apply path_char_ok_rebuild; auto.
      * apply query_part_ok. exact Hq.
Qed.


Definition nosp (c : ascii) : bool := negb (isspace c).

Lemma split_ws_words : forall (f : ascii -> bool) x cur,
  forallb f x = true -> forallb (fun c => f c && nosp c) cur = true ->
  Forall (fun w => w <> [] /\ forallb (fun c => f c && nosp c) w = true) (split_ws_acc x cur).
Proof.
  intros f. induction x as [|c x IH]; intros cur Hx Hc.
  - destruct cur as [|d cur]; [constructor|].
    assert (Hr : forallb (fun c => f c && nosp c) (rev (d :: cur)) = true) by (rewrite forallb_rev; exact Hc).
    assert (Hn : rev (d :: cur) <> []).
    { intro E; apply (f_equal (@List.length ascii)) in E; rewrite length_rev in E; discriminate. }
    constructor; [split; assumption|constructor].
  - cbn [split_ws_acc]. simpl in Hx. apply andb_prop in Hx as [Hfc Hx]. destruct (isspace c) eqn:Es.
    + destruct cur as [|d cur]; [apply IH; auto|].
      assert (Hr : forallb (fun c => f c && nosp c) (rev (d :: cur)) = true) by (rewrite forallb_rev; exact Hc).
      assert (Hn : rev (d :: cur) <> []).
      { intro E; apply (f_equal (@List.length ascii)) in E; rewrite length_rev in E; discriminate. }
      constructor; [split; assumption|apply IH; auto].
    + apply IH; [exact Hx|]. simpl. rewrite Hc, Hfc. unfold nosp. rewrite Es. reflexivity.
Qed.

Lemma split_ws_nonempty : forall x cur,
  cur <> [] \/ (exists c, In c x /\ isspace c = false) -> split_ws_acc x cur <> [].
Proof.
  induction x as [|c x IH]; intros cur H; simpl.
  - destruct H as [H|[c [[] _]]]. destruct cur; [contradiction|discriminate].
  - destruct (isspace c) eqn:Es.
    + destruct cur as [|d cur]; simpl nonempty; cbv iota; [|discriminate].
      apply IH. destruct H as [H|[c' [[<-|Hi] Hc']]]; [contradiction|congruence|].
      right. exists c'. auto.
    + apply IH. left. discriminate.
Qed.

Lemma split_ws_acc_word : forall w rest cur,
  forallb nosp w = true -> split_ws_acc (w ++ rest) cur = split_ws_acc rest (rev w ++ cur).
Proof.
  induction w as [|c w IH]; intros rest cur H; [reflexivity|]. simpl in *.
  apply andb_prop in H as [Hc H]. unfold nosp in Hc. apply negb_true_iff in Hc. rewrite Hc.
  rewrite IH by exact H. rewrite <- app_assoc. reflexivity.
Qed.

Lemma join_cons_cons : forall sep a b l, join sep (a :: b :: l) = a ++ sep ++ join sep (b :: l).
Proof. reflexivity. Qed.

Lemma split_ws_acc_space : forall rest cur,
  cur <> [] -> split_ws_acc (s " " ++ rest) cur = rev cur :: split_ws_acc rest [].
Proof. intros rest [|d cur] H; [contradiction|reflexivity]. Qed.

Lemma split_join : forall W,
  W <> [] -> Forall (fun w => w <> [] /\ forallb nosp w = true) W ->
  split_ws_acc (join (s " ") W) [] = W.
Proof.
  induction W as [|w W IH]; intros Hne HF; [contradiction|].
  inversion HF as [|? ? [Hw Hwn] HF']. subst.
  destruct W as [|w2 W].
  - simpl. replace w with (w ++ []) at 1 by apply app_nil_r.
    rewrite split_ws_acc_word by exact Hwn. rewrite app_nil_r.
    change (split_ws_acc [] (rev w)) with (if nonempty (rev w) then [rev (rev w)] else []).
    rewrite rev_involutive. destruct (rev w) eqn:E; [|reflexivity].
    destruct w; [contradiction|]. simpl in E. destruct (rev w); discriminate.
  - rewrite join_cons_cons.
    rewrite split_ws_acc_word by exact Hwn. rewrite app_nil_r.
    rewrite split_ws_acc_space.
    + rewrite rev_involutive. f_equal. apply IH; [discriminate|exact HF'].
    + intro E. apply (f_equal (@List.length ascii)) in E. rewrite length_rev in E.
      destruct w; [contradiction|discriminate].
Qed.

Lemma join_ends : forall W,
  W <> [] -> Forall (fun w => w <> [] /\ forallb nosp w = true) W ->
  exists d t, join (s " ") W = d :: t /\ nosp d = true /\
  exists e u, rev (join (s " ") W) = e :: u /\ nosp e = true.
Proof.
  induction W as [|w W IH]; intros Hne HF; [contradiction|].
  inversion HF as [|? ? [Hw Hwn] HF']. subst.
  destruct w as [|d w]; [contradiction|]. simpl in Hwn. apply andb_prop in Hwn as [Hd Hwn].
  destruct W as [|w2 W].
  - exists d, w. split; [reflexivity|split; [exact Hd|]].
    destruct (rev (d :: w)) as [|e u] eqn:E.
    + apply (f_equal (@List.length ascii)) in E. rewrite length_rev in E. discriminate.
    + exists e, u. split; [exact E|].
      assert (Hr : forallb nosp (rev (d :: w)) = true) by (rewrite forallb_rev; simpl; rewrite Hd; exact Hwn).
      rewrite E in Hr. simpl in Hr. apply andb_prop in Hr as [He _]. exact He.
  - destruct (IH ltac:(discriminate) HF') as [_ [_ [_ [_ [e [u [Hu He]]]]]]].
    exists d, (w ++ s " " ++ join (s " ") (w2 :: W)). split; [reflexivity|split; [exact Hd|]].
    exists e, (u ++ rev (s " ") ++ rev (d :: w)).
    split; [|exact He].
    change (join (s " ") ((d :: w) :: w2 :: W)) with ((d :: w) ++ s " " ++ join (s " ") (w2 :: W)).
    rewrite !rev_app_distr, Hu. rewrite <- app_assoc. reflexivity.
Qed.

Lemma strip_ends : forall d t e u,
  nosp d = true -> rev (d :: t) = e :: u -> nosp e = true -> strip (d :: t) = d :: t.
Proof.
  intros d t e u Hd Hr He. unfold strip, rstrip.
  assert (Hl : lstrip (d :: t) = d :: t).
  { simpl. unfold nosp in Hd. apply negb_true_iff in Hd. rewrite Hd. reflexivity. }
  rewrite Hl, Hr. simpl. unfold nosp in He. apply negb_true_iff in He. rewrite He.
  rewrite <- Hr, rev_involutive. reflexivity.
Qed.

Lemma filter_all : forall (f : ascii -> bool) x, forallb f x = true -> filter f x = x.
Proof.
  intros f x. induction x as [|c x IH]; intro H; [reflexivity|]. simpl in *.
  apply andb_prop in H as [Hc H]. rewrite Hc, IH by exact H. reflexivity.
Qed.

(** X5: for a name without control characters (all codes 32 or more),
    the name [validate_job_name] returns is accepted again unchanged. *)
Theorem validate_job_name_idempotent : forall x y,
  forallb (fun c => 32 <=? code c) x = true ->
  validate_job_name (AStr x) = Valid y ->
  validate_job_name (AStr y) = Valid y.
Proof.
  intros x y Hx H.
  pose proof (validate_job_name_bounds _ _ H) as [_ Hlen].
  unfold validate_job_name in H. destruct x as [|c x]; [discriminate|].
  cbv zeta in H. destruct (strip (c :: x)) as [|d z] eqn:Ez; [discriminate|].
  destruct (MAX_JOB_NAME_LENGTH <? List.length (d :: z))%nat eqn:El; [discriminate|].
  injection H as Hy0.
  set (P := fun c => 32 <=? code c).
  assert (Hz : forallb P (d :: z) = true) by (rewrite <- Ez; apply forallb_strip; exact Hx).
  assert (Hd : isspace d = false).
  { assert (Hl : lstrip (strip (c :: x)) = strip (c :: x))
      by (unfold strip; apply lstrip_rstrip, lstrip_idem).
    rewrite Ez in Hl. apply lstrip_head in Hl as [Hl|[d' [t' [Hl Hs]]]]; [discriminate|].
    injection Hl as -> _. exact Hs. }
  set (W := split_ws (d :: z)).
  assert (HW : Forall (fun w => w <> [] /\ forallb (fun c => P c && nosp c) w = true) W)
    by (apply split_ws_words; [exact Hz|reflexivity]).
  assert (HW' : Forall (fun w => w <> [] /\ forallb nosp w = true) W).
  { eapply Forall_impl; [|exact HW]. intros w [Hw Hf]. split; [exact Hw|].
    eapply forallb_weaken; [|exact Hf]. intros c' Hc'. apply andb_prop in Hc' as [_ Hc']. exact Hc'. }
  assert (HWne : W <> []).
  { apply split_ws_nonempty. right. exists d. split; [left; reflexivity|exact Hd]. }
  assert (HP : forallb P (join (s " ") W) = true).
  { clear -HW. induction W as [|w W IH]; [reflexivity|].
    inversion HW as [|? ? [_ Hw] HW']. subst.
    assert (Hw' : forallb P w = true)
      by (eapply forallb_weaken; [|exact Hw]; intros c Hc; apply andb_prop in Hc as [Hc _]; exact Hc).
    destruct W as [|w2 W]; [exact Hw'|].
    change (join (s " ") (w :: w2 :: W)) with (w ++ s " " ++ join (s " ") (w2 :: W)).
    rewrite !forallb_app, Hw'. simpl. apply IH. exact HW'. }
  assert (Hy : y = join (s " ") W) by (rewrite <- Hy0; apply filter_all; exact HP).
  clear Hy0. subst y.
  destruct (join_ends W HWne HW') as [d' [t' [Hj [Hd' [e [u [Hr He]]]]]]].
  rewrite Hj in Hr, Hlen |- *.
  unfold validate_job_name. cbv zeta.
  rewrite (strip_ends d' t' e u Hd' Hr He).
  replace (MAX_JOB_NAME_LENGTH <? List.length (d' :: t'))%nat with false
    by (symmetry; apply Nat.ltb_ge; exact Hlen).
  rewrite <- Hj. unfold split_ws. rewrite split_join by assumption.
  apply (f_equal Valid). apply filter_all. exact HP.
Qed.


(** Witnesses. *)
Definition accept_all (_ : pystr) : bool := true.

Definition title_query : pyany :=
  ADict [(s "name", AStr (s "title")); (s "type", AStr (s "xpath")); (s "selector", AStr (s "//h1"))].

Lemma validate_jsonpath_query_ok_witness :
  validate_jsonpath_query (AStr (s " $.a[0] ")) = Valid (s "$.a[0]") /\
  validate_jsonpath_query (AStr (s "$.a[0]")) = Valid (s "$.a[0]").
Proof.
  split; [vm_compute; reflexivity|].
  exact (proj2 (proj2 (proj2 (proj2
    (validate_jsonpath_query_ok (s " $.a[0] ") (s "$.a[0]") ltac:(vm_compute; reflexivity)))))).
Defined.

Lemma sanitize_string_ok_witness :
  sanitize_string (AStr (s "  ab  ")) (Some 5%Z) = Valid (s "ab") /\
  sanitize_string (AStr (s "ab")) (Some 5%Z) = Valid (s "ab").
Proof.
  split; [vm_compute; reflexivity|].
  exact (proj2 (proj2 (proj2
    (sanitize_string_ok (s "  ab  ") (Some 5%Z) (s "ab") ltac:(vm_compute; reflexivity))))).
Defined.

Lemma validate_job_name_ok_witness :
  validate_job_name (AStr (s "  My   job ")) = Valid (s "My job") /\
  (List.length (s "My job") <= MAX_JOB_NAME_LENGTH)%nat.
Proof.
  split; [vm_compute; reflexivity|].
  exact (proj2 (validate_job_name_ok (s "  My   job ") (s "My job") ltac:(vm_compute; reflexivity))).
Defined.

Lemma validate_job_name_idempotent_witness :
  validate_job_name (AStr (s "  My   job ")) = Valid (s "My job") /\
  validate_job_name (AStr (s "My job")) = Valid (s "My job").
Proof.
  split; [vm_compute; reflexivity|].
  apply (validate_job_name_idempotent (s "  My   job ")); vm_compute; reflexivity.
Defined.

Lemma validate_url_list_ok_witness :
  validate_url_list accept_all accept_all
    (AList [AStr (s "http://a.com/x"); AStr (s "https://b.org")]) None
    = Valid [s "http://a.com/x"; s "https://b.org/"] /\
  NoDup [s "http://a.com/x"; s "https://b.org/"].
Proof.
  split; [vm_compute; reflexivity|].
  exact (proj1 (proj2 (validate_url_list_ok accept_all accept_all
    (AList [AStr (s "http://a.com/x"); AStr (s "https://b.org")]) None
    [s "http://a.com/x"; s "https://b.org/"] ltac:(vm_compute; reflexivity)))).
Defined.

Lemma validate_query_ok_witness :
  validate_query accept_all title_query =
    Valid {| vq_name := s "title"; vq_type := s "xpath"; vq_selector := s "//h1";
             vq_join := false; vq_pdf_config := None |} /\
  In (s "xpath") valid_types.
Proof.
  split; [vm_compute; reflexivity|].
  exact (proj1 (proj2 (proj2 (proj2 (validate_query_ok accept_all title_query
    {| vq_name := s "title"; vq_type := s "xpath"; vq_selector := s "//h1";
       vq_join := false; vq_pdf_config := None |} ltac:(vm_compute; reflexivity)))))).
Defined.

Lemma validate_queries_ok_witness :
  validate_queries accept_all (AList [title_query]) =
    Valid [{| vq_name := s "title"; vq_type := s "xpath"; vq_selector := s "//h1";
              vq_join := false; vq_pdf_config := None |}] /\
  NoDup [s "title"].
Proof.
  split; [vm_compute; reflexivity|].
  exact (proj1 (proj2 (validate_queries_ok accept_all (AList [title_query])
    [{| vq_name := s "title"; vq_type := s "xpath"; vq_selector := s "//h1";
        vq_join := false; vq_pdf_config := None |}] ltac:(vm_compute; reflexivity)))).
Defined.

Lemma validate_url_shape_witness :
  validate_url accept_all accept_all false (s "http://example.com") = Ok (s "http://example.com/") /\
  forallb query_char_ok (s "http://example.com/") = true.
Proof.
  split; [vm_compute; reflexivity|].
  destruct (validate_url_shape accept_all accept_all false (s "http://example.com")
              (s "http://example.com/") ltac:(vm_compute; reflexivity))
    as [sch [net [t [_ [_ [_ [_ Hq]]]]]]].
  exact Hq.
Defined.

End InputCheckProofs.

(** * The crawl loop of [src/backend/crawler.py] *)
Module CrawlerProofs.
Import PyStr Validators UrlParse UrlValidators RateLimiter RateLimiterOps RateLimiterClaims
  Extraction Crawler.
Local Open Scope Z_scope.

Section CrawlProofs.
Context {Tree Json : Type}.
Variable html_parse : pystr -> option Tree.
Variable xpath_eval : Tree -> pystr -> option (list pyval).
Variable findall : pystr -> pystr -> option (list pyval).
Variable json_loads : pystr -> option Json.
Variable jsonpath_find : pystr -> Json -> option (list pyval).
Variable bok nok : pystr -> bool.
Variable ip_address : pystr -> option ip_addr.
Variable getaddrinfo : pystr -> gai_result.
Variable http_get : pystr -> option (Z * pystr).
Variable sleep : Z -> Z -> Z.
Variable crawl_time : Z -> pystr -> Z.

Let rq := run_query html_parse xpath_eval findall json_loads jsonpath_find.
Let rqs := run_queries html_parse xpath_eval findall json_loads jsonpath_find.
Let crawl := crawl_url html_parse xpath_eval findall json_loads jsonpath_find
               bok nok ip_address getaddrinfo http_get.

Lemma dict_set_fresh : forall {V} (acc : list (pystr * V)) k v,
  ~ In k (map fst acc) -> JobRunner.dict_set acc k v = acc ++ [(k, v)].
Proof.
  intros V acc k v. induction acc as [|[k' v'] acc IH]; intro Hn; [reflexivity|]. simpl in *.
  destruct (str_eqb k k') eqn:E.
  - apply str_eqb_eq in E. subst. tauto.
  - rewrite IH by tauto. reflexivity.
Qed.

Lemma run_queries_app : forall text pre rest names acc,
  map q_name pre = map Some names -> NoDup (map fst acc ++ names) ->
  rqs text (pre ++ rest) acc = rqs text rest (acc ++ combine names (map (rq text) pre)).
Proof.
  intros text pre. induction pre as [|q pre IH]; intros rest names acc Hn Hd.
  - destruct names; [|discriminate]. simpl. rewrite app_nil_r. reflexivity.
  - destruct names as [|nm names]; [discriminate|]. injection Hn as Hq Hn.
    unfold rqs. simpl. rewrite Hq. fold rqs.
    rewrite dict_set_fresh.
    + rewrite (IH rest names); [rewrite <- app_assoc; reflexivity|exact Hn|].
      rewrite map_app, <- app_assoc. exact Hd.
    + intro Hi. apply NoDup_remove_2 in Hd. apply Hd. apply in_or_app. left. exact Hi.
Qed.

(** X12: for a URL that [validate_scrape_url] accepts and a request that
    succeeds, [crawl_url] with named queries (distinct names) fetches the
    original URL once and records the status code, no error, and the
    result of [execute_query] on the response text for each query, under
    its name and in order. *)
Theorem crawl_url_ok : forall url v code text qs names,
  validate_scrape_url ip_address getaddrinfo bok nok url = Some (Ok v) ->
  http_get url = Some (code, text) ->
  map q_name qs = map Some names -> NoDup names ->
  crawl url qs =
    ({| cr_url := url; cr_http_code := Some code; cr_error_info := None;
        cr_query_results := combine names (map (rq text) qs);
        cr_removed := false; cr_ran := true |}, [url]).
Proof.
  intros url v code text qs names Hv Hg Hn Hd. unfold crawl, crawl_url.
  rewrite Hv, Hg.
  pose proof (run_queries_app text qs [] names [] Hn Hd) as H.
  rewrite app_nil_r in H. unfold rqs in H. rewrite H. reflexivity.
Qed.

(** X13: when a query without a [name] follows named ones, [crawl_url]
    records the error text ['name'], keeps the results of the queries
    before it, and does not mark the crawl as run. *)
Theorem crawl_url_missing_name : forall url v code text pre q post names,
  validate_scrape_url ip_address getaddrinfo bok nok url = Some (Ok v) ->
  http_get url = Some (code, text) ->
  map q_name pre = map Some names -> NoDup names -> q_name q = None ->
  crawl url (pre ++ q :: post) =
    ({| cr_url := url; cr_http_code := Some code;
        cr_error_info := Some (ExceptionText "'name'");
        cr_query_results := combine names (map (rq text) pre);
        cr_removed := false; cr_ran := false |}, [url]).
Proof.
  intros url v code text pre q post names Hv Hg Hn Hd Hq. unfold crawl, crawl_url.
  rewrite Hv, Hg.
  pose proof (run_queries_app text pre (q :: post) names [] Hn Hd) as H.
  unfold rqs in H. rewrite H. simpl. rewrite Hq. reflexivity.
Qed.

Let loop := crawl_loop html_parse xpath_eval findall json_loads jsonpath_find
              bok nok ip_address getaddrinfo http_get sleep crawl_time.

Let accepted (u : pystr) : bool :=
  match validate_scrape_url ip_address getaddrinfo bok nok u with
  | Some (Ok _) => true
  | _ => false
  end.

Lemma crawl_loop_results : forall us rl qs clk results trace,
  loop rl us qs clk = Some (results, trace) ->
  Forall2 (fun u r => cr_url r = u /\
             forall e, validate_scrape_url ip_address getaddrinfo bok nok u = Some (Err e) ->
               cr_error_info r = Some (SsrfRejected e) /\ cr_http_code r = None /\
               cr_query_results r = [] /\ cr_ran r = false) us results /\
  map fst trace = filter accepted us.
Proof.
  induction us as [|u us IH]; intros rl qs clk results trace H; unfold loop in H; simpl in H.
  - injection H as <- <-. split; constructor.
  - destruct (wait_if_needed bok nok sleep rl u clk) as [[[rl' w] clk']|]; [|discriminate].
    destruct qs as [qs|]; [|discriminate].
    destruct (crawl_url html_parse xpath_eval findall json_loads jsonpath_find bok nok
                ip_address getaddrinfo http_get u qs) as [r req] eqn:Ec.
    fold loop in H.
    destruct (loop rl' us (Some qs) (crawl_time clk' u)) as [[results' trace']|] eqn:El;
      [|discriminate].
    injection H as <- <-. destruct (IH _ _ _ _ _ El) as [HF Ht].
    unfold crawl_url in Ec.
    destruct (validate_scrape_url ip_address getaddrinfo bok nok u) as [[v|e]|] eqn:Ev.
    + split.
      * constructor; [|exact HF]. split; [|intros e He; rewrite Ev in He; discriminate].
        destruct (http_get u) as [[code text]|];
          [destruct (run_queries _ _ _ _ _ text qs []) as [qr raised]|];
          injection Ec as <- <-; reflexivity.
      * assert (req = [u]).
        { destruct (http_get u) as [[code text]|];
            [destruct (run_queries _ _ _ _ _ text qs []) as [qr raised]|];
            injection Ec as _ <-; reflexivity. }
        subst req. cbn [map fst app filter].
        replace (accepted u) with true by (unfold accepted; rewrite Ev; reflexivity).
        rewrite Ht. reflexivity.
    + injection Ec as <- <-. split.
      * constructor; [|exact HF]. split; [reflexivity|]. intros e' He'.
        rewrite Ev in He'. injection He' as <-. repeat split.
      * cbn [map fst app filter].
        replace (accepted u) with false by (unfold accepted; rewrite Ev; reflexivity).
        exact Ht.
    + injection Ec as <- <-. split.
      * constructor; [|exact HF]. split; [reflexivity|]. intros e' He'.
        rewrite Ev in He'. discriminate He'.
      * cbn [map fst app filter].
        replace (accepted u) with false by (unfold accepted; rewrite Ev; reflexivity).
        exact Ht.
Qed.

(** X14: when [process_job] finishes, [crawl_delay] is not negative, and
    there is one result per processed URL (the first three in test mode),
    in order, carrying that URL; a URL that [validate_scrape_url] rejects
    gets the SSRF error, no status code, no query results and no request;
    the URLs requested are exactly the accepted ones, in order. *)
Theorem process_job_results : forall j clk results trace,
  process_job html_parse xpath_eval findall json_loads jsonpath_find
    bok nok ip_address getaddrinfo http_get sleep crawl_time j clk = Some (results, trace) ->
  (0 <= job_min_delay j)%Z /\
  exists us, urls j = Some us /\
    let processed := if test j then firstn 3 us else us in
    Forall2 (fun u r => cr_url r = u /\
               forall e, validate_scrape_url ip_address getaddrinfo bok nok u = Some (Err e) ->
                 cr_error_info r = Some (SsrfRejected e) /\ cr_http_code r = None /\
                 cr_query_results r = [] /\ cr_ran r = false) processed results /\
    map fst trace = filter accepted processed.
Proof.
  intros j clk results trace H. unfold process_job in H.
  unfold init in H. destruct (job_min_delay j <? 0)%Z eqn:Ed; [discriminate|].
  apply Z.ltb_ge in Ed. split; [exact Ed|].
  destruct (urls j) as [us|]; [|discriminate]. exists us. split; [reflexivity|].
  exact (crawl_loop_results _ _ _ _ _ _ H).
Qed.

Section Spacing.
Hypothesis sleep_at_least : forall c w, (0 < w)%Z -> (c + w <= sleep c w)%Z.
Hypothesis crawl_time_mono : forall c u, (c <= crawl_time c u)%Z.

Lemma wait_step : forall rl url clk rl' w clk',
  wait_if_needed bok nok sleep rl url clk = Some (rl', w, clk') ->
  (clk <= clk')%Z /\ min_delay rl' = min_delay rl /\
  ((min_delay rl <= 0)%Z -> rl' = rl) /\
  ((0 < min_delay rl)%Z -> exists dom, get_domain bok nok url = Some dom /\
     (default_get (_last_request_time rl) dom + min_delay rl <= clk')%Z /\
     _last_request_time rl' = JobRunner.dict_set (_last_request_time rl) dom clk').
Proof.
  intros rl url clk rl' w clk' H. unfold wait_if_needed in H.
  destruct (min_delay rl <=? 0)%Z eqn:Ed.
  - injection H as <- _ <-. apply Z.leb_le in Ed. repeat split; auto; [lia|intro; lia].
  - apply Z.leb_gt in Ed.
    destruct (get_domain bok nok url) as [dom|]; [|discriminate].
    set (t0 := default_get (_last_request_time rl) dom) in *.
    destruct (clk - t0 <? min_delay rl)%Z eqn:El.
    + injection H as <- _ <-. apply Z.ltb_lt in El.
      pose proof (sleep_at_least clk (min_delay rl - (clk - t0)) ltac:(lia)).
      repeat split; [lia|intro; lia|]. intros _. exists dom. repeat split; [lia].
    + injection H as <- _ <-. apply Z.ltb_ge in El.
      repeat split; [lia|intro; lia|]. intros _. exists dom. repeat split; [lia].
Qed.

Definition table_before (rl : limiter) (clk : Z) : Prop :=
  forall k t, dict_get (_last_request_time rl) k = Some t -> (t <= clk)%Z.

Lemma table_before_step : forall rl url clk rl' w clk' c,
  wait_if_needed bok nok sleep rl url clk = Some (rl', w, clk') ->
  table_before rl clk -> (clk' <= c)%Z -> table_before rl' c.
Proof.
  intros rl url clk rl' w clk' c H Hb Hc.
  destruct (wait_step _ _ _ _ _ _ H) as [Hle [Hd [H0 Hpos]]].
  destruct (Z_le_gt_dec (min_delay rl) 0) as [Hn|Hp].
  - rewrite (H0 Hn). intros k t Hk. specialize (Hb k t Hk). lia.
  - destruct (Hpos ltac:(lia)) as [dom [_ [_ Ht]]]. intros k t Hk. rewrite Ht in Hk.
    destruct (list_eq_dec ascii_dec k dom) as [->|Hne].
    + rewrite dict_get_set_same in Hk. injection Hk as <-. lia.
    + rewrite dict_get_set_other in Hk by exact Hne. specialize (Hb k t Hk). lia.
Qed.

Lemma crawl_loop_after : forall us rl qs clk results trace,
  loop rl us qs clk = Some (results, trace) -> table_before rl clk ->
  Forall (fun p => (clk <= snd p)%Z) trace /\
  ((0 < min_delay rl)%Z ->
   Forall (fun p => forall dom t0, get_domain bok nok (fst p) = Some dom ->
             dict_get (_last_request_time rl) dom = Some t0 ->
             (t0 + min_delay rl <= snd p)%Z) trace).
Proof.
  induction us as [|u us IH]; intros rl qs clk results trace H Hb; unfold loop in H; simpl in H.
  - injection H as <- <-. split; [constructor|intros; constructor].
  - destruct (wait_if_needed bok nok sleep rl u clk) as [[[rl' w] clk']|] eqn:Ew; [|discriminate].
    destruct qs as [qs|]; [|discriminate].
    destruct (crawl_url html_parse xpath_eval findall json_loads jsonpath_find bok nok
                ip_address getaddrinfo http_get u qs) as [r req] eqn:Ec.
    fold loop in H.
    destruct (loop rl' us (Some qs) (crawl_time clk' u)) as [[results' trace']|] eqn:El;
      [|discriminate].
    injection H as <- <-.
    destruct (wait_step _ _ _ _ _ _ Ew) as [Hle [Hd [H0 Hpos]]].
    pose proof (crawl_time_mono clk' u) as Hct.
    destruct (IH _ _ _ _ _ El (table_before_step _ _ _ _ _ _ _ Ew Hb Hct)) as [Ha Hbb].
    assert (Hreq : req = [] \/ req = [u]).
    { unfold crawl_url in Ec.
      destruct (validate_scrape_url ip_address getaddrinfo bok nok u) as [[v|e]|];
        [destruct (http_get u) as [[code text]|];
         [destruct (run_queries _ _ _ _ _ text qs []) as [qr raised]|]| |];
        injection Ec as _ <-; auto. }
    split.
    + apply Forall_app. split.
      * destruct Hreq as [ -> | -> ]; [constructor|]. constructor; [simpl; exact Hle|constructor].
      * eapply Forall_impl; [|exact Ha]. intros p Hp. simpl in Hp. lia.
    + intro Hp. destruct (Hpos Hp) as [dom0 [Hdom0 [Hwait Ht']]]. apply Forall_app. split.
      * destruct Hreq as [ -> | -> ]; [constructor|]. constructor; [|constructor].
        simpl. intros dom t0 Hdom Ht0. rewrite Hdom0 in Hdom. injection Hdom as <-.
        unfold default_get in Hwait. rewrite Ht0 in Hwait. exact Hwait.
      * rewrite Hd in Hbb. specialize (Hbb Hp). eapply Forall_impl; [|exact Hbb].
        intros p Hq dom t0 Hdom Ht0. specialize (Hq dom). rewrite Ht' in Hq.
        destruct (list_eq_dec ascii_dec dom dom0) as [->|Hne].
        -- rewrite dict_get_set_same in Hq. specialize (Hq clk' Hdom eq_refl).
           specialize (Hb dom0 t0 Ht0). lia.
        -- rewrite dict_get_set_other in Hq by exact Hne. exact (Hq t0 Hdom Ht0).
Qed.

Lemma crawl_loop_spacing : forall us rl qs clk results trace,
  loop rl us qs clk = Some (results, trace) -> table_before rl clk ->
  ForallOrdPairs (fun a b => get_domain bok nok (fst a) = get_domain bok nok (fst b) ->
                    (snd a + min_delay rl <= snd b)%Z) trace.
Proof.
  induction us as [|u us IH]; intros rl qs clk results trace H Hb; unfold loop in H; simpl in H.
  - injection H as <- <-. constructor.
  - destruct (wait_if_needed bok nok sleep rl u clk) as [[[rl' w] clk']|] eqn:Ew; [|discriminate].
    destruct qs as [qs|]; [|discriminate].
    destruct (crawl_url html_parse xpath_eval findall json_loads jsonpath_find bok nok
                ip_address getaddrinfo http_get u qs) as [r req] eqn:Ec.
    fold loop in H.
    destruct (loop rl' us (Some qs) (crawl_time clk' u)) as [[results' trace']|] eqn:El;
      [|discriminate].
    injection H as <- <-.
    destruct (wait_step _ _ _ _ _ _ Ew) as [Hle [Hd [H0 Hpos]]].
    pose proof (crawl_time_mono clk' u) as Hct.
    pose proof (table_before_step _ _ _ _ _ _ _ Ew Hb Hct) as Hb'.
    pose proof (IH _ _ _ _ _ El Hb') as Hrest. rewrite Hd in Hrest.
    assert (Hreq : req = [] \/ req = [u]).
    { unfold crawl_url in Ec.
      destruct (validate_scrape_url ip_address getaddrinfo bok nok u) as [[v|e]|];
        [destruct (http_get u) as [[code text]|];
         [destruct (run_queries _ _ _ _ _ text qs []) as [qr raised]|]| |];
        injection Ec as _ <-; auto. }
    destruct Hreq as [ -> | -> ]; [exact Hrest|]. simpl. constructor; [|exact Hrest].
    destruct (crawl_loop_after _ _ _ _ _ _ El Hb') as [Ha Hbb]. rewrite Hd in Hbb.
    destruct (Z_le_gt_dec (min_delay rl) 0) as [Hn|Hp].
    + eapply Forall_impl; [|exact Ha]. intros p Hq _. simpl in *. lia.
    + destruct (Hpos ltac:(lia)) as [dom0 [Hdom0 [_ Ht']]].
      specialize (Hbb ltac:(lia)). eapply Forall_impl; [|exact Hbb].
      intros p Hq Heq. simpl in *. rewrite Hdom0 in Heq.
      apply (Hq dom0 clk' (eq_sym Heq)). rewrite Ht'. apply dict_get_set_same.
Qed.

(** X15: provided [time.sleep] waits at least as long as asked and time
    does not go backwards, for any two URLs of the same domain that
    [process_job] requests, the [wait_if_needed] calls before them return
    at least [crawl_delay] apart. The times compared are the ones the rate
    limiter records, not the moments [requests.get] starts, which come
    after the DNS lookup of [validate_scrape_url]. *)
Theorem process_job_spacing : forall j clk results trace,
  process_job html_parse xpath_eval findall json_loads jsonpath_find
    bok nok ip_address getaddrinfo http_get sleep crawl_time j clk = Some (results, trace) ->
  ForallOrdPairs (fun a b => get_domain bok nok (fst a) = get_domain bok nok (fst b) ->
                    (snd a + job_min_delay j <= snd b)%Z) trace.
Proof.
  intros j clk results trace H. unfold process_job in H.
  destruct (init (job_min_delay j)) as [rl|] eqn:Ei; [|discriminate].
  destruct (urls j) as [us|]; [|discriminate].
  assert (Hm : min_delay rl = job_min_delay j).
  { unfold init in Ei. destruct (job_min_delay j <? 0)%Z; [discriminate|]. injection Ei as <-. reflexivity. }
  rewrite <- Hm. eapply crawl_loop_spacing; [exact H|].
  unfold init in Ei. destruct (job_min_delay j <? 0)%Z; [discriminate|]. injection Ei as <-.
  intros k t Hk. discriminate.
Qed.

End Spacing.

End CrawlProofs.

(** Witnesses: engines where only the regex one matches, the resolver of
    [SsrfClaims], a request that always answers 200. *)
Definition w_accept (_ : pystr) : bool := true.
Definition w_html (_ : pystr) : option unit := None.
Definition w_xpath (_ : unit) (_ : pystr) : option (list pyval) := None.
Definition w_findall (_ _ : pystr) : option (list pyval) := Some [PStr (s "x")].
Definition w_json (_ : pystr) : option unit := None.
Definition w_jsonpath (_ : pystr) (_ : unit) : option (list pyval) := None.
Definition w_get (_ : pystr) : option (Z * pystr) := Some (200, s "body").
Definition w_time (c : Z) (_ : pystr) : Z := c + 5.

Definition w_query : query :=
  {| q_name := Some (s "q"); q_type := Some (s "regex"); q_selector := Some (s "x");
     q_query := None; q_join := false |}.

Definition w_nameless : query :=
  {| q_name := None; q_type := Some (s "regex"); q_selector := Some (s "x");
     q_query := None; q_join := false |}.

Definition w_job : job :=
  {| crawl_delay := Some 1000;
     urls := Some [s "http://example.com/a"; s "http://metadata.internal/"; s "http://example.com/b"];
     test := false; queries := Some [w_query] |}.

Lemma crawl_url_ok_witness :
  crawl_url w_html w_xpath w_findall w_json w_jsonpath w_accept w_accept
    SsrfClaims.known_ip SsrfClaims.resolve w_get (s "http://example.com/") [w_query]
  = ({| cr_url := s "http://example.com/"; cr_http_code := Some 200; cr_error_info := None;
        cr_query_results :=
          [(s "q", run_query w_html w_xpath w_findall w_json w_jsonpath (s "body") w_query)];
        cr_removed := false; cr_ran := true |}, [s "http://example.com/"]).
Proof.
  exact (crawl_url_ok w_html w_xpath w_findall w_json w_jsonpath w_accept w_accept
    SsrfClaims.known_ip SsrfClaims.resolve w_get (s "http://example.com/")
    (s "http://example.com/") 200 (s "body") [w_query] [s "q"]
    ltac:(vm_compute; reflexivity) eq_refl eq_refl
    ltac:(constructor; [intros []|constructor])).
Defined.

Lemma crawl_url_missing_name_witness :
  crawl_url w_html w_xpath w_findall w_json w_jsonpath w_accept w_accept
    SsrfClaims.known_ip SsrfClaims.resolve w_get (s "http://example.com/") [w_query; w_nameless]
  = ({| cr_url := s "http://example.com/"; cr_http_code := Some 200;
        cr_error_info := Some (ExceptionText "'name'");
        cr_query_results :=
          [(s "q", run_query w_html w_xpath w_findall w_json w_jsonpath (s "body") w_query)];
        cr_removed := false; cr_ran := false |}, [s "http://example.com/"]).
Proof.
  exact (crawl_url_missing_name w_html w_xpath w_findall w_json w_jsonpath w_accept w_accept
    SsrfClaims.known_ip SsrfClaims.resolve w_get (s "http://example.com/")
    (s "http://example.com/") 200 (s "body") [w_query] w_nameless [] [s "q"]
    ltac:(vm_compute; reflexivity) eq_refl eq_refl
    ltac:(constructor; [intros []|constructor]) eq_refl).
Defined.

Lemma process_job_results_witness :
  (0 <= job_min_delay w_job)%Z.
Proof.
  refine (proj1 (process_job_results w_html w_xpath w_findall w_json w_jsonpath w_accept w_accept
    SsrfClaims.known_ip SsrfClaims.resolve w_get Z.add w_time w_job 0 _ _ _)).
  vm_compute. reflexivity.
Defined.

Lemma process_job_spacing_witness :
  exists results trace,
    process_job w_html w_xpath w_findall w_json w_jsonpath w_accept w_accept
      SsrfClaims.known_ip SsrfClaims.resolve w_get Z.add w_time w_job 0 = Some (results, trace) /\
    ForallOrdPairs (fun a b => get_domain w_accept w_accept (fst a) = get_domain w_accept w_accept (fst b) ->
                      (snd a + job_min_delay w_job <= snd b)%Z) trace.
Proof.
  do 2 eexists. split; [vm_compute; reflexivity|].
  refine (process_job_spacing w_html w_xpath w_findall w_json w_jsonpath w_accept w_accept
    SsrfClaims.known_ip SsrfClaims.resolve w_get Z.add w_time _ _ w_job 0 _ _ _).
  - intros; lia.
  - intros c u. unfold w_time. lia.
  - vm_compute. reflexivity.
Defined.

End CrawlerProofs.

